(** * go-msgpack decoder (decode.go): a shallow embedding and its properties

    The development follows decode.go function by function.

    - A [reflect.Value] is the value it denotes together with its [CanSet]
      flag; a function that mutates its destination returns the new content
      of the destination.  Destinations are trees: two slots never share a
      pointer target or a backing array.
    - Go panics, raised through [Decoder.err] or by package reflect, are an
      outcome of a state-and-exception monad over the decoder; what a panic
      leaves in the destination is not tracked.
    - The [io.Reader] behind the decoder is an arbitrary state machine, so
      short reads and I/O errors are part of the model.
    - The recursion of [decodeValue] is bounded by a fuel argument; running
      out of fuel is an outcome of its own, and more fuel never changes any
      other outcome ([decodeValue_fuel_mono]).
    - The kinds covered are those [decodeValue] has a case for; types are
      finite trees, so a record cannot point back to its own type. *)

From Stdlib Require Import ZArith List Bool Lia.
From Stdlib Require Import Strings.Byte.
Import ListNotations.
Local Open Scope Z_scope.
Set Warnings "-register-all".

(** ** Bytes and fixed-width integers *)

Definition b2z (b : byte) : Z := Z.of_N (Byte.to_N b).

Definition z2b (z : Z) : byte :=
  match Byte.of_N (Z.to_N (z mod 256)) with
  | Some b => b
  | None => x00
  end.

Definition byte_eqb (a b : byte) : bool := Byte.eqb a b.

(** Conversion to an unsigned / signed Go integer of [w] bits. *)
Definition wrapU (w z : Z) : Z := z mod 2 ^ w.
Definition wrapS (w z : Z) : Z := (z + 2 ^ (w - 1)) mod 2 ^ w - 2 ^ (w - 1).

Definition int8 (z : Z) : Z := wrapS 8 z.
Definition int16 (z : Z) : Z := wrapS 16 z.
Definition int32 (z : Z) : Z := wrapS 32 z.
Definition int64 (z : Z) : Z := wrapS 64 z.
Definition uint64 (z : Z) : Z := wrapU 64 z.
(** Go's [int]; the model takes the 64-bit targets. *)
Definition int (z : Z) : Z := wrapS 64 z.

(** encoding/binary: [BigEndian.Uint16(b) = uint16(b[1]) | uint16(b[0])<<8]
    and its wider siblings, most significant byte first. *)
Definition BigEndian (bs : list byte) : Z :=
  fold_left (fun acc b => Z.lor (Z.shiftl acc 8) (b2z b)) bs 0.

(** ** Types and values seen through package reflect *)

(** Width of an integer kind; [W0] is the platform-sized [int] / [uint]. *)
Inductive intw := W0 | W8 | W16 | W32 | W64.

Definition bits (w : intw) : Z :=
  match w with W0 => 64 | W8 => 8 | W16 => 16 | W32 => 32 | W64 => 64 end.

Inductive ty :=
| TBool
| TInt (w : intw)
| TUint (w : intw)
| TFloat32
| TFloat64
| TString
| TSlice (e : ty)
| TArray (n : nat) (e : ty)
| TMap (k v : ty)
| TPtr (e : ty)
| TInterface
| TStruct (fields : list (list byte * ty))
| TTime.

Inductive Kind :=
| Invalid | Bool | Int | Uint | Float32 | Float64 | String
| Slice | Array | Map | Ptr | Interface | Struct.

Definition kindOfTy (t : ty) : Kind :=
  match t with
  | TBool => Bool | TInt _ => Int | TUint _ => Uint
  | TFloat32 => Float32 | TFloat64 => Float64 | TString => String
  | TSlice _ => Slice | TArray _ _ => Array | TMap _ _ => Map
  | TPtr _ => Ptr | TInterface => Interface
  | TStruct _ => Struct | TTime => Struct
  end.

(** A value together with its dynamic type.  A slice is its backing array and
    its visible length; the capacity is the length of the backing array.
    Floats are bit patterns.  [VTime None] is the zero [time.Time]; [VTime
    (Some (s, ns))] is [time.Unix(s, ns).UTC()]. *)
Inductive value :=
| VBool (b : bool)
| VInt (w : intw) (z : Z)
| VUint (w : intw) (z : Z)
| VFloat32 (u : Z)
| VFloat64 (u : Z)
| VString (s : list byte)
| VSlice (e : ty) (s : option (list value * nat))
| VArray (e : ty) (elems : list value)
| VMap (k v : ty) (m : option (list (value * value)))
| VPtr (e : ty) (p : option value)
| VIntf (i : option value)
| VStruct (fields : list (list byte * value))
| VTime (t : option (Z * Z)).

Fixpoint zero (t : ty) : value :=
  match t with
  | TBool => VBool false
  | TInt w => VInt w 0
  | TUint w => VUint w 0
  | TFloat32 => VFloat32 0
  | TFloat64 => VFloat64 0
  | TString => VString []
  | TSlice e => VSlice e None
  | TArray n e => VArray e (repeat (zero e) n)
  | TMap k v => VMap k v None
  | TPtr e => VPtr e None
  | TInterface => VIntf None
  | TStruct fs =>
      VStruct ((fix go (l : list (list byte * ty)) :=
                  match l with
                  | [] => []
                  | (n, ft) :: l' => (n, zero ft) :: go l'
                  end) fs)
  | TTime => VTime None
  end.

(** [rv.Type()]: the static type of the slot a [reflect.Value] stands for. *)
Fixpoint typeOf (v : value) : ty :=
  match v with
  | VBool _ => TBool
  | VInt w _ => TInt w
  | VUint w _ => TUint w
  | VFloat32 _ => TFloat32
  | VFloat64 _ => TFloat64
  | VString _ => TString
  | VSlice e _ => TSlice e
  | VArray e l => TArray (length l) e
  | VMap k v _ => TMap k v
  | VPtr e _ => TPtr e
  | VIntf _ => TInterface
  | VStruct fs =>
      TStruct ((fix go (l : list (list byte * value)) :=
                  match l with
                  | [] => []
                  | (n, fv) :: l' => (n, typeOf fv) :: go l'
                  end) fs)
  | VTime _ => TTime
  end.

Definition kindOf (v : value) : Kind := kindOfTy (typeOf v).

(** Modelled from the spec: the package-level type constants [intfTyp],
    [byteSliceTyp], [intfSliceTyp], [mapIntfIntfTyp] and [timeTyp] are declared
    outside decode.go; they are the types their names and section 4.4 say. *)
Definition intfTyp : ty := TInterface.
Definition byteSliceTyp : ty := TSlice (TUint W8).
Definition intfSliceTyp : ty := TSlice TInterface.
Definition mapIntfIntfTyp : ty := TMap TInterface TInterface.
Definition timeTyp : ty := TTime.

Definition isIntfTyp (t : ty) : bool :=
  match t with TInterface => true | _ => false end.
Definition isByteSliceTyp (t : ty) : bool :=
  match t with TSlice (TUint W8) => true | _ => false end.
Definition isTimeTyp (t : ty) : bool :=
  match t with TTime => true | _ => false end.

(** [rv.IsNil()] on the kinds the decoder asks it of. *)
Definition IsNil (v : value) : bool :=
  match v with
  | VSlice _ None | VMap _ _ None | VPtr _ None | VIntf None => true
  | _ => false
  end.

Definition byteOfValue (v : value) : byte :=
  match v with VUint _ z => z2b z | VInt _ z => z2b z | _ => x00 end.
Definition valueOfByte (b : byte) : value := VUint W8 (b2z b).

(** ** Operations of package reflect used by the decoder *)

Definition intw_eqb (a b : intw) : bool :=
  match a, b with
  | W0, W0 | W8, W8 | W16, W16 | W32, W32 | W64, W64 => true
  | _, _ => false
  end.

Fixpoint bytes_eqb (a b : list byte) : bool :=
  match a, b with
  | [], [] => true
  | x :: a', y :: b' => byte_eqb x y && bytes_eqb a' b'
  | _, _ => false
  end.

(** Identity of types. *)
Fixpoint ty_eqb (a b : ty) : bool :=
  match a, b with
  | TBool, TBool | TFloat32, TFloat32 | TFloat64, TFloat64
  | TString, TString | TInterface, TInterface | TTime, TTime => true
  | TInt w, TInt w' | TUint w, TUint w' => intw_eqb w w'
  | TSlice e, TSlice e' | TPtr e, TPtr e' => ty_eqb e e'
  | TArray n e, TArray n' e' => Nat.eqb n n' && ty_eqb e e'
  | TMap k v, TMap k' v' => ty_eqb k k' && ty_eqb v v'
  | TStruct fs, TStruct gs =>
      (fix go (l m : list (list byte * ty)) : bool :=
         match l, m with
         | [], [] => true
         | (n, t) :: l', (n', t') :: m' =>
             bytes_eqb n n' && ty_eqb t t' && go l' m'
         | _, _ => false
         end) fs gs
  | _, _ => false
  end.

(** Whether a value may be a map key: slices and maps may not (the runtime
    panics on hashing them), nor may anything that contains one. *)
Fixpoint hashable (v : value) : bool :=
  match v with
  | VSlice _ _ | VMap _ _ _ => false
  | VArray _ l => forallb hashable l
  | VIntf (Some c) => hashable c
  | VStruct fs =>
      (fix go (l : list (list byte * value)) : bool :=
         match l with
         | [] => true
         | (_, fv) :: l' => hashable fv && go l'
         end) fs
  | _ => true
  end.

(** Go's [==] on float bit patterns: a NaN equals nothing, the two zeros are
    equal. *)
Definition float_eqb (ebits mbits : Z) (u v : Z) : bool :=
  let absmask := 2 ^ (ebits + mbits) - 1 in
  let inf := Z.shiftl (2 ^ ebits - 1) mbits in
  let nan x := inf <? Z.land x absmask in
  negb (nan u) && negb (nan v) &&
  ((u =? v) || ((Z.land u absmask =? 0) && (Z.land v absmask =? 0))).

(** Go's [==] between a key [a] that was just decoded and a key [b] of the
    map.  A non-nil pointer in [a] is freshly allocated and equals no other
    pointer. *)
Fixpoint valEq (a b : value) : bool :=
  match a, b with
  | VBool x, VBool y => Bool.eqb x y
  | VInt w x, VInt w' y | VUint w x, VUint w' y => intw_eqb w w' && (x =? y)
  | VFloat32 x, VFloat32 y => float_eqb 8 23 x y
  | VFloat64 x, VFloat64 y => float_eqb 11 52 x y
  | VString x, VString y => bytes_eqb x y
  | VPtr e None, VPtr e' None => ty_eqb e e'
  | VIntf None, VIntf None => true
  | VIntf (Some x), VIntf (Some y) => valEq x y
  | VTime None, VTime None => true
  | VTime (Some (s, n)), VTime (Some (s', n')) => (s =? s') && (n =? n')
  | VArray e l, VArray e' l' =>
      ty_eqb e e' &&
      (fix go (l : list value) (m : list value) : bool :=
         match l, m with
         | [], [] => true
         | x :: l', y :: m' => valEq x y && go l' m'
         | _, _ => false
         end) l l'
  | VStruct fs, VStruct gs =>
      (fix go (l : list (list byte * value)) (m : list (list byte * value))
         : bool :=
         match l, m with
         | [], [] => true
         | (n, x) :: l', (n', y) :: m' =>
             bytes_eqb n n' && valEq x y && go l' m'
         | _, _ => false
         end) fs gs
  | _, _ => false
  end.

(** [rv.Set(x)] as far as the stored content goes: an interface slot takes
    the concrete value of [x]; any other slot is only ever set by the decoder
    to a value of its own type. *)
Definition assign (slot x : value) : value :=
  match slot with
  | VIntf _ => match x with VIntf i => VIntf i | _ => VIntf (Some x) end
  | _ => x
  end.

(** [rv.Elem()] of an interface or a pointer; [None] is the zero Value. *)
Definition Elem (v : value) : option value :=
  match v with
  | VIntf i => i
  | VPtr _ p => p
  | _ => None
  end.

(** [rv.Len()] and [rv.Cap()]. *)
Definition Len (v : value) : Z :=
  match v with
  | VSlice _ (Some (_, n)) => Z.of_nat n
  | VArray _ l => Z.of_nat (length l)
  | VString s => Z.of_nat (length s)
  | VMap _ _ (Some m) => Z.of_nat (length m)
  | _ => 0
  end.

Definition Cap (v : value) : Z :=
  match v with
  | VSlice _ (Some (b, _)) => Z.of_nat (length b)
  | VArray _ l => Z.of_nat (length l)
  | _ => 0
  end.

(** [rvtype.Elem()] of a slice, array, pointer or map type. *)
Definition tyElem (t : ty) : option ty :=
  match t with
  | TSlice e | TArray _ e | TPtr e => Some e
  | TMap _ v => Some v
  | _ => None
  end.

(** Store [x] at index [j] of a list. *)
Fixpoint update (l : list value) (j : nat) (x : value) : list value :=
  match l, j with
  | [], _ => []
  | _ :: l', O => x :: l'
  | y :: l', S j' => y :: update l' j' x
  end.

(** [reflect.MakeSlice(typ, n, n)] for a slice type of element type [e]. *)
Definition makeSlice (e : ty) (n : Z) : value :=
  VSlice e (Some (repeat (zero e) (Z.to_nat n), Z.to_nat n)).

(** [rv.Bytes()] of a byte slice. *)
Definition Bytes (v : value) : list byte :=
  match v with
  | VSlice _ (Some (b, n)) => map byteOfValue (firstn n b)
  | _ => []
  end.

(** Map lookup and update on the association list behind a map. *)
Fixpoint mapLookup (m : list (value * value)) (k : value) : option value :=
  match m with
  | [] => None
  | (k', v) :: m' => if valEq k k' then Some v else mapLookup m' k
  end.

Fixpoint mapStore (m : list (value * value)) (k v : value)
  : list (value * value) :=
  match m with
  | [] => [(k, v)]
  | (k', v') :: m' =>
      if valEq k k' then (k', v) :: m' else (k', v') :: mapStore m' k v
  end.

Fixpoint mapDelete (m : list (value * value)) (k : value)
  : list (value * value) :=
  match m with
  | [] => []
  | (k', v') :: m' =>
      if valEq k k' then m' else (k', v') :: mapDelete m' k
  end.

(** [time.Unix(sec, nsec)]: nanoseconds outside [0, 1e9) are carried into
    the seconds. *)
Definition timeUnix (sec nsec : Z) : Z * Z :=
  if (nsec <? 0) || (1000000000 <=? nsec) then
    let n := Z.quot nsec 1000000000 in
    let sec := int64 (sec + n) in
    let nsec := int64 (nsec - n * 1000000000) in
    if nsec <? 0 then (int64 (sec - 1), nsec + 1000000000) else (sec, nsec)
  else (sec, nsec).

(** ** Panics, results and the decoder monad *)

(** An error returned by the underlying [io.Reader]. *)
Inductive ioerr := EOF | IOError (code : nat).

(** Run-time panics of package reflect and of the Go runtime. *)
Inductive rpanic :=
| NotSettable      (* Set/SetInt/... through an unaddressable Value *)
| WrongKind        (* SetBool on an int, MakeMap of a non-map type, ... *)
| IndexOutOfRange  (* rv.Index(j) with j >= rv.Len() *)
| Unhashable       (* map access with a slice or map as key *)
| ZeroValue        (* method call on the zero reflect.Value *)
| NilDeref.        (* use of the nil result of getForEncName *)

(** One constructor per [d.err] call of decode.go, plus the run-time panics.
    Modelled from the spec: [doPanic], which [d.err] hands its message to, is
    declared outside decode.go; it raises the panic that aborts the decode
    (section 7). *)
Inductive perr :=
| ErrRead (e : ioerr)               (* readb: "Error: %v" *)
| ErrReadShort (expect got : Z)     (* readb: "read: Incorrect num bytes read" *)
| ErrNilDeciphered (bd : byte)      (* nilIntfDecode: msgBadDesc *)
| ErrDefNotHandled (bd : byte)      (* decodeValue, scalar kinds: msgBadDesc *)
| ErrStringsRaw                     (* "Strings must be handled as raw bytes" *)
| ErrArrayLen (rvlen clen : Z)      (* "Array len: %d must be >= container Len" *)
| ErrInvalidEncField (name : list byte)
| ErrContainerLen (bd : byte)       (* readContainerLen: msgBadDesc *)
| ErrContainerType                  (* getContainerByteDesc: unknown type *)
| ErrReflect (p : rpanic).

(** The fault taxonomy of the specification (section 7). *)
Inductive Fault := ReadFault | FormatFault | TypeFault | FieldFault | UsageFault.

Definition faultOf (e : perr) : option Fault :=
  match e with
  | ErrRead _ | ErrReadShort _ _ => Some ReadFault
  | ErrNilDeciphered _ | ErrDefNotHandled _ | ErrContainerLen _ => Some FormatFault
  | ErrStringsRaw | ErrArrayLen _ _ => Some TypeFault
  | ErrInvalidEncField _ => Some FieldFault
  | ErrContainerType | ErrReflect _ => None
  end.

Inductive result (A : Type) :=
| Ok (a : A)
| Panic (e : perr)
| OutOfFuel.
Arguments Ok {A} a.
Arguments Panic {A} e.
Arguments OutOfFuel {A}.

(** Modelled from the spec: [ContainerType] and its three constants are
    declared outside decode.go (section 3, "Container category");
    [ContainerUnset] is the zero value of the type. *)
Inductive ContainerType :=
| ContainerUnset | ContainerRawBytes | ContainerList | ContainerMap.

(** Modelled from the spec: [getContainerByteDesc] is declared outside
    decode.go; section 6 gives, per category, the inline mask, the 16-bit tag
    and the 32-bit tag (and the inline cutoff, unused by the decoder). *)
Definition getContainerByteDesc (ct : ContainerType)
  : result (Z * byte * byte * byte) :=
  match ct with
  | ContainerRawBytes => Ok (32, xa0, xda, xdb)
  | ContainerList => Ok (16, x90, xdc, xdd)
  | ContainerMap => Ok (16, x80, xde, xdf)
  | ContainerUnset => Panic ErrContainerType
  end.

(** The [parentkey interface{}] argument of a resolver: nil, a slice index or
    a map key. *)
Inductive pkey := PKnil | PKindex (j : Z) | PKkey (k : value).

(** A [reflect.Value] handed around by the decoder: the value it denotes and
    whether it can be set ([CanSet]).  [None] is the zero (invalid) Value. *)
Definition hval : Type := value * bool.

(** [DecoderContainerResolver.DecoderContainer]. *)
Definition Resolver : Type :=
  option value -> pkey -> Z -> ContainerType -> result (option hval).

(** ** The default resolver *)

Record SimpleDecoderContainerResolver := mkSimple {
  MapType : option ty;
  SliceType : option ty;
  BytesStringLiteral : bool;
  BytesStringSliceElement : bool;
  BytesStringMapValue : bool
}.

Definition DefaultDecoderContainerResolver : SimpleDecoderContainerResolver :=
  mkSimple None None true true true.

(** [reflect.MakeMap] and [reflect.MakeSlice]; the Values they return are not
    addressable. *)
Definition MakeMap (t : ty) : result (option hval) :=
  match t with
  | TMap k v => Ok (Some (VMap k v (Some []), false))
  | _ => Panic (ErrReflect WrongKind)
  end.

Definition MakeSlice (t : ty) (len : Z) : result (option hval) :=
  match t with
  | TSlice e => Ok (Some (makeSlice e len, false))
  | _ => Panic (ErrReflect WrongKind)
  end.

Definition Kind_eqb (a b : Kind) : bool :=
  match a, b with
  | Invalid, Invalid | Bool, Bool | Int, Int | Uint, Uint
  | Float32, Float32 | Float64, Float64 | String, String | Slice, Slice
  | Array, Array | Map, Map | Ptr, Ptr | Interface, Interface
  | Struct, Struct => true
  | _, _ => false
  end.

(** [SimpleDecoderContainerResolver.DecoderContainer]. *)
Definition DecoderContainer (o : SimpleDecoderContainerResolver) : Resolver :=
  fun parentcontainer parentkey length ct =>
    match ct with
    | ContainerMap =>
        match MapType o with
        | Some t => MakeMap t
        | None => MakeMap mapIntfIntfTyp
        end
    | ContainerList =>
        match SliceType o with
        | Some t => MakeSlice t length
        | None => MakeSlice intfSliceTyp length
        end
    | ContainerRawBytes =>
        let rk := match parentcontainer with
                  | Some v => kindOf v
                  | None => Invalid
                  end in
        if (Kind_eqb rk Invalid && BytesStringLiteral o)
           || (Kind_eqb rk Slice && BytesStringSliceElement o)
           || (Kind_eqb rk Map && BytesStringMapValue o)
        then Ok (Some (VPtr TString (Some (VString [])), false))
        else MakeSlice byteSliceTyp length
    | ContainerUnset => Ok None
    end.

Section Decoder.

(** The [io.Reader]: [Read r k] is a call of [Read] with a buffer of [k]
    bytes in reader state [r]; it returns the bytes it stored, its error and
    the next state. *)
Context {R : Type}.
Variable Read : R -> nat -> list byte * option ioerr * R.

(** [float64(x)] for a float32 [x], and [float32(x)] for a float64 [x], on
    bit patterns. *)
Variable float32to64 : Z -> Z.
Variable float64to32 : Z -> Z.

(** A [Read] never stores more than the buffer holds. *)
Definition rRead (r : R) (k : nat) : list byte * option ioerr * R :=
  let '(data, e, r') := Read r k in (firstn k data, e, r').

(** The scratch array [d.x] and its views [t1], [t2], [t4], [t8] are written
    by every read before they are looked at, so the model does not carry
    their content from one read to the next. *)
Record Decoder := mkDecoder { r : R; dam : Resolver }.

Definition setr (d : Decoder) (r' : R) : Decoder := mkDecoder r' (dam d).

Definition M (A : Type) : Type := Decoder -> result A * Decoder.

Definition ret {A} (a : A) : M A := fun d => (Ok a, d).
Definition err {A} (e : perr) : M A := fun d => (Panic e, d).
Definition diverge {A} : M A := fun d => (OutOfFuel, d).
Definition bind {A B} (m : M A) (k : A -> M B) : M B :=
  fun d =>
    match m d with
    | (Ok a, d') => k a d'
    | (Panic e, d') => (Panic e, d')
    | (OutOfFuel, d') => (OutOfFuel, d')
    end.
Definition lift {A} (x : result A) : M A := fun d => (x, d).

Notation "x <- c ;; k" := (bind c (fun x => k))
  (at level 61, c at next level, right associativity).
Notation "' p <- c ;; k" := (bind c (fun x => match x with p => k end))
  (at level 61, p pattern, c at next level, right associativity).
Notation "c ;;; k" := (bind c (fun _ => k))
  (at level 61, right associativity).

(** [for j := from; j < from + n; j++ { s = body(j, s) }] *)
Fixpoint forM {St} (n : nat) (j : Z) (body : Z -> St -> M St) (s : St)
  : M St :=
  match n with
  | O => ret s
  | S n' => s' <- body j s ;; forM n' (j + 1) body s'
  end.

(** ** Byte reader *)

(** Copy [data] over the front of the buffer [bs]. *)
Definition overwrite (bs data : list byte) : list byte :=
  data ++ skipn (length data) bs.

Definition scratch (n : nat) : list byte := repeat x00 n.

(** [readb]: the result is the content of [bs] after the reads. *)
Definition readb (numbytes : Z) (bs : list byte) : M (list byte) :=
  fun d =>
    let '(data, e, r1) := rRead (r d) (length bs) in
    let n := Z.of_nat (length data) in
    match e with
    | Some e => (Panic (ErrRead e), setr d r1)
    | None =>
        if negb (n =? numbytes) then
          let numbytes2 := numbytes - n in
          let rest := skipn (length data) bs in
          let '(data2, e2, r2) := rRead r1 (length rest) in
          let n2 := Z.of_nat (length data2) in
          match e2 with
          | Some e => (Panic (ErrRead e), setr d r2)
          | None =>
              if negb (n2 =? numbytes2)
              then (Panic (ErrReadShort numbytes (n + n2)), setr d r2)
              else (Ok (data ++ overwrite rest data2), setr d r2)
          end
        else (Ok (overwrite bs data), setr d r1)
    end.

Definition readUint8 : M Z :=
  bs <- readb 1 (scratch 1) ;; ret (b2z (hd x00 bs)).
Definition readUint16 : M Z :=
  bs <- readb 2 (scratch 2) ;; ret (BigEndian bs).
Definition readUint32 : M Z :=
  bs <- readb 4 (scratch 4) ;; ret (BigEndian bs).
Definition readUint64 : M Z :=
  bs <- readb 8 (scratch 8) ;; ret (BigEndian bs).

(** The descriptor read shared by [decodeValue], [nilIntfDecode] and
    [readContainerLen]: [d.readb(1, d.t1); bd = d.t1[0]]. *)
Definition readDescByte (bd : byte) (readDesc : bool) : M byte :=
  if readDesc then bs <- readb 1 (scratch 1) ;; ret (hd x00 bs) else ret bd.

(** ** Container length codec *)

Definition readContainerLen (bd : byte) (readDesc : bool) (ct : ContainerType)
  : M Z :=
  bd <- readDescByte bd readDesc ;;
  '(_, b0, b1, b2) <- lift (getContainerByteDesc ct) ;;
  if byte_eqb bd b1 then
    u <- readUint16 ;; ret (int u)
  else if byte_eqb bd b2 then
    u <- readUint32 ;; ret (int u)
  else if Z.land (b2z b0) (b2z bd) =? b2z b0 then
    ret (int (Z.lxor (b2z b0) (b2z bd)))
  else
    err (ErrContainerLen bd).

(** ** Setters of package reflect *)

(** [rv.Set(x)]; [x = None] is the zero Value. *)
Definition rSet (rv : hval) (x : option value) : result value :=
  if snd rv then
    match x with
    | Some x => Ok (assign (fst rv) x)
    | None => Panic (ErrReflect ZeroValue)
    end
  else Panic (ErrReflect NotSettable).

Definition SetBool (rv : hval) (b : bool) : result value :=
  if snd rv then
    match fst rv with
    | VBool _ => Ok (VBool b)
    | _ => Panic (ErrReflect WrongKind)
    end
  else Panic (ErrReflect NotSettable).

Definition SetInt (rv : hval) (x : Z) : result value :=
  if snd rv then
    match fst rv with
    | VInt w _ => Ok (VInt w (wrapS (bits w) x))
    | _ => Panic (ErrReflect WrongKind)
    end
  else Panic (ErrReflect NotSettable).

Definition SetUint (rv : hval) (x : Z) : result value :=
  if snd rv then
    match fst rv with
    | VUint w _ => Ok (VUint w (wrapU (bits w) x))
    | _ => Panic (ErrReflect WrongKind)
    end
  else Panic (ErrReflect NotSettable).

Definition SetFloat (rv : hval) (x : Z) : result value :=
  if snd rv then
    match fst rv with
    | VFloat32 _ => Ok (VFloat32 (float64to32 x))
    | VFloat64 _ => Ok (VFloat64 x)
    | _ => Panic (ErrReflect WrongKind)
    end
  else Panic (ErrReflect NotSettable).

Definition SetString (rv : hval) (s : list byte) : result value :=
  if snd rv then
    match fst rv with
    | VString _ => Ok (VString s)
    | _ => Panic (ErrReflect WrongKind)
    end
  else Panic (ErrReflect NotSettable).

Definition SetLen (rv : hval) (n : Z) : result value :=
  if snd rv then
    match fst rv with
    | VSlice e (Some (b, _)) =>
        if (0 <=? n) && (n <=? Z.of_nat (length b))
        then Ok (VSlice e (Some (b, Z.to_nat n)))
        else Panic (ErrReflect IndexOutOfRange)
    | _ => Panic (ErrReflect WrongKind)
    end
  else Panic (ErrReflect NotSettable).

(** [rv.Index(j)]: an element of a slice can always be set, an element of an
    array only if the array can. *)
Definition Index (rv : hval) (j : Z) : result hval :=
  match fst rv with
  | VSlice _ (Some (b, n)) =>
      if (0 <=? j) && (j <? Z.of_nat n)
      then Ok (nth (Z.to_nat j) b (VIntf None), true)
      else Panic (ErrReflect IndexOutOfRange)
  | VSlice _ None => Panic (ErrReflect IndexOutOfRange)
  | VArray _ l =>
      if (0 <=? j) && (j <? Z.of_nat (length l))
      then Ok (nth (Z.to_nat j) l (VIntf None), snd rv)
      else Panic (ErrReflect IndexOutOfRange)
  | _ => Panic (ErrReflect WrongKind)
  end.

(** The container [v] once its element [j] holds [x]. *)
Definition setIndex (v : value) (j : Z) (x : value) : value :=
  match v with
  | VSlice e (Some (b, n)) => VSlice e (Some (update b (Z.to_nat j) x, n))
  | VArray e l => VArray e (update l (Z.to_nat j) x)
  | _ => v
  end.

(** ** Open/dynamic destinations: [nilIntfDecode] *)

(** What [nilIntfDecode] hands back: the content of the slot [rv0] after the
    call; whether the returned [rv] is [rv0.Elem()] instead of [rv0]; and
    [bd], [ct], [containerLen], [handled]. *)
Record nilres := mkNilres {
  nslot : value;
  nelem : bool;
  nbd : byte;
  nct : ContainerType;
  nlen : Z;
  nhandled : bool
}.

Definition getDam : M Resolver := fun d => (Ok (dam d), d).

Definition inRange (lo hi : Z) (bd : byte) : bool :=
  (lo <=? b2z bd) && (b2z bd <=? hi).

Definition nilIntfContainer (ct : ContainerType) (bd : byte)
    (containerLen : Z) (setContainers : bool) (rv0 : hval) (elem : bool)
  : M nilres :=
  containerLen <- (if containerLen <? 0
                   then readContainerLen bd false ct
                   else ret containerLen) ;;
  if setContainers then
    resolve <- getDam ;;
    c <- lift (resolve None PKnil containerLen ct) ;;
    s <- lift (rSet rv0 (option_map fst c)) ;;
    ret (mkNilres s elem bd ct containerLen false)
  else
    ret (mkNilres (fst rv0) false bd ct containerLen false).

Definition nilIntfDecode (bd0 : byte) (containerLen0 : Z)
    (readDesc setContainers : bool) (rv0 : hval) : M nilres :=
  bd <- readDescByte bd0 readDesc ;;
  let set v :=
    s <- lift (rSet rv0 (Some v)) ;;
    ret (mkNilres s false bd ContainerUnset containerLen0 true) in
  if byte_eqb bd xc0 then
    ret (mkNilres (fst rv0) false bd ContainerUnset containerLen0 true)
  else if byte_eqb bd xc2 then set (VBool false)
  else if byte_eqb bd xc3 then set (VBool true)
  else if byte_eqb bd xca then u <- readUint32 ;; set (VFloat32 u)
  else if byte_eqb bd xcb then u <- readUint64 ;; set (VFloat64 u)
  else if byte_eqb bd xcc then u <- readUint8 ;; set (VUint W8 u)
  else if byte_eqb bd xcd then u <- readUint16 ;; set (VUint W16 u)
  else if byte_eqb bd xce then u <- readUint32 ;; set (VUint W32 u)
  else if byte_eqb bd xcf then u <- readUint64 ;; set (VUint W64 u)
  else if byte_eqb bd xd0 then u <- readUint8 ;; set (VInt W8 (int8 u))
  else if byte_eqb bd xd1 then u <- readUint16 ;; set (VInt W16 (int16 u))
  else if byte_eqb bd xd2 then u <- readUint32 ;; set (VInt W32 (int32 u))
  else if byte_eqb bd xd3 then u <- readUint64 ;; set (VInt W64 (int64 u))
  else if byte_eqb bd xda || byte_eqb bd xdb || inRange 0xa0 0xbf bd then
    nilIntfContainer ContainerRawBytes bd containerLen0 setContainers rv0
      setContainers
  else if byte_eqb bd xdc || byte_eqb bd xdd || inRange 0x90 0x9f bd then
    nilIntfContainer ContainerList bd containerLen0 setContainers rv0 false
  else if byte_eqb bd xde || byte_eqb bd xdf || inRange 0x80 0x8f bd then
    nilIntfContainer ContainerMap bd containerLen0 setContainers rv0 false
  else if inRange 0xe0 0xff bd || inRange 0x00 0x7f bd then
    set (VInt W8 (int8 (b2z bd)))
  else
    err (ErrNilDeciphered bd).

(** ** The value decoder *)

(** The type of [decodeValue]: the result is [wasNilIntf], the content of the
    slot [rv0] after the call, and the returned [rv] ([None] when it is the
    zero Value). *)
Definition decoder : Type :=
  byte -> Z -> bool -> hval -> M (bool * value * option hval).

Section Body.

(** [decodeValue] one level down. *)
Variable dv : decoder.

(** [decodeValueT]: the result is the content of the slot [rve] after the
    call and the returned [rvn]. *)
Definition decodeValueT_ (bd : byte) (containerLen : Z) (readDesc : bool)
    (rve : hval) (checkWasNilIntf dereferencePtr setToRealValue : bool)
  : M (value * option value) :=
  '(wasNilIntf, slot, rv) <- dv bd containerLen readDesc rve ;;
  match rv with
  | Some (v, _) =>
      if (checkWasNilIntf && wasNilIntf) || negb checkWasNilIntf then
        let rv' := if dereferencePtr && Kind_eqb (kindOf v) Ptr
                   then Elem v else Some v in
        slot' <- (if setToRealValue
                  then lift (rSet (slot, snd rve) rv')
                  else ret slot) ;;
        ret (slot', rv')
      else ret (slot, Some slot)
  | None => ret (slot, Some slot)
  end.

(** [case reflect.Ptr, reflect.Interface]. *)
Definition decodePtr (bd : byte) (containerLen : Z) (rv : hval) : M value :=
  match fst rv with
  | VPtr e p =>
      rvelem <- match p with
                | Some x => ret x
                | None =>
                    _ <- lift (rSet rv (Some (VPtr e (Some (zero e))))) ;;
                    ret (zero e)
                end ;;
      '(_, x, _) <- dv bd containerLen false (rvelem, true) ;;
      ret (VPtr e (Some x))
  | VIntf (Some c) =>
      '(_, x, _) <- dv bd containerLen false (c, false) ;;
      ret (VIntf (Some x))
  | VIntf None => err (ErrReflect WrongKind)
  | v => ret v
  end.

(** [case reflect.Bool, reflect.Int, ..., reflect.Float64]. *)
Definition decodeScalar (bd : byte) (rv : hval) : M value :=
  if byte_eqb bd xc2 then lift (SetBool rv false)
  else if byte_eqb bd xc3 then lift (SetBool rv true)
  else if byte_eqb bd xca then
    u <- readUint32 ;; lift (SetFloat rv (float32to64 u))
  else if byte_eqb bd xcb then u <- readUint64 ;; lift (SetFloat rv u)
  else if byte_eqb bd xcc then u <- readUint8 ;; lift (SetUint rv (uint64 u))
  else if byte_eqb bd xcd then u <- readUint16 ;; lift (SetUint rv (uint64 u))
  else if byte_eqb bd xce then u <- readUint32 ;; lift (SetUint rv (uint64 u))
  else if byte_eqb bd xcf then u <- readUint64 ;; lift (SetUint rv u)
  else if byte_eqb bd xd0 then
    u <- readUint8 ;; lift (SetInt rv (int64 (int8 u)))
  else if byte_eqb bd xd1 then
    u <- readUint16 ;; lift (SetInt rv (int64 (int16 u)))
  else if byte_eqb bd xd2 then
    u <- readUint32 ;; lift (SetInt rv (int64 (int32 u)))
  else if byte_eqb bd xd3 then u <- readUint64 ;; lift (SetInt rv (int64 u))
  else
    match kindOf (fst rv) with
    | Int =>
        if inRange 0x00 0x7f bd || inRange 0xe0 0xff bd
        then lift (SetInt rv (int64 (int8 (b2z bd))))
        else err (ErrDefNotHandled bd)
    | Uint =>
        if inRange 0x00 0x7f bd
        then lift (SetUint rv (uint64 (b2z bd)))
        else err (ErrDefNotHandled bd)
    | _ => err (ErrDefNotHandled bd)
    end.

(** The raw-bytes branch of [case reflect.Slice, reflect.Array,
    reflect.String]. *)
Definition storeBytes (v : value) (bs : list byte) : value :=
  match v with
  | VSlice e (Some (b, n)) =>
      VSlice e (Some (map valueOfByte bs ++ skipn (length bs) b, n))
  | _ => v
  end.

Definition decodeRawBytes (containerLen : Z) (rv : hval) : M value :=
  let v := fst rv in
  let isString := Kind_eqb (kindOf v) String in
  let isByteSlice := isByteSliceTyp (typeOf v) in
  let bs := if isByteSlice then Bytes v else [] in
  '(bs, v) <- (if Z.of_nat (length bs) <? containerLen then
                 let bs := repeat x00 (Z.to_nat containerLen) in
                 if isByteSlice then
                   v' <- lift (rSet rv (Some (VSlice (TUint W8)
                             (Some (map valueOfByte bs, length bs))))) ;;
                   ret (bs, v')
                 else ret (bs, v)
               else if containerLen <? Z.of_nat (length bs) then
                 ret (firstn (Z.to_nat containerLen) bs, v)
               else ret (bs, v)) ;;
  bs <- readb containerLen bs ;;
  let v := if isByteSlice then storeBytes v bs else v in
  if isString then lift (SetString (v, snd rv) bs) else ret v.

(** One round of the element loop of a slice or array. *)
Definition decodeElem (cs : bool) (rvelemtype : ty) (j : Z) (rv : value)
  : M value :=
  rvj <- lift (Index (rv, cs) j) ;;
  if isIntfTyp rvelemtype && IsNil (fst rvj) then
    n <- nilIntfDecode x00 (-1) true false rvj ;;
    if negb (nhandled n) then
      resolve <- getDam ;;
      rvj2 <- lift (resolve (Some rv) (PKindex j) (nlen n) (nct n)) ;;
      match rvj2 with
      | Some rvj2 =>
          '(_, rvn) <- decodeValueT_ (nbd n) (nlen n) false rvj2
                         false true false ;;
          x <- lift (rSet (nslot n, snd rvj) rvn) ;;
          ret (setIndex rv j x)
      | None =>
          '(x, _) <- decodeValueT_ (nbd n) (nlen n) false (nslot n, snd rvj)
                       true true true ;;
          ret (setIndex rv j x)
      end
    else ret (setIndex rv j (nslot n))
  else
    '(x, _) <- decodeValueT_ x00 (-1) true rvj true true true ;;
    ret (setIndex rv j x).

(** [rv.Index(j).Set(reflect.Zero(rvelemtype))] *)
Definition zeroElem (cs : bool) (rvelemtype : ty) (j : Z) (rv : value)
  : M value :=
  rvj <- lift (Index (rv, cs) j) ;;
  x <- lift (rSet rvj (Some (zero rvelemtype))) ;;
  ret (setIndex rv j x).

(** [reflect.Copy(rv2, rv)] into a fresh backing array [rv2]. *)
Definition copyInto (rv2 : list value) (b : list value) (n : nat)
  : list value :=
  firstn n b ++ skipn n rv2.

(** The sequence branch of [case reflect.Slice, reflect.Array,
    reflect.String]: sizing the destination, then the element loop. *)
Definition sizeList (containerLen : Z) (rv : hval) : M value :=
  let v := fst rv in
  let rvlen := Len v in
  match v with
  | VArray e _ =>
      if rvlen <? containerLen then err (ErrArrayLen rvlen containerLen)
      else if containerLen <? rvlen then
        forM (Z.to_nat (rvlen - containerLen)) containerLen
          (zeroElem (snd rv) e) v
      else ret v
  | VSlice e None =>
      lift (rSet rv (Some (makeSlice e containerLen)))
  | VSlice e (Some (b, n)) =>
      if rvlen <? containerLen then
        if Cap v <? containerLen then
          let rv2 := repeat (zero e) (Z.to_nat containerLen) in
          let rv2 := if 0 <? rvlen then copyInto rv2 b n else rv2 in
          lift (rSet rv (Some (VSlice e (Some (rv2, Z.to_nat containerLen)))))
        else lift (SetLen rv containerLen)
      else ret v
  | _ => ret v
  end.

Definition decodeList (containerLen : Z) (rv : hval) : M value :=
  let rvelemtype := match tyElem (typeOf (fst rv)) with
                    | Some e => e
                    | None => TInterface
                    end in
  v <- sizeList containerLen rv ;;
  forM (Z.to_nat containerLen) 0 (decodeElem (snd rv) rvelemtype) v.

(** [case reflect.Slice, reflect.Array, reflect.String]. *)
Definition decodeSeq (bd : byte) (containerLen : Z) (rv : hval) : M value :=
  let v := fst rv in
  let isString := Kind_eqb (kindOf v) String in
  let isByteSlice := isByteSliceTyp (typeOf v) in
  let rawbytes := isString || isByteSlice in
  containerLen <- (if containerLen <? 0 then
                     if rawbytes
                     then readContainerLen bd false ContainerRawBytes
                     else readContainerLen bd false ContainerList
                   else ret containerLen) ;;
  if containerLen =? 0 then ret v
  else if rawbytes then decodeRawBytes containerLen rv
  else if isString then err ErrStringsRaw
  else decodeList containerLen rv.

(** Modelled from the spec: [getStructFieldInfos(rvtype).getForEncName] and
    [field] belong to the field mapper, which is outside decode.go (section
    6); a record carries its fields under their wire names. *)
Fixpoint getForEncName (fs : list (list byte * value)) (name : list byte)
  : option value :=
  match fs with
  | [] => None
  | (n, v) :: fs' => if bytes_eqb n name then Some v else getForEncName fs' name
  end.

Fixpoint setField (fs : list (list byte * value)) (name : list byte)
    (x : value) : list (list byte * value) :=
  match fs with
  | [] => []
  | (n, v) :: fs' =>
      if bytes_eqb n name then (n, x) :: fs' else (n, v) :: setField fs' name x
  end.

(** One round of the field loop of a record. *)
Definition decodeField (cs : bool) (j : Z) (rv : value) : M value :=
  '(_, rvk, _) <- dv x00 (-1) true (VString [], true) ;;
  let rvkencname := match rvk with VString s => s | _ => [] end in
  match rv with
  | VStruct fs =>
      match getForEncName fs rvkencname with
      | None => err (ErrInvalidEncField rvkencname)
      | Some f =>
          '(x, _) <- decodeValueT_ x00 (-1) true (f, cs) true true true ;;
          ret (VStruct (setField fs rvkencname x))
      end
  | _ => err (ErrReflect WrongKind)
  end.

(** [case reflect.Struct]. *)
Definition decodeStruct (bd : byte) (containerLen : Z) (rv : hval) : M value :=
  let v := fst rv in
  if isTimeTyp (typeOf v) then
    '(_, tm, _) <- dv bd (-1) false
                     (VArray (TInt W64) [VInt W64 0; VInt W64 0], true) ;;
    match tm with
    | VArray _ [VInt _ sec; VInt _ nsec] =>
        lift (rSet rv (Some (VTime (Some (timeUnix sec nsec)))))
    | _ => err (ErrReflect WrongKind)
    end
  else
    containerLen <- (if containerLen <? 0
                     then readContainerLen bd false ContainerMap
                     else ret containerLen) ;;
    if containerLen =? 0 then ret v
    else forM (Z.to_nat containerLen) 0 (decodeField (snd rv)) v.

(** The key of a map whose key type is [interface{}]: a byte slice becomes a
    string. *)
Definition coerceKey (ktype : ty) (rvk : value) : value :=
  if isIntfTyp ktype && isByteSliceTyp (typeOf rvk)
  then VString (Bytes rvk)
  else rvk.

(** One round of the pair loop of a map. *)
Definition decodeEntry (j : Z) (rv : value) : M value :=
  match rv with
  | VMap ktype vtype (Some m) =>
      '(_, rvk) <- decodeValueT_ x00 (-1) true (zero ktype, true)
                     true true false ;;
      match rvk with
      | None => err (ErrReflect ZeroValue)
      | Some rvk =>
          let rvk := coerceKey ktype rvk in
          let key := assign (zero ktype) rvk in
          if negb (hashable key) then err (ErrReflect Unhashable)
          else
            let rvv : hval := match mapLookup m key with
                              | Some x => (x, false)
                              | None => (zero vtype, true)
                              end in
            rvv <- (if isIntfTyp vtype && IsNil (fst rvv) then
                      n <- nilIntfDecode x00 (-1) true false rvv ;;
                      if negb (nhandled n) then
                        resolve <- getDam ;;
                        rvv2 <- lift (resolve (Some rv) (PKkey rvk)
                                        (nlen n) (nct n)) ;;
                        match rvv2 with
                        | Some rvv2 =>
                            '(_, rvn) <- decodeValueT_ (nbd n) (nlen n) false
                                           rvv2 false true false ;;
                            x <- lift (rSet (nslot n, snd rvv) rvn) ;;
                            ret (Some x)
                        | None =>
                            '(x, _) <- decodeValueT_ (nbd n) (nlen n) false
                                         (nslot n, snd rvv) true true false ;;
                            ret (Some x)
                        end
                      else ret (Some (nslot n))
                    else
                      '(_, rvn) <- decodeValueT_ x00 (-1) true rvv
                                     true true false ;;
                      ret rvn) ;;
            ret (VMap ktype vtype
                   (Some (match rvv with
                          | Some x => mapStore m key (assign (zero vtype) x)
                          | None => mapDelete m key
                          end)))
      end
  | _ => err (ErrReflect WrongKind)
  end.

(** [case reflect.Map]. *)
Definition decodeMap (bd : byte) (containerLen : Z) (rv : hval) : M value :=
  let v := fst rv in
  containerLen <- (if containerLen <? 0
                   then readContainerLen bd false ContainerMap
                   else ret containerLen) ;;
  if containerLen =? 0 then ret v
  else
    v <- match v with
         | VMap ktype vtype None =>
             lift (rSet rv (Some (VMap ktype vtype (Some []))))
         | _ => ret v
         end ;;
    forM (Z.to_nat containerLen) 0 decodeEntry v.

(** [decodeValue] from [if bd == 0xc0] on: the result is the content of [rv]
    after the decode. *)
Definition decodeKind (bd : byte) (containerLen : Z) (rv : hval) : M value :=
  if byte_eqb bd xc0 then lift (rSet rv (Some (zero (typeOf (fst rv)))))
  else
    match kindOf (fst rv) with
    | Ptr | Interface => decodePtr bd containerLen rv
    | Bool | Int | Uint | Float32 | Float64 => decodeScalar bd rv
    | Slice | Array | String => decodeSeq bd containerLen rv
    | Struct => decodeStruct bd containerLen rv
    | Map => decodeMap bd containerLen rv
    | Invalid => ret (fst rv)
    end.

Definition decodeValue_ (bd : byte) (containerLen : Z) (readDesc : bool)
    (rv0 : hval) : M (bool * value * option hval) :=
  bd <- readDescByte bd readDesc ;;
  let wasNilIntf := Kind_eqb (kindOf (fst rv0)) Interface && IsNil (fst rv0) in
  if wasNilIntf then
    n <- nilIntfDecode bd containerLen false true rv0 ;;
    if nhandled n then ret (true, nslot n, Some (nslot n, snd rv0))
    else if nelem n then
      match Elem (nslot n) with
      | Some e =>
          x <- decodeKind (nbd n) (nlen n) (e, false) ;;
          ret (true, VIntf (Some x), Some (x, false))
      | None =>
          if byte_eqb (nbd n) xc0 then err (ErrReflect ZeroValue)
          else ret (true, nslot n, None)
      end
    else
      x <- decodeKind (nbd n) (nlen n) (nslot n, snd rv0) ;;
      ret (true, x, Some (x, snd rv0))
  else
    x <- decodeKind bd containerLen rv0 ;;
    ret (false, x, Some (x, snd rv0)).

End Body.

(** [decodeValue]: the recursion of the Go function is bounded by [fuel]. *)
Fixpoint decodeValue (fuel : nat) : decoder :=
  match fuel with
  | O => fun _ _ _ _ => diverge
  | S fuel' => decodeValue_ (decodeValue fuel')
  end.

Definition decodeValueT (fuel : nat) := decodeValueT_ (decodeValue fuel).

(** ** The public surface *)

Definition NewDecoder (r0 : R) (dam0 : option Resolver) : Decoder :=
  match dam0 with
  | Some dam0 => mkDecoder r0 dam0
  | None => mkDecoder r0 (DecoderContainer DefaultDecoderContainerResolver)
  end.

(** What [DecodeValue] returns: [Decoded v] is a nil error with the pointer
    [v] as the decoder left it; [Failed] is a non-nil error. *)
Inductive derror :=
| ErrNotPointer          (* "Expecting valid pointer to decode into" *)
| ErrPanicked (e : perr). (* a panic turned into an error by panicToErr *)

Inductive decoded :=
| Decoded (v : value)
| Failed (e : derror)
| Unfinished.

(** Modelled from the spec: [panicToErr] is declared outside decode.go; it
    turns the panic that aborted the decode into the returned error (section
    7).  The argument is the [reflect.Value] of the destination. *)
Definition DecodeValue (fuel : nat) (rv : value) (d : Decoder)
  : decoded * Decoder :=
  match rv with
  | VPtr e (Some x) =>
      match decodeValueT fuel x00 (-1) true (x, true) true true true d with
      | (Ok (x', _), d') => (Decoded (VPtr e (Some x')), d')
      | (Panic p, d') => (Failed (ErrPanicked p), d')
      | (OutOfFuel, d') => (Unfinished, d')
      end
  | _ => (Failed ErrNotPointer, d)
  end.

(** Modelled from the spec: [reflectValue] is declared outside decode.go; it
    is taken to hand [DecodeValue] the [reflect.Value] of its argument. *)
Definition Decode (fuel : nat) (v : value) (d : Decoder) : decoded * Decoder :=
  DecodeValue fuel v d.

End Decoder.

(** ** Decoding from a byte buffer *)

(** [bytes.Buffer.Read]: the next [k] bytes or what is left of the buffer;
    [io.EOF] when a non-empty read finds the buffer drained. *)
Definition bufRead (buf : list byte) (k : nat)
  : list byte * option ioerr * list byte :=
  match buf, k with
  | [], S _ => ([], Some EOF, [])
  | _, _ => (firstn k buf, None, skipn k buf)
  end.

Section Buffer.

Variable float32to64 : Z -> Z.
Variable float64to32 : Z -> Z.

Definition Unmarshal (fuel : nat) (data : list byte) (v : value)
    (dam0 : option Resolver) : decoded :=
  fst (Decode bufRead float32to64 float64to32 fuel v
         (NewDecoder data dam0)).

End Buffer.

(** ** Vocabulary of the properties *)

(** The tags the scalar branch of [decodeValue] knows besides the fixnums:
    nil, the booleans, the floats and the sized integers. *)
Definition scalarTag (bd : byte) : bool :=
  existsb (byte_eqb bd)
    [xc0; xc2; xc3; xca; xcb; xcc; xcd; xce; xcf; xd0; xd1; xd2; xd3].

(** The tags of each container category in the wire format. *)
Definition isRawTag (bd : byte) : bool :=
  byte_eqb bd xda || byte_eqb bd xdb || inRange 0xa0 0xbf bd.
Definition isListTag (bd : byte) : bool :=
  byte_eqb bd xdc || byte_eqb bd xdd || inRange 0x90 0x9f bd.
Definition isMapTag (bd : byte) : bool :=
  byte_eqb bd xde || byte_eqb bd xdf || inRange 0x80 0x8f bd.
Definition isTagOf (ct : ContainerType) (bd : byte) : bool :=
  match ct with
  | ContainerRawBytes => isRawTag bd
  | ContainerList => isListTag bd
  | ContainerMap => isMapTag bd
  | ContainerUnset => false
  end.

(** The three wire forms of a container length. *)
Definition lenInline (inlineMask : byte) (L : Z) : list byte :=
  [z2b (Z.lor (b2z inlineMask) L)].
Definition len16 (tag16 : byte) (L : Z) : list byte :=
  [tag16; z2b (Z.shiftr L 8); z2b L].
Definition len32 (tag32 : byte) (L : Z) : list byte :=
  [tag32; z2b (Z.shiftr L 24); z2b (Z.shiftr L 16); z2b (Z.shiftr L 8); z2b L].

(** The destinations that take a container of category [ct]: strings and
    byte slices take raw bytes, other slices and arrays take sequences, maps
    and records take maps, an unset open/dynamic slot takes all three. *)
Definition takes (ct : ContainerType) (rv : value) : bool :=
  match rv, ct with
  | VString _, ContainerRawBytes => true
  | VSlice e _, ContainerRawBytes => isByteSliceTyp (TSlice e)
  | VSlice e _, ContainerList => negb (isByteSliceTyp (TSlice e))
  | VArray _ _, ContainerList => true
  | VMap _ _ _, ContainerMap => true
  | VStruct _, ContainerMap => true
  | VIntf None, (ContainerRawBytes | ContainerList | ContainerMap) => true
  | _, _ => false
  end.

(** A destination without the pointers and set interfaces around it. *)
Fixpoint bottom (rv : value) : value :=
  match rv with
  | VPtr _ (Some x) => bottom x
  | VIntf (Some x) => bottom x
  | _ => rv
  end.

(** The levels of [decodeValue] between a destination and the read of the
    container length. *)
Fixpoint wrappers (rv : value) : nat :=
  match rv with
  | VPtr _ (Some x) => S (wrappers x)
  | VIntf (Some x) => S (wrappers x)
  | VTime _ => 1
  | _ => 0
  end.

(** The destinations that take a container of category [ct], through
    pointers and set interfaces; a timestamp takes a sequence. *)
Definition takesAt (ct : ContainerType) (rv : value) : bool :=
  match bottom rv with
  | VTime _ => match ct with ContainerList => true | _ => false end
  | b => takes ct b
  end.

(** The destinations whose decode starts by settling a container length. *)
Definition isContainerKind (rv : value) : bool :=
  match rv with
  | VString _ | VSlice _ _ | VArray _ _ | VMap _ _ _ | VStruct _ => true
  | _ => false
  end.

(** The same, one pointer or set interface away. *)
Definition lenDriven (rv : value) : bool :=
  match rv with
  | VPtr _ (Some x) | VIntf (Some x) => isContainerKind x
  | _ => isContainerKind rv
  end.

(** Destinations on which the reserved tag 0xc1 is refused. *)
Definition refusesReserved (rv : value) : bool :=
  match rv with
  | VBool _ | VInt _ _ | VUint _ _ | VFloat32 _ | VFloat64 _
  | VString _ | VSlice _ _ | VArray _ _ | VIntf None => true
  | _ => false
  end.

(** [m'] gives every result [m] gives, running out of fuel apart. *)
Definition refines {R A : Type} (m m' : @M R A) : Prop :=
  forall d r d', m d = (r, d') -> r <> OutOfFuel -> m' d = (r, d').

(** The same for two versions of [decodeValue]. *)
Definition drefines {R : Type} (dv dv' : @decoder R) : Prop :=
  forall bd containerLen readDesc rv,
    refines (dv bd containerLen readDesc rv) (dv' bd containerLen readDesc rv).

(** The decode of one element of a slice, as the element loop of
    [decodeValue] does it: [old] is the content of slot [j] of the slice [rv]
    before the round, [x] its content after it, and the decoder goes from [d]
    to [d'].  A slot other than an unset open/dynamic slot is decoded in
    place, tag first.  An unset open/dynamic slot receives the scalar its tag
    announces; for a container tag it receives what is decoded into the
    container the resolver makes for the parent [rv] and the index [j], or,
    when the resolver makes none, what the slot itself decodes to. *)
Definition elemDecoded {R : Type}
    (Read : R -> nat -> list byte * option ioerr * R) (dv : @decoder R)
    (e : ty) (rv : value) (j : Z) (old x : value) (d d' : @Decoder R)
  : Prop :=
  if isIntfTyp e && IsNil old then
    exists n dn,
      nilIntfDecode Read x00 (-1) true false (old, true) d = (Ok n, dn) /\
      if nhandled n then x = nslot n /\ d' = dn
      else
        exists c,
          dam dn (Some rv) (PKindex j) (nlen n) (nct n) = Ok c /\
          match c with
          | Some c =>
              exists s rvn,
                decodeValueT_ dv (nbd n) (nlen n) false c false true false dn
                  = (Ok (s, rvn), d') /\
                rSet (nslot n, true) rvn = Ok x
          | None =>
              exists o,
                decodeValueT_ dv (nbd n) (nlen n) false (nslot n, true)
                  true true true dn = (Ok (x, o), d')
          end
  else
    exists o,
      decodeValueT_ dv x00 (-1) true (old, true) true true true d
        = (Ok (x, o), d').

(** [k] elements decoded one after the other into the slots [j], [j + 1],
    ... of the backing array [b] of a slice of length [len]: each round
    decodes the slot of its index from where the round before left the
    decoder, and stores the result at that index; [b'] and [d'] are the
    backing array and the decoder after the last round. *)
Fixpoint roundsDecoded {R : Type}
    (Read : R -> nat -> list byte * option ioerr * R) (dv : @decoder R)
    (e : ty) (len : nat) (k : nat) (j : Z) (b : list value)
    (d : @Decoder R) (b' : list value) (d' : @Decoder R) : Prop :=
  match k with
  | O => b' = b /\ d' = d
  | S k' =>
      exists x dj,
        elemDecoded Read dv e (VSlice e (Some (b, len))) j
          (nth (Z.to_nat j) b (VIntf None)) x d dj /\
        roundsDecoded Read dv e len k' (j + 1) (update b (Z.to_nat j) x) dj
          b' d'
  end.

(** The sized integer tags of [decodeValue] and [nilIntfDecode], with the
    width of the integer that follows the tag. *)
Definition sintTag (bd : byte) : option intw :=
  if byte_eqb bd xd0 then Some W8
  else if byte_eqb bd xd1 then Some W16
  else if byte_eqb bd xd2 then Some W32
  else if byte_eqb bd xd3 then Some W64
  else None.

Definition uintTag (bd : byte) : option intw :=
  if byte_eqb bd xcc then Some W8
  else if byte_eqb bd xcd then Some W16
  else if byte_eqb bd xce then Some W32
  else if byte_eqb bd xcf then Some W64
  else None.

(** The number of bytes of an integer of width [w]. *)
Definition octets (w : intw) : nat := Z.to_nat (bits w / 8).

(** The tags no case of [nilIntfDecode] takes. *)
Definition unassignedTag (bd : byte) : bool :=
  byte_eqb bd xc1 || inRange 0xc4 0xc9 bd || inRange 0xd4 0xd9 bd.

(** The scalar destinations. *)
Definition isScalarKind (rv : value) : bool :=
  match rv with
  | VBool _ | VInt _ _ | VUint _ _ | VFloat32 _ | VFloat64 _ => true
  | _ => false
  end.

(** A scalar, or an open/dynamic slot that holds one. *)
Definition holdsScalar (rv : value) : bool :=
  match rv with
  | VIntf (Some c) => isScalarKind c
  | _ => isScalarKind rv
  end.

(** The entries of a map, none for a nil map. *)
Definition entries (rv : value) : list (value * value) :=
  match rv with
  | VMap _ _ (Some m) => m
  | _ => []
  end.

(** The value [x] behind pointers of the types [ts], outermost first. *)
Fixpoint pointersTo (ts : list ty) (x : value) : value :=
  match ts with
  | [] => x
  | t :: ts' => VPtr t (Some (pointersTo ts' x))
  end.

(** A decoder over a byte buffer with [rest] appended to what is left of the
    buffer. *)
Definition extend (rest : list byte) (d : @Decoder (list byte))
  : @Decoder (list byte) :=
  mkDecoder (r d ++ rest) (dam d).

(** [m] looks at no byte beyond the ones it consumes: a run that succeeds
    succeeds alike, and leaves [rest] behind, when [rest] is appended to the
    buffer. *)
Definition framed {A : Type} (m : @M (list byte) A) : Prop :=
  forall rest d a d',
    m d = (Ok a, d') -> m (extend rest d) = (Ok a, extend rest d').

(** The same for [decodeValue]. *)
Definition dframed (dv : @decoder (list byte)) : Prop :=
  forall bd containerLen readDesc rv, framed (dv bd containerLen readDesc rv).


(** ** Fixtures of the concrete decodes *)

(** A reader that plays back a script of [Read] results, one per call. *)
Definition scriptRead (s : list (list byte * option ioerr)) (k : nat)
  : list byte * option ioerr * list (list byte * option ioerr) :=
  match s with
  | [] => ([], Some EOF, [])
  | (data, e) :: s' => (data, e, s')
  end.

(** The concrete decodes below read no float; the conversions are left as
    the identity on bit patterns there. *)
Definition floatId (u : Z) : Z := u.

Definition defaultDam : Resolver :=
  DecoderContainer DefaultDecoderContainerResolver.

Definition ints (l : list Z) : list value := map (VInt W0) l.

Definition intSlice (l : list Z) (n : nat) : value :=
  VSlice (TInt W0) (Some (ints l, n)).

Definition intArray (l : list Z) : value := VArray (TInt W0) (ints l).

Definition nilIntMap : value := VMap (TInt W0) (TInt W0) None.

(** 65 pairs [k: 0] of fixnums, [k] from 0 to 64. *)
Definition fixmap65 : list byte :=
  flat_map (fun k => [z2b (Z.of_nat k); x00]) (seq 0 65).


(** A decoder on a byte buffer, with the default resolver. *)
Definition onBuffer (data : list byte) : @Decoder (list byte) :=
  mkDecoder data defaultDam.

(** Resolvers that keep raw bytes as byte slices in slice elements, and in
    map values. *)
Definition bytesElement : SimpleDecoderContainerResolver :=
  mkSimple None None true false true.
Definition bytesMapValue : SimpleDecoderContainerResolver :=
  mkSimple None None true true false.

(** * Properties *)

(** ** Bytes and big-endian integers *)

Lemma b2z_range (b : byte) : 0 <= b2z b < 256.
Proof. destruct b; split; now cbv. Qed.


Lemma byte_eqb_true (a b : byte) : byte_eqb a b = true -> a = b.
Proof. apply Byte.byte_dec_bl. Qed.

Lemma byte_eqb_refl (a : byte) : byte_eqb a a = true.
Proof. now apply Byte.byte_dec_lb. Qed.

Lemma byte_eqb_neq (a b : byte) : a <> b -> byte_eqb a b = false.
Proof.
  intros H. destruct (byte_eqb a b) eqn:E; [|reflexivity].
  now apply byte_eqb_true in E.
Qed.

Lemma land_shifted_byte (a b : Z) : 0 <= b < 256 -> Z.land (a * 2 ^ 8) b = 0.
Proof.
  intros Hb. apply Z.bits_inj'. intros n Hn.
  rewrite Z.land_spec, Z.bits_0.
  destruct (Z.lt_ge_cases n 8) as [Hlt | Hge].
  - now rewrite Z.mul_pow2_bits_low.
  - destruct (Z.eq_dec b 0) as [-> | Hnz].
    + now rewrite Z.bits_0, andb_false_r.
    + rewrite (Z.bits_above_log2 b n), andb_false_r; [reflexivity | lia |].
      apply Z.lt_le_trans with 8; [|exact Hge].
      apply Z.log2_lt_pow2; lia.
Qed.

Lemma lor_shiftl_byte (a b : Z) :
  0 <= b < 256 -> Z.lor (Z.shiftl a 8) b = a * 256 + b.
Proof.
  intros Hb. rewrite Z.shiftl_mul_pow2 by lia.
  rewrite <- Z.lxor_lor by now apply land_shifted_byte.
  rewrite <- Z.add_nocarry_lxor by now apply land_shifted_byte.
  reflexivity.
Qed.

Lemma BigEndian_2 (b1 b0 : byte) :
  BigEndian [b1; b0] = 256 * b2z b1 + b2z b0.
Proof.
  cbv [BigEndian fold_left].
  pose proof (b2z_range b1). pose proof (b2z_range b0).
  rewrite !lor_shiftl_byte by lia. lia.
Qed.

Lemma BigEndian_4 (b3 b2 b1 b0 : byte) :
  BigEndian [b3; b2; b1; b0] =
  16777216 * b2z b3 + 65536 * b2z b2 + 256 * b2z b1 + b2z b0.
Proof.
  cbv [BigEndian fold_left].
  pose proof (b2z_range b3). pose proof (b2z_range b2).
  pose proof (b2z_range b1). pose proof (b2z_range b0).
  rewrite !lor_shiftl_byte by lia. lia.
Qed.

Lemma int_small (z : Z) : 0 <= z < 2 ^ 63 -> int z = z.
Proof.
  intros H. unfold int, wrapS. change (64 - 1) with 63.
  rewrite Z.mod_small; lia.
Qed.

Lemma lxor_byte_range (a b : byte) : 0 <= Z.lxor (b2z a) (b2z b) < 256.
Proof.
  pose proof (b2z_range a) as Ha. pose proof (b2z_range b) as Hb.
  assert (Hnn : 0 <= Z.lxor (b2z a) (b2z b)) by (apply Z.lxor_nonneg; lia).
  split; [exact Hnn|].
  destruct (Z.eq_dec (Z.lxor (b2z a) (b2z b)) 0) as [-> | Hnz]; [lia|].
  apply (Z.log2_lt_pow2 _ 8); [lia|].
  eapply Z.le_lt_trans; [apply Z.log2_lxor; lia|].
  apply Z.max_lub_lt.
  - destruct (Z.eq_dec (b2z a) 0) as [-> | ?]; [now cbv|].
    apply Z.log2_lt_pow2; lia.
  - destruct (Z.eq_dec (b2z b) 0) as [-> | ?]; [now cbv|].
    apply Z.log2_lt_pow2; lia.
Qed.

(** ** More fuel never changes a result *)

Section Fuel.
Context {R : Type}.
Variable Read : R -> nat -> list byte * option ioerr * R.
Variables float32to64 float64to32 : Z -> Z.

Lemma refines_refl {A} (m : @M R A) : refines m m.
Proof. intros d r d' H _. exact H. Qed.

Lemma refines_bind {A B} (m m' : @M R A) (k k' : A -> @M R B) :
  refines m m' -> (forall a, refines (k a) (k' a)) ->
  refines (bind m k) (bind m' k').
Proof.
  intros Hm Hk d r d' H Hr. unfold bind in *.
  destruct (m d) as [[a|e|] d1] eqn:E.
  - rewrite (Hm _ _ _ E) by discriminate. now apply Hk.
  - rewrite (Hm _ _ _ E) by discriminate. exact H.
  - inversion H; subst. contradiction.
Qed.

Lemma refines_forM {St} (body body' : Z -> St -> @M R St) :
  (forall j s, refines (body j s) (body' j s)) ->
  forall n j s, refines (forM n j body s) (forM n j body' s).
Proof.
  intros Hb. induction n as [|n IH]; intros j s; simpl.
  - apply refines_refl.
  - apply refines_bind; [apply Hb|]. intros a. apply IH.
Qed.

Ltac mono_with tac :=
  cbv zeta;
  repeat first
    [ apply refines_refl
    | tac
    | match goal with
      | |- refines (bind _ _) (bind _ _) =>
          apply refines_bind; [|intros ?; cbv zeta]
      | |- refines (forM _ _ _ _) (forM _ _ _ _) =>
          apply refines_forM; intros ? ?
      | H : drefines _ _ |- refines (_ _ _ _ _) (_ _ _ _ _) => apply H
      | |- refines (if ?c then _ else _) (if ?c then _ else _) => destruct c
      | |- refines (match ?x with _ => _ end) (match ?x with _ => _ end) =>
          destruct x
      end ].

Ltac mono := mono_with fail.

Section Mono.
Variables dv dv' : @decoder R.
Hypothesis Hdv : drefines dv dv'.

Lemma decodeValueT__mono bd cl rd rve c1 c2 c3 :
  refines (decodeValueT_ dv bd cl rd rve c1 c2 c3)
          (decodeValueT_ dv' bd cl rd rve c1 c2 c3).
Proof. unfold decodeValueT_. mono. Qed.

Lemma decodePtr_mono bd cl rv :
  refines (decodePtr dv bd cl rv) (decodePtr dv' bd cl rv).
Proof. unfold decodePtr. mono. Qed.

Lemma decodeElem_mono cs t j rv :
  refines (decodeElem Read dv cs t j rv) (decodeElem Read dv' cs t j rv).
Proof.
  unfold decodeElem. mono_with ltac:(apply decodeValueT__mono).
Qed.

Lemma decodeSeq_mono bd cl rv :
  refines (decodeSeq Read dv bd cl rv) (decodeSeq Read dv' bd cl rv).
Proof.
  unfold decodeSeq, decodeList. mono_with ltac:(apply decodeElem_mono).
Qed.

Lemma decodeField_mono cs j rv :
  refines (decodeField dv cs j rv) (decodeField dv' cs j rv).
Proof.
  unfold decodeField. mono_with ltac:(apply decodeValueT__mono).
Qed.

Lemma decodeStruct_mono bd cl rv :
  refines (decodeStruct Read dv bd cl rv) (decodeStruct Read dv' bd cl rv).
Proof.
  unfold decodeStruct. mono_with ltac:(apply decodeField_mono).
Qed.

Lemma decodeEntry_mono j rv :
  refines (decodeEntry Read dv j rv) (decodeEntry Read dv' j rv).
Proof.
  unfold decodeEntry. mono_with ltac:(apply decodeValueT__mono).
Qed.

Lemma decodeMap_mono bd cl rv :
  refines (decodeMap Read dv bd cl rv) (decodeMap Read dv' bd cl rv).
Proof.
  unfold decodeMap. mono_with ltac:(apply decodeEntry_mono).
Qed.

Lemma decodeKind_mono bd cl rv :
  refines (decodeKind Read float32to64 float64to32 dv bd cl rv)
          (decodeKind Read float32to64 float64to32 dv' bd cl rv).
Proof.
  unfold decodeKind.
  mono_with ltac:(first [ apply decodePtr_mono | apply decodeSeq_mono
                         | apply decodeStruct_mono | apply decodeMap_mono ]).
Qed.

Lemma decodeValue__mono :
  drefines (decodeValue_ Read float32to64 float64to32 dv)
           (decodeValue_ Read float32to64 float64to32 dv').
Proof.
  intros bd cl rd rv. unfold decodeValue_.
  mono_with ltac:(apply decodeKind_mono).
Qed.

End Mono.

Lemma decodeValue_fuel_step fuel :
  drefines (decodeValue Read float32to64 float64to32 fuel)
           (decodeValue Read float32to64 float64to32 (S fuel)).
Proof.
  induction fuel as [|fuel IH].
  - intros bd cl rd rv d r d' H Hr. cbn in H. unfold diverge in H.
    inversion H; subst. contradiction.
  - change (decodeValue Read float32to64 float64to32 (S (S fuel)))
      with (decodeValue_ Read float32to64 float64to32
              (decodeValue Read float32to64 float64to32 (S fuel))).
    change (decodeValue Read float32to64 float64to32 (S fuel))
      with (decodeValue_ Read float32to64 float64to32
              (decodeValue Read float32to64 float64to32 fuel)) at 1.
    now apply decodeValue__mono.
Qed.

Lemma decodeValue_fuel_mono fuel fuel' :
  (fuel <= fuel')%nat ->
  drefines (decodeValue Read float32to64 float64to32 fuel)
           (decodeValue Read float32to64 float64to32 fuel').
Proof.
  induction 1 as [|fuel' _ IH].
  - intros bd cl rd rv. apply refines_refl.
  - intros bd cl rd rv d r d' H Hr.
    apply decodeValue_fuel_step; [|exact Hr]. now apply IH.
Qed.
End Fuel.

Lemma Unmarshal_fuel_mono (float32to64 float64to32 : Z -> Z)
      (fuel fuel' : nat) (data : list byte) (v : value)
      (dam0 : option Resolver) (res : decoded) :
  (fuel <= fuel')%nat ->
  Unmarshal float32to64 float64to32 fuel data v dam0 = res ->
  res <> Unfinished ->
  Unmarshal float32to64 float64to32 fuel' data v dam0 = res.
Proof.
  intros Hle H Hres. unfold Unmarshal, Decode, DecodeValue in *.
  destruct v as [| | | | | | | | |e [x|]| | |]; try exact H.
  unfold decodeValueT in *.
  destruct (decodeValueT_ (decodeValue bufRead float32to64 float64to32 fuel)
              x00 (-1) true (x, true) true true true (NewDecoder data dam0))
    as [r d'] eqn:E.
  assert (Hr : r <> OutOfFuel).
  { intros ->. cbn in H. subst res. now apply Hres. }
  pose proof (decodeValueT__mono _ _
           (decodeValue_fuel_mono bufRead float32to64 float64to32 _ _ Hle)
           x00 (-1) true (x, true) true true true _ _ _ E Hr) as E'.
  rewrite E'. exact H.
Qed.

(** ** Properties over an arbitrary reader *)

Section Properties.
Context {R : Type}.
Variable Read : R -> nat -> list byte * option ioerr * R.
Variables float32to64 float64to32 : Z -> Z.

(** *** The byte reader *)

Lemma rRead_length (r0 : R) (k : nat) data e r1 :
  rRead Read r0 k = (data, e, r1) -> (length data <= k)%nat.
Proof.
  unfold rRead. destruct (Read r0 k) as [[x y] z]. intros H.
  inversion H; subst. rewrite length_firstn. lia.
Qed.

Lemma readb_length numbytes bs (d d' : @Decoder R) bs' :
  readb Read numbytes bs d = (Ok bs', d') -> length bs' = length bs.
Proof.
  unfold readb.
  destruct (rRead Read (r d) (length bs)) as [[data e] r1] eqn:E1.
  pose proof (rRead_length _ _ _ _ _ E1) as L1.
  destruct e; [discriminate|].
  destruct (negb (Z.of_nat (length data) =? numbytes)).
  - destruct (rRead Read r1 (length (skipn (length data) bs)))
      as [[data2 e2] r2] eqn:E2.
    pose proof (rRead_length _ _ _ _ _ E2) as L2.
    rewrite length_skipn in L2.
    destruct e2; [discriminate|].
    destruct (negb _); [discriminate|].
    intros H; inversion H; subst. unfold overwrite.
    rewrite !length_app, !length_skipn. lia.
  - intros H; inversion H; subst. unfold overwrite.
    rewrite length_app, length_skipn. lia.
Qed.

Lemma readb_dam numbytes bs (d d' : @Decoder R) x :
  readb Read numbytes bs d = (x, d') -> dam d' = dam d.
Proof.
  unfold readb.
  destruct (rRead Read (r d) (length bs)) as [[data e] r1].
  destruct e; [intros H; inversion H; reflexivity|].
  destruct (negb (Z.of_nat (length data) =? numbytes)).
  - destruct (rRead Read r1 (length (skipn (length data) bs)))
      as [[data2 e2] r2].
    destruct e2; [intros H; inversion H; reflexivity|].
    destruct (negb _); intros H; inversion H; reflexivity.
  - intros H; inversion H; reflexivity.
Qed.

(** C9. [readb] fills a buffer of [numbytes] bytes with at most one retry.
    An error of the first [Read] is a panic of the read-fault class after
    that one call.  A first [Read] that returns all [numbytes] bytes gives
    the result after that one call, with no retry.  A first [Read] that
    returns fewer bytes is followed by exactly one more [Read], for the
    remainder of the buffer: its error, or a count other than the remainder,
    is a panic of the read-fault class; otherwise the two chunks together are
    the result.  At the public boundary a panic of the descriptor read, and
    any panic of the decode, comes back from [DecodeValue] as a returned
    error. *)
Theorem C9_readb_one_retry :
  forall (numbytes : Z) (bs : list byte) (d : @Decoder R) data1 e1 r1,
    Z.of_nat (length bs) = numbytes ->
    rRead Read (r d) (length bs) = (data1, e1, r1) ->
    (forall e, e1 = Some e ->
       readb Read numbytes bs d = (Panic (ErrRead e), setr d r1) /\
       faultOf (ErrRead e) = Some ReadFault) /\
    (e1 = None -> length data1 = length bs ->
       readb Read numbytes bs d = (Ok data1, setr d r1)) /\
    (e1 = None -> length data1 <> length bs ->
       forall data2 e2 r2,
         rRead Read r1 (length bs - length data1) = (data2, e2, r2) ->
         (forall e, e2 = Some e ->
            readb Read numbytes bs d = (Panic (ErrRead e), setr d r2)) /\
         (e2 = None -> length data2 = (length bs - length data1)%nat ->
            readb Read numbytes bs d = (Ok (data1 ++ data2), setr d r2)) /\
         (e2 = None -> length data2 <> (length bs - length data1)%nat ->
            readb Read numbytes bs d =
              (Panic (ErrReadShort numbytes
                        (Z.of_nat (length data1) + Z.of_nat (length data2))),
               setr d r2) /\
            faultOf (ErrReadShort numbytes
                       (Z.of_nat (length data1) + Z.of_nat (length data2)))
              = Some ReadFault)) /\
    (forall fuel e x p d',
       readb Read 1 (scratch 1) d = (Panic p, d') ->
       DecodeValue Read float32to64 float64to32 (S fuel) (VPtr e (Some x)) d
         = (Failed (ErrPanicked p), d')) /\
    (forall fuel e x p d',
       decodeValueT Read float32to64 float64to32 fuel x00 (-1) true
         (x, true) true true true d = (Panic p, d') ->
       DecodeValue Read float32to64 float64to32 fuel (VPtr e (Some x)) d
         = (Failed (ErrPanicked p), d')).
Proof.
  intros numbytes bs d data1 e1 r1 Hn E1.
  pose proof (rRead_length _ _ _ _ _ E1) as L1.
  split; [|split; [|split; [|split]]].
  - intros e ->. unfold readb. now rewrite E1.
  - intros -> Hfull. unfold readb. rewrite E1.
    replace (Z.of_nat (length data1) =? numbytes) with true
      by (symmetry; apply Z.eqb_eq; lia).
    simpl. unfold overwrite. rewrite skipn_all2 by lia.
    now rewrite app_nil_r.
  - intros -> Hshort data2 e2 r2 E2.
    pose proof (rRead_length _ _ _ _ _ E2) as L2.
    assert (Hgo : readb Read numbytes bs d =
      match e2 with
      | Some e => (Panic (ErrRead e), setr d r2)
      | None =>
          if negb (Z.of_nat (length data2) =? numbytes - Z.of_nat (length data1))
          then (Panic (ErrReadShort numbytes
                  (Z.of_nat (length data1) + Z.of_nat (length data2))),
                setr d r2)
          else (Ok (data1 ++ overwrite (skipn (length data1) bs) data2),
                setr d r2)
      end).
    { unfold readb. rewrite E1.
      replace (Z.of_nat (length data1) =? numbytes) with false
        by (symmetry; apply Z.eqb_neq; lia).
      simpl negb. cbv iota. rewrite length_skipn, E2. reflexivity. }
    split; [|split].
    + intros e ->. exact Hgo.
    + intros -> Hlen. rewrite Hgo.
      replace (Z.of_nat (length data2) =? numbytes - Z.of_nat (length data1))
        with true by (symmetry; apply Z.eqb_eq; lia).
      simpl. unfold overwrite.
      rewrite skipn_all2 by (rewrite length_skipn; lia).
      now rewrite app_nil_r.
    + intros -> Hlen. rewrite Hgo.
      replace (Z.of_nat (length data2) =? numbytes - Z.of_nat (length data1))
        with false by (symmetry; apply Z.eqb_neq; lia).
      split; reflexivity.
  - intros fuel e x p d' H. unfold DecodeValue, decodeValueT, decodeValueT_.
    unfold bind at 1. simpl decodeValue. unfold decodeValue_ at 1.
    unfold bind at 1. unfold readDescByte. unfold bind at 1.
    rewrite H. reflexivity.
  - intros fuel e x p d' H. unfold DecodeValue. now rewrite H.
Qed.
(** *** The container length codec *)

Lemma readb_2 (d d' : @Decoder R) bs :
  readb Read 2 (scratch 2) d = (Ok bs, d') -> exists hi lo, bs = [hi; lo].
Proof.
  intros H. apply readb_length in H.
  destruct bs as [|hi [|lo [|]]]; try discriminate. now exists hi, lo.
Qed.

Lemma readb_4 (d d' : @Decoder R) bs :
  readb Read 4 (scratch 4) d = (Ok bs, d') ->
  exists b3 b2 b1 b0, bs = [b3; b2; b1; b0].
Proof.
  intros H. apply readb_length in H.
  destruct bs as [|b3 [|b2 [|b1 [|b0 [|]]]]]; try discriminate.
  now exists b3, b2, b1, b0.
Qed.

(** C4. [readContainerLen] with the descriptor in hand decides in this order:
    the category's 16-bit tag means the next two bytes, big-endian; else the
    32-bit tag means the next four bytes, big-endian; else a tag that
    contains the inline mask means the tag xor the mask, and no byte is
    read; any other tag is a panic of the format-fault class, and no byte is
    read.  A failed read of the length bytes is passed on. *)
Theorem C4_readContainerLen_order :
  forall (bd : byte) (ct : ContainerType) (cutoff : Z)
         (inlineMask tag16 tag32 : byte) (d : @Decoder R),
    getContainerByteDesc ct = Ok (cutoff, inlineMask, tag16, tag32) ->
    (bd = tag16 ->
       (forall bs d', readb Read 2 (scratch 2) d = (Ok bs, d') ->
          exists hi lo, bs = [hi; lo] /\
            readContainerLen Read bd false ct d
              = (Ok (256 * b2z hi + b2z lo), d')) /\
       (forall e d', readb Read 2 (scratch 2) d = (Panic e, d') ->
          readContainerLen Read bd false ct d = (Panic e, d'))) /\
    (bd <> tag16 -> bd = tag32 ->
       (forall bs d', readb Read 4 (scratch 4) d = (Ok bs, d') ->
          exists b3 b2 b1 b0, bs = [b3; b2; b1; b0] /\
            readContainerLen Read bd false ct d
              = (Ok (16777216 * b2z b3 + 65536 * b2z b2
                     + 256 * b2z b1 + b2z b0), d')) /\
       (forall e d', readb Read 4 (scratch 4) d = (Panic e, d') ->
          readContainerLen Read bd false ct d = (Panic e, d'))) /\
    (bd <> tag16 -> bd <> tag32 ->
       Z.land (b2z inlineMask) (b2z bd) = b2z inlineMask ->
       readContainerLen Read bd false ct d
         = (Ok (Z.lxor (b2z inlineMask) (b2z bd)), d)) /\
    (bd <> tag16 -> bd <> tag32 ->
       Z.land (b2z inlineMask) (b2z bd) <> b2z inlineMask ->
       readContainerLen Read bd false ct d = (Panic (ErrContainerLen bd), d) /\
       faultOf (ErrContainerLen bd) = Some FormatFault).
Proof.
  intros bd ct cutoff mask tag16 tag32 d Hdesc.
  assert (Hunf : readContainerLen Read bd false ct d =
    if byte_eqb bd tag16 then
      match readb Read 2 (scratch 2) d with
      | (Ok bs, d') => (Ok (int (BigEndian bs)), d')
      | (Panic e, d') => (Panic e, d')
      | (OutOfFuel, d') => (OutOfFuel, d')
      end
    else if byte_eqb bd tag32 then
      match readb Read 4 (scratch 4) d with
      | (Ok bs, d') => (Ok (int (BigEndian bs)), d')
      | (Panic e, d') => (Panic e, d')
      | (OutOfFuel, d') => (OutOfFuel, d')
      end
    else if Z.land (b2z mask) (b2z bd) =? b2z mask then
      (Ok (int (Z.lxor (b2z mask) (b2z bd))), d)
    else (Panic (ErrContainerLen bd), d)).
  { unfold readContainerLen, readDescByte, bind, lift, ret, err.
    rewrite Hdesc.
    destruct (byte_eqb bd tag16).
    - unfold readUint16, bind, ret.
      destruct (readb Read 2 (scratch 2) d) as [[bs|e|] d']; reflexivity.
    - destruct (byte_eqb bd tag32).
      + unfold readUint32, bind, ret.
        destruct (readb Read 4 (scratch 4) d) as [[bs|e|] d']; reflexivity.
      + destruct (Z.land (b2z mask) (b2z bd) =? b2z mask); reflexivity. }
  split; [|split; [|split]].
  - intros ->. rewrite Hunf, byte_eqb_refl. split.
    + intros bs d' Hr. destruct (readb_2 _ _ _ Hr) as (hi & lo & ->).
      exists hi, lo. split; [reflexivity|]. rewrite Hr, BigEndian_2.
      pose proof (b2z_range hi). pose proof (b2z_range lo).
      rewrite int_small by lia. reflexivity.
    + intros e d' Hr. now rewrite Hr.
  - intros Hne ->. rewrite Hunf, (byte_eqb_neq _ _ Hne), byte_eqb_refl. split.
    + intros bs d' Hr.
      destruct (readb_4 _ _ _ Hr) as (b3 & b2 & b1 & b0 & ->).
      exists b3, b2, b1, b0. split; [reflexivity|]. rewrite Hr, BigEndian_4.
      pose proof (b2z_range b3). pose proof (b2z_range b2).
      pose proof (b2z_range b1). pose proof (b2z_range b0).
      rewrite int_small by lia. reflexivity.
    + intros e d' Hr. now rewrite Hr.
  - intros Hne1 Hne2 Hmask.
    rewrite Hunf, (byte_eqb_neq _ _ Hne1), (byte_eqb_neq _ _ Hne2).
    apply Z.eqb_eq in Hmask. rewrite Hmask.
    pose proof (lxor_byte_range mask bd).
    rewrite int_small by lia. reflexivity.
  - intros Hne1 Hne2 Hmask.
    rewrite Hunf, (byte_eqb_neq _ _ Hne1), (byte_eqb_neq _ _ Hne2).
    apply Z.eqb_neq in Hmask. rewrite Hmask. split; reflexivity.
Qed.

(** *** Scalar destinations and the nil tag *)

Local Abbreviation decodeValue' := (decodeValue Read float32to64 float64to32).
Local Abbreviation decodeKind' := (decodeKind Read float32to64 float64to32).

Lemma decodeValue_typed fuel bd clen rv cs (d : @Decoder R) :
  Kind_eqb (kindOf rv) Interface && IsNil rv = false ->
  decodeValue' (S fuel) bd clen false (rv, cs) d =
  match decodeKind' (decodeValue' fuel) bd clen (rv, cs) d with
  | (Ok x, d') => (Ok (false, x, Some (x, cs)), d')
  | (Panic e, d') => (Panic e, d')
  | (OutOfFuel, d') => (OutOfFuel, d')
  end.
Proof.
  intros H. simpl decodeValue. unfold decodeValue_, readDescByte.
  unfold bind at 1. unfold ret at 1. cbn [fst snd]. rewrite H.
  unfold bind, ret.
  destruct (decodeKind' _ bd clen (rv, cs) d) as [[x|e|] d']; reflexivity.
Qed.

(** C5. The fixnum fallback follows the signedness of the destination.  Into
    a signed integer of any width a tag in 0x00-0x7f or 0xe0-0xff stores the
    tag as a signed 8-bit value, between -32 and 127.  Into an unsigned
    integer of any width a tag in 0x00-0x7f stores 0-127 and a tag in
    0xe0-0xff is a format fault.  A tag that is neither one of the scalar
    tags (nil, booleans, floats, sized integers) nor a fixnum of the
    destination's signedness is a format fault. *)
Theorem C5_fixnum_fallback :
  forall (fuel : nat) (w : intw) (z clen : Z) (bd : byte) (d : @Decoder R),
    (inRange 0x00 0x7f bd || inRange 0xe0 0xff bd = true ->
       decodeValue' (S fuel) bd clen false (VInt w z, true) d
         = (Ok (false, VInt w (int8 (b2z bd)),
                Some (VInt w (int8 (b2z bd)), true)), d) /\
       -32 <= int8 (b2z bd) <= 127) /\
    (inRange 0x00 0x7f bd = true ->
       decodeValue' (S fuel) bd clen false (VUint w z, true) d
         = (Ok (false, VUint w (b2z bd), Some (VUint w (b2z bd), true)), d) /\
       0 <= b2z bd <= 127) /\
    (inRange 0xe0 0xff bd = true ->
       decodeValue' (S fuel) bd clen false (VUint w z, true) d
         = (Panic (ErrDefNotHandled bd), d)) /\
    (scalarTag bd = false ->
     inRange 0x00 0x7f bd || inRange 0xe0 0xff bd = false ->
       decodeValue' (S fuel) bd clen false (VInt w z, true) d
         = (Panic (ErrDefNotHandled bd), d)) /\
    (scalarTag bd = false -> inRange 0x00 0x7f bd = false ->
       decodeValue' (S fuel) bd clen false (VUint w z, true) d
         = (Panic (ErrDefNotHandled bd), d)) /\
    faultOf (ErrDefNotHandled bd) = Some FormatFault.
Proof.
  intros fuel w z clen bd d.
  split; [|split; [|split; [|split; [|split]]]].
  - intros H. rewrite decodeValue_typed by reflexivity.
    destruct bd; vm_compute in H; try discriminate H;
      destruct w; (split; [reflexivity | now vm_compute]).
  - intros H. rewrite decodeValue_typed by reflexivity.
    destruct bd; vm_compute in H; try discriminate H;
      destruct w; (split; [reflexivity | now vm_compute]).
  - intros H. rewrite decodeValue_typed by reflexivity.
    destruct bd; vm_compute in H; try discriminate H; reflexivity.
  - intros H1 H2. rewrite decodeValue_typed by reflexivity.
    destruct bd; vm_compute in H1; try discriminate H1;
      vm_compute in H2; try discriminate H2; reflexivity.
  - intros H1 H2. rewrite decodeValue_typed by reflexivity.
    destruct bd; vm_compute in H1; try discriminate H1;
      vm_compute in H2; try discriminate H2; reflexivity.
  - reflexivity.
Qed.

Lemma assign_zero (rv : value) : assign rv (zero (typeOf rv)) = zero (typeOf rv).
Proof. destruct rv; reflexivity. Qed.

Lemma decodeValue_readDesc fuel b clen rv0 (d d1 : @Decoder R) bd :
  readb Read 1 (scratch 1) d = (Ok [bd], d1) ->
  decodeValue' (S fuel) b clen true rv0 d
  = decodeValue' (S fuel) bd clen false rv0 d1.
Proof.
  intros H. simpl decodeValue. unfold decodeValue_, readDescByte.
  unfold bind at 1. unfold bind at 1. rewrite H. reflexivity.
Qed.

(** C8. The tag 0xc0.  A settable destination that is not an unset
    open/dynamic slot is set to the zero value of its type, and nothing
    beyond the tag is read.  An unset open/dynamic slot stays nil: the result
    is the same for every resolver the decoder may carry, so the resolver is
    not consulted and no container is made; [DecodeValue] on a pointer to
    such a slot returns it nil. *)
Theorem C8_nil_tag :
  forall (fuel : nat) (clen : Z) (d : @Decoder R),
    (forall rv, Kind_eqb (kindOf rv) Interface && IsNil rv = false ->
       decodeValue' (S fuel) xc0 clen false (rv, true) d
         = (Ok (false, zero (typeOf rv), Some (zero (typeOf rv), true)), d)) /\
    (forall rv b d1, Kind_eqb (kindOf rv) Interface && IsNil rv = false ->
       readb Read 1 (scratch 1) d = (Ok [xc0], d1) ->
       decodeValue' (S fuel) b clen true (rv, true) d
         = (Ok (false, zero (typeOf rv), Some (zero (typeOf rv), true)), d1)) /\
    (forall cs,
       decodeValue' (S fuel) xc0 clen false (VIntf None, cs) d
         = (Ok (true, VIntf None, Some (VIntf None, cs)), d)) /\
    (forall cs b d1, readb Read 1 (scratch 1) d = (Ok [xc0], d1) ->
       decodeValue' (S fuel) b clen true (VIntf None, cs) d
         = (Ok (true, VIntf None, Some (VIntf None, cs)), d1)) /\
    (forall d1, readb Read 1 (scratch 1) d = (Ok [xc0], d1) ->
       DecodeValue Read float32to64 float64to32 (S fuel)
         (VPtr TInterface (Some (VIntf None))) d
         = (Decoded (VPtr TInterface (Some (VIntf None))), d1)).
Proof.
  intros fuel clen d.
  assert (Htyped : forall (d0 : @Decoder R) rv,
    Kind_eqb (kindOf rv) Interface && IsNil rv = false ->
    decodeValue' (S fuel) xc0 clen false (rv, true) d0
      = (Ok (false, zero (typeOf rv), Some (zero (typeOf rv), true)), d0)).
  { intros d0 rv H. rewrite decodeValue_typed by exact H.
    unfold decodeKind. cbn [byte_eqb Byte.eqb fst snd].
    unfold lift, rSet. cbn [fst snd]. now rewrite assign_zero. }
  assert (Hnil : forall (d0 : @Decoder R) cs clen0,
    decodeValue' (S fuel) xc0 clen0 false (VIntf None, cs) d0
      = (Ok (true, VIntf None, Some (VIntf None, cs)), d0)).
  { intros d0 cs clen0. reflexivity. }
  split; [|split; [|split; [|split]]].
  - apply Htyped.
  - intros rv b d1 H Hr. rewrite (decodeValue_readDesc _ _ _ _ _ _ _ Hr).
    now apply Htyped.
  - intros cs. apply Hnil.
  - intros cs b d1 Hr. rewrite (decodeValue_readDesc _ _ _ _ _ _ _ Hr).
    apply Hnil.
  - intros d1 Hr. unfold DecodeValue, decodeValueT, decodeValueT_.
    unfold bind at 1.
    rewrite (decodeValue_readDesc _ _ _ _ _ _ _ Hr), Hnil. reflexivity.
Qed.

Lemma empty_sequence_leaves_array :
  forall (fuel : nat) (e : ty) (l : list value) (cs : bool) (d : @Decoder R),
    decodeValue' (S fuel) x90 (-1) false (VArray e l, cs) d
      = (Ok (false, VArray e l, Some (VArray e l, cs)), d).
Proof. intros. reflexivity. Qed.

Lemma reserved_tag_length_map :
  forall (d : @Decoder R),
    readContainerLen Read xc1 false ContainerMap d = (Ok 65, d).
Proof. intros. reflexivity. Qed.

(** *** Loops over the elements of a sequence *)

(** Inversion of the monad. *)
Lemma bind_Ok {A B} (m : @M R A) (k : A -> @M R B) d b d' :
  bind m k d = (Ok b, d') ->
  exists a d1, m d = (Ok a, d1) /\ k a d1 = (Ok b, d').
Proof.
  unfold bind. destruct (m d) as [[a|e|] d1]; try discriminate.
  intros H. now exists a, d1.
Qed.

Lemma ret_Ok {A} (a b : A) (d d' : @Decoder R) :
  ret a d = (Ok b, d') -> a = b /\ d = d'.
Proof. unfold ret. intros H; inversion H; auto. Qed.

Lemma lift_Ok {A} (x : result A) (b : A) (d d' : @Decoder R) :
  lift x d = (Ok b, d') -> x = Ok b /\ d = d'.
Proof. unfold lift. intros H; inversion H; auto. Qed.

Ltac minv H :=
  repeat match type of H with
  | bind _ _ _ = (Ok _, _) =>
      let a := fresh "a" in let d1 := fresh "d" in let E := fresh "E" in
      apply bind_Ok in H; destruct H as (a & d1 & E & H)
  | ret _ _ = (Ok _, _) =>
      let E := fresh "E" in apply ret_Ok in H; destruct H as [E H]
  | lift _ _ = (Ok _, _) =>
      let E := fresh "E" in apply lift_Ok in H; destruct H as [E H]
  | err _ _ = (Ok _, _) => discriminate H
  | (if ?c then _ else _) _ = (Ok _, _) => destruct c eqn:?
  | (match ?c with _ => _ end) _ = (Ok _, _) => destruct c eqn:?
  end.

Lemma forM_inv {St} (I : Z -> St -> Prop) (body : Z -> St -> @M R St) :
  forall n j s d s' d',
    I j s ->
    (forall j0 s0 d0 s1 d1,
       j <= j0 < j + Z.of_nat n -> I j0 s0 ->
       body j0 s0 d0 = (Ok s1, d1) -> I (j0 + 1) s1) ->
    forM n j body s d = (Ok s', d') -> I (j + Z.of_nat n) s'.
Proof.
  induction n as [|n IH]; intros j s d s' d' Hinit Hstep H.
  - simpl in H. apply ret_Ok in H. destruct H as [<- _].
    now rewrite Z.add_0_r.
  - simpl forM in H. apply bind_Ok in H. destruct H as (s1 & d1 & E & H).
    replace (j + Z.of_nat (S n)) with ((j + 1) + Z.of_nat n) by lia.
    eapply IH; [| |exact H].
    + eapply Hstep; [|exact Hinit|exact E]. lia.
    + intros j0 s0 d0 s2 d2 Hj. apply Hstep. lia.
Qed.

Lemma length_update l j x : length (update l j x) = length l.
Proof.
  revert j; induction l as [|y l IH]; intros [|j]; simpl; auto.
Qed.

Lemma nth_error_update_other l j x i :
  i <> j -> nth_error (update l j x) i = nth_error l i.
Proof.
  revert j i; induction l as [|y l IH]; intros [|j] [|i] H; simpl; auto;
    try congruence.
Qed.

Lemma decodeElem_shape dv cs t j rv (d d' : @Decoder R) v' :
  decodeElem Read dv cs t j rv d = (Ok v', d') ->
  exists x, v' = setIndex rv j x.
Proof.
  intros H. unfold decodeElem in H. minv H; subst; eauto.
Qed.


Lemma sizeList_slice L e b n cs (d d' : @Decoder R) v :
  (n <= length b)%nat ->
  sizeList L (VSlice e (Some (b, n)), cs) d = (Ok v, d') ->
  d' = d /\
  exists b', v = VSlice e (Some (b', Nat.max n (Z.to_nat L))) /\
    (L <= Z.of_nat (length b) -> b' = b) /\
    (Z.of_nat (length b) < L -> length b' = Z.to_nat L).
Proof.
  intros Hwf H. unfold sizeList in H. cbn [fst snd Len Cap] in H.
  destruct (Z.of_nat n <? L) eqn:E1.
  - apply Z.ltb_lt in E1.
    destruct (Z.of_nat (length b) <? L) eqn:E2.
    + apply Z.ltb_lt in E2. apply lift_Ok in H. destruct H as [H ->].
      split; [reflexivity|]. unfold rSet in H. cbn [fst snd] in H.
      destruct cs; [|discriminate]. inversion H; subst; clear H.
      cbn [assign]. eexists. split; [|split].
      * f_equal. f_equal. f_equal. lia.
      * lia.
      * intros _. destruct (0 <? Z.of_nat n).
        -- unfold copyInto. rewrite length_app, length_firstn, length_skipn,
             repeat_length. lia.
        -- apply repeat_length.
    + apply Z.ltb_ge in E2. apply lift_Ok in H. destruct H as [H ->].
      split; [reflexivity|]. unfold SetLen in H. cbn [fst snd] in H.
      destruct cs; [|discriminate].
      destruct ((0 <=? L) && (L <=? Z.of_nat (length b))); [|discriminate].
      inversion H; subst; clear H. exists b. split; [|split].
      * f_equal. f_equal. f_equal. lia.
      * reflexivity.
      * lia.
  - apply Z.ltb_ge in E1. apply ret_Ok in H. destruct H as [<- ->].
    split; [reflexivity|]. exists b. split; [|split].
    + f_equal. f_equal. f_equal. lia.
    + reflexivity.
    + lia.
Qed.

Lemma forM_decodeElem_slice dv cs t e n (b : list value) len
      (d d' : @Decoder R) v' :
  forM n 0 (decodeElem Read dv cs t) (VSlice e (Some (b, len))) d
    = (Ok v', d') ->
  exists b', v' = VSlice e (Some (b', len)) /\ length b' = length b /\
    forall i, (n <= i)%nat -> nth_error b' i = nth_error b i.
Proof.
  intros H.
  apply (forM_inv (fun _ s => exists b', s = VSlice e (Some (b', len)) /\
            length b' = length b /\
            forall i, (n <= i)%nat -> nth_error b' i = nth_error b i)) in H.
  - exact H.
  - exists b. auto.
  - intros j0 s0 d0 s1 d1 Hj (b0 & -> & Hlen & Hnth) Hb.
    apply decodeElem_shape in Hb. destruct Hb as (x & ->).
    cbn [setIndex]. eexists. split; [reflexivity|]. split.
    + now rewrite length_update.
    + intros i Hi. rewrite nth_error_update_other by lia. now apply Hnth.
Qed.

Lemma skipn_repeat_zero (x : value) (m n : nat) :
  skipn n (repeat x m) = repeat x (m - n).
Proof.
  revert n; induction m as [|m IH]; intros [|n]; simpl; auto.
Qed.

(** The sizing of a slice, with the backing array it leaves. *)
Lemma sizeList_slice_exact L e b n cs (d d' : @Decoder R) v :
  (n <= length b)%nat ->
  sizeList L (VSlice e (Some (b, n)), cs) d = (Ok v, d') ->
  d' = d /\
  exists b1, v = VSlice e (Some (b1, Nat.max n (Z.to_nat L))) /\
    (L <= Z.of_nat (length b) -> b1 = b) /\
    (Z.of_nat (length b) < L ->
       b1 = firstn n b ++ repeat (zero e) (Z.to_nat L - n)).
Proof.
  intros Hwf H. unfold sizeList in H. cbn [fst snd Len Cap] in H.
  destruct (Z.of_nat n <? L) eqn:E1.
  - apply Z.ltb_lt in E1.
    destruct (Z.of_nat (length b) <? L) eqn:E2.
    + apply Z.ltb_lt in E2. apply lift_Ok in H. destruct H as [H ->].
      split; [reflexivity|]. unfold rSet in H. cbn [fst snd] in H.
      destruct cs; [|discriminate]. inversion H; subst; clear H.
      cbn [assign]. eexists. split; [|split].
      * f_equal. f_equal. f_equal. lia.
      * lia.
      * intros _. destruct (0 <? Z.of_nat n) eqn:E3.
        -- unfold copyInto. now rewrite skipn_repeat_zero.
        -- apply Z.ltb_ge in E3. assert (n = 0%nat) by lia. subst n.
           cbn [firstn app]. now rewrite Nat.sub_0_r.
    + apply Z.ltb_ge in E2. apply lift_Ok in H. destruct H as [H ->].
      split; [reflexivity|]. unfold SetLen in H. cbn [fst snd] in H.
      destruct cs; [|discriminate].
      destruct ((0 <=? L) && (L <=? Z.of_nat (length b))); [|discriminate].
      inversion H; subst; clear H. exists b. split; [|split].
      * f_equal. f_equal. f_equal. lia.
      * reflexivity.
      * lia.
  - apply Z.ltb_ge in E1. apply ret_Ok in H. destruct H as [<- ->].
    split; [reflexivity|]. exists b. split; [|split].
    + f_equal. f_equal. f_equal. lia.
    + reflexivity.
    + lia.
Qed.

(** One round of the element loop of a slice decodes the slot of its index
    and stores the result there. *)
Lemma decodeElem_round dv cs e j b len (d d' : @Decoder R) v' :
  decodeElem Read dv cs e j (VSlice e (Some (b, len))) d = (Ok v', d') ->
  exists x,
    v' = VSlice e (Some (update b (Z.to_nat j) x, len)) /\
    elemDecoded Read dv e (VSlice e (Some (b, len))) j
      (nth (Z.to_nat j) b (VIntf None)) x d d'.
Proof.
  intros H. unfold decodeElem in H.
  apply bind_Ok in H. destruct H as (rvj & d0 & E & H).
  apply lift_Ok in E. destruct E as [E Hd0]. subst d0.
  unfold Index in E. cbn [fst snd] in E.
  destruct ((0 <=? j) && (j <? Z.of_nat len)); [|discriminate E].
  inversion E; subst rvj; clear E. cbn [fst snd] in H.
  unfold elemDecoded.
  destruct (isIntfTyp e && IsNil (nth (Z.to_nat j) b (VIntf None))).
  - apply bind_Ok in H. destruct H as (n & dn & En & H).
    destruct (nhandled n) eqn:Eh; cbn [negb] in H.
    + apply ret_Ok in H. destruct H as [Hv Hd]. subst v' d'.
      eexists. split; [reflexivity|]. exists n, dn. split; [exact En|].
      rewrite Eh. auto.
    + apply bind_Ok in H. destruct H as (resolve & d2 & Eg & H).
      unfold getDam in Eg. inversion Eg; subst resolve d2; clear Eg.
      apply bind_Ok in H. destruct H as (c & d3 & Ec & H).
      apply lift_Ok in Ec. destruct Ec as [Ec Hd3]. subst d3.
      destruct c as [c|].
      * apply bind_Ok in H. destruct H as ([s rvn] & d4 & Ed & H).
        apply bind_Ok in H. destruct H as (x & d5 & Ex & H).
        apply lift_Ok in Ex. destruct Ex as [Ex Hd5]. subst d5.
        apply ret_Ok in H. destruct H as [Hv Hd]. subst v' d'.
        exists x. split; [reflexivity|]. exists n, dn. split; [exact En|].
        rewrite Eh. exists (Some c). split; [exact Ec|].
        exists s, rvn. auto.
      * apply bind_Ok in H. destruct H as ([x o] & d4 & Ed & H).
        apply ret_Ok in H. destruct H as [Hv Hd]. subst v' d'.
        exists x. split; [reflexivity|]. exists n, dn. split; [exact En|].
        rewrite Eh. exists None. split; [exact Ec|]. exists o. exact Ed.
  - apply bind_Ok in H. destruct H as ([x o] & d4 & Ed & H).
    apply ret_Ok in H. destruct H as [Hv Hd]. subst v' d'.
    exists x. split; [reflexivity|]. exists o. exact Ed.
Qed.

(** The element loop of a slice is a chain of such rounds. *)
Lemma forM_decodeElem_rounds dv cs e len :
  forall k j (b : list value) (d d' : @Decoder R) v',
    forM k j (decodeElem Read dv cs e) (VSlice e (Some (b, len))) d
      = (Ok v', d') ->
    exists b', v' = VSlice e (Some (b', len)) /\
      roundsDecoded Read dv e len k j b d b' d'.
Proof.
  induction k as [|k IH]; intros j b d d' v' H.
  - cbn [forM] in H. apply ret_Ok in H. destruct H as [<- <-].
    exists b. split; [reflexivity|]. cbn [roundsDecoded]. auto.
  - cbn [forM] in H. apply bind_Ok in H. destruct H as (v1 & d1 & E & H).
    apply decodeElem_round in E. destruct E as (x & -> & Ex).
    apply IH in H. destruct H as (b' & -> & Hr).
    exists b'. split; [reflexivity|]. cbn [roundsDecoded].
    exists x, d1. auto.
Qed.

(** C2, as amended.  After a successful decode of a sequence of wire length
    [L] into a non-nil slice (not a byte slice) of length [n], the slice has
    length [max n L]: it is grown to [L] when it was shorter and left at [n]
    when it was longer.  When the capacity suffices the backing array is kept
    and its elements from index [L] on are untouched; when it does not, the
    new backing array has exactly [L] elements, the [n] old ones followed by
    zero values.  The first [L] elements are then decoded positionally: from
    where the length left the decoder, round [j = 0, 1, ..., L - 1] decodes
    the slot of index [j] of that backing array from the bytes the round
    before left, and stores the result at index [j]; the decoder the last
    round leaves is the decoder of the result. *)
Theorem C2_slice_length_after_decode :
  forall (fuel : nat) (bd : byte) (e : ty) (b : list value) (n : nat)
         (cs : bool) (d d1 d' : @Decoder R) (L : Z) w rv' rvr,
    isByteSliceTyp (TSlice e) = false ->
    (n <= length b)%nat ->
    readContainerLen Read bd false ContainerList d = (Ok L, d1) ->
    decodeValue' (S fuel) bd (-1) false (VSlice e (Some (b, n)), cs) d
      = (Ok (w, rv', rvr), d') ->
    exists b',
      rv' = VSlice e (Some (b', Nat.max n (Z.to_nat L))) /\
      (L <= Z.of_nat (length b) ->
         length b' = length b /\
         forall i, (Z.to_nat L <= i)%nat -> nth_error b' i = nth_error b i) /\
      (Z.of_nat (length b) < L -> length b' = Z.to_nat L) /\
      exists b1,
        (L <= Z.of_nat (length b) -> b1 = b) /\
        (Z.of_nat (length b) < L ->
           b1 = firstn n b ++ repeat (zero e) (Z.to_nat L - n)) /\
        roundsDecoded Read (decodeValue' fuel) e (Nat.max n (Z.to_nat L))
          (Z.to_nat L) 0 b1 d1 b' d'.
Proof.
  intros fuel bd e b n cs d d1 d' L w rv' rvr Hty Hwf Hlen H.
  rewrite decodeValue_typed in H by reflexivity.
  destruct (decodeKind' _ bd (-1) (VSlice e (Some (b, n)), cs) d)
    as [[x|p|] d2] eqn:Hk; try discriminate.
  inversion H; subst; clear H.
  unfold decodeKind in Hk.
  destruct (byte_eqb bd xc0) eqn:Ebd.
  { apply byte_eqb_true in Ebd. subst bd. cbv in Hlen. discriminate Hlen. }
  change (kindOf (fst (VSlice e (Some (b, n)), cs))) with Slice in Hk.
  cbv iota in Hk. unfold decodeSeq in Hk. cbn [fst snd] in Hk.
  change (Kind_eqb (kindOf (VSlice e (Some (b, n)))) String) with false in Hk.
  change (typeOf (VSlice e (Some (b, n)))) with (TSlice e) in Hk.
  rewrite Hty in Hk. cbn [orb] in Hk.
  change (-1 <? 0) with true in Hk. cbv iota in Hk.
  apply bind_Ok in Hk. destruct Hk as (L' & d3 & E & Hk).
  rewrite Hlen in E. inversion E; subst L' d3; clear E.
  destruct (L =? 0) eqn:EL.
  - apply Z.eqb_eq in EL. subst L. apply ret_Ok in Hk. destruct Hk as [<- <-].
    exists b. split; [|split; [|split]].
    + f_equal. f_equal. f_equal. simpl. lia.
    + intros _. auto.
    + intros Hc. lia.
    + exists b. split; [reflexivity|]. split; [lia|].
      cbn [Z.to_nat roundsDecoded]. auto.
  - unfold decodeList in Hk. apply bind_Ok in Hk.
    destruct Hk as (v1 & d3 & E & Hk).
    pose proof (sizeList_slice_exact _ _ _ _ _ _ _ _ Hwf E)
      as (_ & b2 & Hv1 & Hkeep & Hnew).
    apply sizeList_slice in E; [|exact Hwf].
    destruct E as (-> & b1 & -> & Hreuse & Hcopy).
    inversion Hv1; subst b2; clear Hv1.
    cbn [fst typeOf tyElem] in Hk.
    pose proof (forM_decodeElem_rounds _ _ _ _ _ _ _ _ _ _ Hk)
      as (b3 & Hb3 & Hrounds).
    apply forM_decodeElem_slice in Hk.
    destruct Hk as (b' & -> & Hl & Hnth).
    inversion Hb3; subst b3; clear Hb3.
    exists b'. split; [reflexivity|]. split; [|split].
    + intros Hc. specialize (Hreuse Hc). subst b1. auto.
    + intros Hc. rewrite Hl. now apply Hcopy.
    + exists b1. split; [exact Hkeep|]. split; [exact Hnew|exact Hrounds].
Qed.

(** *** Maps with open/dynamic keys *)

Lemma decodeEntry_key dv j ktype vtype m (d d' : @Decoder R) rv' :
  decodeEntry Read dv j (VMap ktype vtype (Some m)) d = (Ok rv', d') ->
  exists slot rvk d1,
    decodeValueT_ dv x00 (-1) true (zero ktype, true) true true false d
      = (Ok (slot, Some rvk), d1) /\
    exists m',
      rv' = VMap ktype vtype (Some m') /\
      (m' = mapDelete m (assign (zero ktype) (coerceKey ktype rvk)) \/
       exists x,
         m' = mapStore m (assign (zero ktype) (coerceKey ktype rvk)) x).
Proof.
  intros H. unfold decodeEntry in H.
  apply bind_Ok in H. destruct H as ([slot rvk] & d1 & Ek & H).
  destruct rvk as [rvk|]; [|discriminate H].
  exists slot, rvk, d1. split; [exact Ek|].
  destruct (negb (hashable (assign (zero ktype) (coerceKey ktype rvk))));
    [discriminate H|].
  apply bind_Ok in H. destruct H as (rvv & d2 & _ & H).
  apply ret_Ok in H. destruct H as [<- _].
  eexists. split; [reflexivity|].
  destruct rvv as [x|]; [right; eauto | left; reflexivity].
Qed.



Lemma bind_eq_Ok {A B} (m : @M R A) (k : A -> @M R B) d a d1 :
  m d = (Ok a, d1) -> bind m k d = k a d1.
Proof. intros H. unfold bind. now rewrite H. Qed.

Lemma readContainerLen_dam bd ct (d d' : @Decoder R) x :
  readContainerLen Read bd false ct d = (x, d') -> dam d' = dam d.
Proof.
  unfold readContainerLen, readDescByte, bind, lift, ret, err.
  destruct (getContainerByteDesc ct) as [[[[c b0] b1] b2]|e|];
    try (intros H; inversion H; reflexivity).
  destruct (byte_eqb bd b1).
  - unfold readUint16, bind, ret.
    destruct (readb Read 2 (scratch 2) d) as [[bs|e|] d2] eqn:E;
      intros H; inversion H; subst; eapply readb_dam; eassumption.
  - destruct (byte_eqb bd b2).
    + unfold readUint32, bind, ret.
      destruct (readb Read 4 (scratch 4) d) as [[bs|e|] d2] eqn:E;
        intros H; inversion H; subst; eapply readb_dam; eassumption.
    + destruct (Z.land (b2z b0) (b2z bd) =? b2z b0);
        intros H; inversion H; reflexivity.
Qed.

Lemma nilIntfDecode_raw bd clen sc rv0 (d : @Decoder R) :
  isRawTag bd = true ->
  nilIntfDecode Read bd clen false sc rv0 d
  = nilIntfContainer Read ContainerRawBytes bd clen sc rv0 sc d.
Proof.
  intros H. destruct bd; vm_compute in H; try discriminate H; reflexivity.
Qed.

Lemma isRawTag_not_nil bd : isRawTag bd = true -> byte_eqb bd xc0 = false.
Proof. destruct bd; vm_compute; congruence. Qed.


(** Decoding [containerLen] raw bytes into a string. *)
Lemma decodeSeq_string dv bd L s cs (d d3 : @Decoder R) bs :
  (L = 0 /\ bs = s /\ d3 = d \/
   0 < L /\ readb Read L (repeat x00 (Z.to_nat L)) d = (Ok bs, d3)) ->
  decodeSeq Read dv bd L (VString s, cs) d
  = if L =? 0 then (Ok (VString s), d)
    else if cs then (Ok (VString bs), d3)
    else (Panic (ErrReflect NotSettable), d3).
Proof.
  intros H. unfold decodeSeq. cbn [fst snd].
  change (Kind_eqb (kindOf (VString s)) String) with true. cbn [orb].
  destruct H as [(-> & -> & ->) | (HL & Hr)].
  - reflexivity.
  - replace (L <? 0) with false by (symmetry; apply Z.ltb_ge; lia).
    unfold bind at 1. unfold ret at 1.
    replace (L =? 0) with false by (symmetry; apply Z.eqb_neq; lia).
    unfold decodeRawBytes. cbn [fst snd].
    change (isByteSliceTyp (typeOf (VString s))) with false.
    change (Kind_eqb (kindOf (VString s)) String) with true.
    cbn [length]. change (Z.of_nat 0) with 0.
    replace (0 <? L) with true by (symmetry; apply Z.ltb_lt; lia).
    cbv iota. unfold bind at 1. unfold ret at 1.
    unfold bind at 1. rewrite Hr. unfold lift, SetString. cbn [fst snd].
    destruct cs; reflexivity.
Qed.

Lemma Bytes_makeSlice L :
  Bytes (makeSlice (TUint W8) L) = repeat x00 (Z.to_nat L).
Proof.
  unfold makeSlice, Bytes. rewrite firstn_all2 by (rewrite repeat_length; lia).
  now rewrite map_repeat.
Qed.

(** Decoding [containerLen] raw bytes into the byte slice the resolver made
    for them. *)
Lemma decodeSeq_fresh_bytes dv bd L cs (d d3 : @Decoder R) bs :
  (L = 0 /\ bs = [] /\ d3 = d \/
   0 < L /\ readb Read L (repeat x00 (Z.to_nat L)) d = (Ok bs, d3)) ->
  decodeSeq Read dv bd L (makeSlice (TUint W8) L, cs) d
  = (Ok (VSlice (TUint W8) (Some (map valueOfByte bs, Z.to_nat L))), d3).
Proof.
  intros H. unfold decodeSeq. cbn [fst snd].
  change (isByteSliceTyp (typeOf (makeSlice (TUint W8) L))) with true.
  rewrite orb_true_r.
  destruct H as [(-> & -> & ->) | (HL & Hr)].
  - reflexivity.
  - replace (L <? 0) with false by (symmetry; apply Z.ltb_ge; lia).
    unfold bind at 1. unfold ret at 1.
    replace (L =? 0) with false by (symmetry; apply Z.eqb_neq; lia).
    unfold decodeRawBytes. cbn [fst snd].
    change (isByteSliceTyp (typeOf (makeSlice (TUint W8) L))) with true.
    change (Kind_eqb (kindOf (makeSlice (TUint W8) L)) String) with false.
    cbv iota. rewrite Bytes_makeSlice, repeat_length, Z2Nat.id by lia.
    rewrite Z.ltb_irrefl. unfold bind at 1. unfold ret at 1.
    unfold bind at 1. rewrite Hr. unfold ret.
    apply readb_length in Hr. rewrite repeat_length in Hr.
    unfold makeSlice, storeBytes.
    rewrite skipn_all2 by (rewrite repeat_length; lia).
    now rewrite app_nil_r.
Qed.





(** *** The tag byte once the length is known *)

Lemma isTagOf_not_nil ct bd : isTagOf ct bd = true -> byte_eqb bd xc0 = false.
Proof. destruct ct, bd; vm_compute; congruence. Qed.

(** Once the length is known, a container destination no longer looks at
    the tag byte. *)
Lemma decodeKind_container dv bd bd' L rv cs (d : @Decoder R) :
  isContainerKind rv = true -> 0 <= L ->
  byte_eqb bd xc0 = false -> byte_eqb bd' xc0 = false ->
  decodeKind' dv bd L (rv, cs) d = decodeKind' dv bd' L (rv, cs) d.
Proof.
  intros Hk HL Hbd Hbd'. unfold decodeKind. rewrite Hbd, Hbd'.
  assert (Hneg : (L <? 0) = false) by (apply Z.ltb_ge; lia).
  destruct rv; try discriminate Hk; cbn [fst kindOf typeOf kindOfTy];
    cbv iota.
  - unfold decodeSeq. now rewrite Hneg.
  - unfold decodeSeq. now rewrite Hneg.
  - unfold decodeSeq. now rewrite Hneg.
  - unfold decodeMap. now rewrite Hneg.
  - unfold decodeStruct. cbn [fst typeOf isTimeTyp]. now rewrite Hneg.
Qed.

Lemma decodeValue_container fuel bd bd' L rv cs (d : @Decoder R) :
  isContainerKind rv = true -> 0 <= L ->
  byte_eqb bd xc0 = false -> byte_eqb bd' xc0 = false ->
  decodeValue' fuel bd L false (rv, cs) d
  = decodeValue' fuel bd' L false (rv, cs) d.
Proof.
  intros Hk HL Hbd Hbd'. destruct fuel as [|fuel]; [reflexivity|].
  rewrite !decodeValue_typed by (destruct rv; try discriminate Hk; reflexivity).
  now rewrite (decodeKind_container _ bd bd').
Qed.

Lemma decodeKind_len_known fuel bd bd' L rv cs (d : @Decoder R) :
  lenDriven rv = true -> 0 <= L ->
  byte_eqb bd xc0 = false -> byte_eqb bd' xc0 = false ->
  decodeKind' (decodeValue' fuel) bd L (rv, cs) d
  = decodeKind' (decodeValue' fuel) bd' L (rv, cs) d.
Proof.
  intros Hk HL Hbd Hbd'.
  destruct rv as [| | | | | | | | |e [x|]|[x|]| |];
    try (apply decodeKind_container; assumption); try discriminate Hk.
  - unfold decodeKind. rewrite Hbd, Hbd'. cbn [fst kindOf typeOf kindOfTy].
    cbv iota. unfold decodePtr. cbn [fst]. unfold bind, ret.
    now rewrite (decodeValue_container fuel bd bd').
  - unfold decodeKind. rewrite Hbd, Hbd'. cbn [fst kindOf typeOf kindOfTy].
    cbv iota. unfold decodePtr. cbn [fst]. unfold bind, ret.
    now rewrite (decodeValue_container fuel bd bd').
Qed.

(** Reading the length first and decoding with the length known are the
    same thing. *)
Lemma decodeKind_read_len dv ct bd L rv cs (d d' : @Decoder R) :
  takes ct rv = true -> isContainerKind rv = true -> 0 <= L ->
  byte_eqb bd xc0 = false ->
  readContainerLen Read bd false ct d = (Ok L, d') ->
  decodeKind' dv bd (-1) (rv, cs) d = decodeKind' dv bd L (rv, cs) d'.
Proof.
  intros Ht Hk HL Hbd Hlen. unfold decodeKind.
  assert (Hneg : (L <? 0) = false) by (apply Z.ltb_ge; lia).
  rewrite Hbd.
  destruct rv; try discriminate Hk; cbn [fst kindOf typeOf kindOfTy];
    cbv iota.
  - destruct ct; try discriminate Ht.
    unfold decodeSeq. cbn [fst kindOf typeOf kindOfTy Kind_eqb orb].
    change (-1 <? 0) with true. rewrite Hneg. cbv iota.
    rewrite (bind_eq_Ok _ _ _ _ _ Hlen). reflexivity.
  - unfold decodeSeq. cbn [fst kindOf typeOf kindOfTy Kind_eqb orb].
    change (-1 <? 0) with true. rewrite Hneg. cbv iota.
    destruct ct; try discriminate Ht; cbn [takes] in Ht.
    + rewrite Ht. rewrite (bind_eq_Ok _ _ _ _ _ Hlen). reflexivity.
    + apply negb_true_iff in Ht. rewrite Ht.
      rewrite (bind_eq_Ok _ _ _ _ _ Hlen). reflexivity.
  - destruct ct; try discriminate Ht.
    unfold decodeSeq. cbn [fst kindOf typeOf kindOfTy Kind_eqb orb].
    change (-1 <? 0) with true. rewrite Hneg. cbv iota.
    change (isByteSliceTyp (TArray (length elems) e)) with false. cbv iota.
    rewrite (bind_eq_Ok _ _ _ _ _ Hlen). reflexivity.
  - destruct ct; try discriminate Ht.
    unfold decodeMap. change (-1 <? 0) with true. rewrite Hneg. cbv iota.
    rewrite (bind_eq_Ok _ _ _ _ _ Hlen). reflexivity.
  - destruct ct; try discriminate Ht.
    unfold decodeStruct. cbn [fst typeOf isTimeTyp].
    change (-1 <? 0) with true. rewrite Hneg. cbv iota.
    rewrite (bind_eq_Ok _ _ _ _ _ Hlen). reflexivity.
Qed.

Lemma nilIntfDecode_cat ct bd clen sc rv0 (d : @Decoder R) :
  isTagOf ct bd = true ->
  nilIntfDecode Read bd clen false sc rv0 d
  = nilIntfContainer Read ct bd clen sc rv0
      (match ct with ContainerRawBytes => sc | _ => false end) d.
Proof.
  intros H. destruct ct; destruct bd; vm_compute in H; try discriminate H;
    reflexivity.
Qed.

Lemma decodeValue_nil_unfold fuel bd clen cs (d : @Decoder R) :
  decodeValue' (S fuel) bd clen false (VIntf None, cs) d
  = match nilIntfDecode Read bd clen false true (VIntf None, cs) d with
    | (Ok n, d') =>
        if nhandled n then (Ok (true, nslot n, Some (nslot n, cs)), d')
        else if nelem n then
          match Elem (nslot n) with
          | Some e =>
              match decodeKind' (decodeValue' fuel) (nbd n) (nlen n)
                      (e, false) d' with
              | (Ok x, d2) => (Ok (true, VIntf (Some x), Some (x, false)), d2)
              | (Panic p, d2) => (Panic p, d2)
              | (OutOfFuel, d2) => (OutOfFuel, d2)
              end
          | None =>
              if byte_eqb (nbd n) xc0 then (Panic (ErrReflect ZeroValue), d')
              else (Ok (true, nslot n, None), d')
          end
        else
          match decodeKind' (decodeValue' fuel) (nbd n) (nlen n)
                  (nslot n, cs) d' with
          | (Ok x, d2) => (Ok (true, x, Some (x, cs)), d2)
          | (Panic p, d2) => (Panic p, d2)
          | (OutOfFuel, d2) => (OutOfFuel, d2)
          end
    | (Panic p, d') => (Panic p, d')
    | (OutOfFuel, d') => (OutOfFuel, d')
    end.
Proof.
  simpl decodeValue. unfold decodeValue_, readDescByte.
  unfold bind at 1. unfold ret at 1. cbn [fst snd].
  change (Kind_eqb (kindOf (VIntf None)) Interface && IsNil (VIntf None))
    with true. cbv iota. unfold bind at 1.
  destruct (nilIntfDecode Read bd clen false true (VIntf None, cs) d)
    as [[n|p|] d']; try reflexivity.
  destruct (nhandled n); [reflexivity|].
  destruct (nelem n).
  - destruct (Elem (nslot n)) as [e|].
    + unfold bind, ret.
      destruct (decodeKind' _ (nbd n) (nlen n) (e, false) d')
        as [[x|p|] d2]; reflexivity.
    + destruct (byte_eqb (nbd n) xc0); reflexivity.
  - unfold bind, ret.
    destruct (decodeKind' _ (nbd n) (nlen n) (nslot n, cs) d')
      as [[x|p|] d2]; reflexivity.
Qed.

Lemma nilIntfContainer_known ct bd L sc rv0 elem (d : @Decoder R) :
  0 <= L ->
  nilIntfContainer Read ct bd L sc rv0 elem d
  = if sc then
      match dam d None PKnil L ct with
      | Ok c =>
          match rSet rv0 (option_map fst c) with
          | Ok s => (Ok (mkNilres s elem bd ct L false), d)
          | Panic p => (Panic p, d)
          | OutOfFuel => (OutOfFuel, d)
          end
      | Panic p => (Panic p, d)
      | OutOfFuel => (OutOfFuel, d)
      end
    else (Ok (mkNilres (fst rv0) false bd ct L false), d).
Proof.
  intros HL. unfold nilIntfContainer.
  replace (L <? 0) with false by (symmetry; apply Z.ltb_ge; lia).
  unfold bind at 1. unfold ret at 1. destruct sc; [|reflexivity].
  unfold bind, getDam, lift, ret.
  destruct (dam d None PKnil L ct) as [c|p|]; reflexivity.
Qed.

Lemma nilIntfContainer_read ct bd L sc rv0 elem (d d' : @Decoder R) :
  0 <= L ->
  readContainerLen Read bd false ct d = (Ok L, d') ->
  nilIntfContainer Read ct bd (-1) sc rv0 elem d
  = nilIntfContainer Read ct bd L sc rv0 elem d'.
Proof.
  intros HL Hlen. unfold nilIntfContainer.
  change (-1 <? 0) with true. cbv iota.
  replace (L <? 0) with false by (symmetry; apply Z.ltb_ge; lia).
  rewrite (bind_eq_Ok _ _ _ _ _ Hlen). reflexivity.
Qed.

Lemma decodeValue_nil_read_len fuel ct bd L cs (d d' : @Decoder R) :
  isTagOf ct bd = true -> 0 <= L ->
  readContainerLen Read bd false ct d = (Ok L, d') ->
  decodeValue' (S fuel) bd (-1) false (VIntf None, cs) d
  = decodeValue' (S fuel) bd L false (VIntf None, cs) d'.
Proof.
  intros Ht HL Hlen. rewrite !decodeValue_nil_unfold.
  rewrite !(nilIntfDecode_cat ct) by exact Ht.
  now rewrite (nilIntfContainer_read _ _ L _ _ _ d d').
Qed.

Lemma decodeValue_nil_tag fuel ct bd bd' L cs o (d : @Decoder R) :
  isTagOf ct bd = true -> isTagOf ct bd' = true -> 0 <= L ->
  dam d = DecoderContainer o ->
  decodeValue' (S fuel) bd L false (VIntf None, cs) d
  = decodeValue' (S fuel) bd' L false (VIntf None, cs) d.
Proof.
  intros Ht Ht' HL Ho. rewrite !decodeValue_nil_unfold.
  rewrite !(nilIntfDecode_cat ct) by assumption.
  rewrite !nilIntfContainer_known by exact HL. rewrite Ho.
  pose proof (isTagOf_not_nil _ _ Ht) as Hbd.
  pose proof (isTagOf_not_nil _ _ Ht') as Hbd'.
  destruct (DecoderContainer o None PKnil L ct) as [c|p|] eqn:Ec;
    try reflexivity.
  destruct (rSet (VIntf None, cs) (option_map fst c)) as [s|p|] eqn:Es;
    try reflexivity.
  cbn [nhandled nelem nslot nbd nlen]. rewrite Hbd, Hbd'.
  unfold rSet in Es. cbn [fst snd] in Es. destruct cs; [|discriminate Es].
  unfold DecoderContainer in Ec.
  assert (Hgo : forall x, lenDriven x = true ->
    decodeKind' (decodeValue' fuel) bd L (x, false) d
    = decodeKind' (decodeValue' fuel) bd' L (x, false) d)
    by (intros; now apply decodeKind_len_known).
  assert (Hgo' : forall x, lenDriven x = true ->
    decodeKind' (decodeValue' fuel) bd L (x, true) d
    = decodeKind' (decodeValue' fuel) bd' L (x, true) d)
    by (intros; now apply decodeKind_len_known).
  destruct ct; try discriminate Ht.
  - cbn [Kind_eqb andb orb] in Ec.
    destruct (BytesStringLiteral o); cbn [orb] in Ec;
      inversion Ec; subst c; cbn in Es; inversion Es; subst s;
      cbn [Elem]; rewrite Hgo by reflexivity; reflexivity.
  - destruct (SliceType o) as [t|];
      [destruct t; try discriminate Ec|];
      inversion Ec; subst c; cbn in Es; inversion Es; subst s;
      rewrite Hgo' by reflexivity; reflexivity.
  - destruct (MapType o) as [t|];
      [destruct t; try discriminate Ec|];
      inversion Ec; subst c; cbn in Es; inversion Es; subst s;
      rewrite Hgo' by reflexivity; reflexivity.
Qed.


Lemma takes_kind ct rv :
  takes ct rv = true -> rv = VIntf None \/ isContainerKind rv = true.
Proof.
  destruct rv as [| | | | | | | | | |[x|]| |]; destruct ct;
    try discriminate; auto.
Qed.

Lemma decodeValue_form_direct fuel ct L rv cs tag tag0 (d dbody : @Decoder R) :
  takes ct rv = true ->
  (rv = VIntf None -> exists o, dam dbody = DecoderContainer o) ->
  0 <= L ->
  isTagOf ct tag = true -> isTagOf ct tag0 = true ->
  readContainerLen Read tag false ct d = (Ok L, dbody) ->
  decodeValue' (S fuel) tag (-1) false (rv, cs) d
  = decodeValue' (S fuel) tag0 L false (rv, cs) dbody.
Proof.
  intros Ht Hres HL Htag Htag0 Hlen.
  pose proof (isTagOf_not_nil _ _ Htag) as Hbd.
  pose proof (isTagOf_not_nil _ _ Htag0) as Hbd0.
  destruct (takes_kind _ _ Ht) as [-> | Hk].
  - destruct (Hres eq_refl) as (o & Ho).
    rewrite (decodeValue_nil_read_len _ ct tag L cs _ _ Htag HL Hlen).
    now apply (decodeValue_nil_tag _ ct tag tag0 L cs o).
  - assert (Hty : Kind_eqb (kindOf rv) Interface && IsNil rv = false)
      by (destruct rv; try discriminate Hk; reflexivity).
    rewrite !decodeValue_typed by exact Hty.
    rewrite (decodeKind_read_len _ ct tag L rv cs _ _ Ht Hk HL Hbd Hlen).
    now rewrite (decodeKind_container _ tag tag0).
Qed.

(** Two tags of one category that announce the same length and leave the
    same bytes behind decode alike. *)
Lemma decodeValue_forms ct L tag tag' (d d' dbody : @Decoder R) :
  0 <= L ->
  isTagOf ct tag = true -> isTagOf ct tag' = true ->
  readContainerLen Read tag false ct d = (Ok L, dbody) ->
  readContainerLen Read tag' false ct d' = (Ok L, dbody) ->
  forall fuel rv cs,
    takesAt ct rv = true ->
    (wrappers rv <= fuel)%nat ->
    (bottom rv = VIntf None -> exists o, dam dbody = DecoderContainer o) ->
    decodeValue' (S fuel) tag (-1) false (rv, cs) d
    = decodeValue' (S fuel) tag' (-1) false (rv, cs) d'.
Proof.
  intros HL Htag Htag' Hlen Hlen'.
  pose proof (isTagOf_not_nil _ _ Htag) as Hbd.
  pose proof (isTagOf_not_nil _ _ Htag') as Hbd'.
  assert (Hdirect : forall fuel rv cs,
    takes ct rv = true ->
    (rv = VIntf None -> exists o, dam dbody = DecoderContainer o) ->
    decodeValue' (S fuel) tag (-1) false (rv, cs) d
    = decodeValue' (S fuel) tag' (-1) false (rv, cs) d').
  { intros fuel rv cs Ht Hres.
    rewrite (decodeValue_form_direct fuel ct L rv cs tag tag' d dbody)
      by assumption.
    rewrite (decodeValue_form_direct fuel ct L rv cs tag' tag' d' dbody)
      by assumption.
    reflexivity. }
  induction fuel as [|fuel IH]; intros rv cs Ht Hw Hres.
  - destruct rv as [| | | | | | | | |e [x|]|[x|]| |];
      try (apply Hdirect; assumption); try discriminate Ht;
      cbn [wrappers] in Hw; lia.
  - destruct rv as [| | | | | | | | |e [x|]|[x|]| |t];
      try (apply Hdirect; assumption); try discriminate Ht.
    + rewrite !decodeValue_typed by reflexivity.
      unfold decodeKind. rewrite Hbd, Hbd'.
      cbn [fst kindOf typeOf kindOfTy]. cbv iota.
      unfold decodePtr. cbn [fst]. unfold bind, ret.
      rewrite (IH x true) by (cbn [wrappers] in Hw; first [exact Ht | exact Hres | lia]).
      reflexivity.
    + rewrite !decodeValue_typed by reflexivity.
      unfold decodeKind. rewrite Hbd, Hbd'.
      cbn [fst kindOf typeOf kindOfTy]. cbv iota.
      unfold decodePtr. cbn [fst]. unfold bind, ret.
      rewrite (IH x false) by (cbn [wrappers] in Hw; first [exact Ht | exact Hres | lia]).
      reflexivity.
    + assert (Hct : ct = ContainerList) by (destruct ct; try discriminate Ht; reflexivity).
      subst ct.
      rewrite !decodeValue_typed by reflexivity.
      unfold decodeKind. rewrite Hbd, Hbd'.
      cbn [fst kindOf typeOf kindOfTy]. cbv iota.
      unfold decodeStruct. cbn [fst typeOf isTimeTyp]. unfold bind.
      rewrite (Hdirect fuel (VArray (TInt W64) [VInt W64 0; VInt W64 0]) true)
        by (first [reflexivity | intros E; discriminate E]).
      reflexivity.
Qed.
(** *** The reserved tag and fixed arrays *)

(** X1. The reserved tag 0xc1 is refused with a format fault, before
    anything past the tag is read and whether or not the destination can be
    set, by every scalar destination, by strings, by slices of every element
    type, by arrays and by an unset open/dynamic slot. *)
Lemma reserved_tag_faults fuel rv cs (d : @Decoder R) :
  refusesReserved rv = true ->
  exists e,
    decodeValue' (S fuel) xc1 (-1) false (rv, cs) d = (Panic e, d) /\
    faultOf e = Some FormatFault.
Proof.
  intros H.
  destruct rv as [| | | | | |e s| | | |[x|]| |]; try discriminate H;
    try (eexists; split; reflexivity).
  destruct (isByteSliceTyp (TSlice e)) eqn:E.
  - exists (ErrContainerLen xc1). split; [|reflexivity].
    rewrite decodeValue_typed by reflexivity.
    unfold decodeKind. cbn [byte_eqb Byte.eqb fst kindOf typeOf kindOfTy].
    cbv iota. unfold decodeSeq. cbn [fst typeOf]. rewrite E. reflexivity.
  - exists (ErrContainerLen xc1). split; [|reflexivity].
    rewrite decodeValue_typed by reflexivity.
    unfold decodeKind. cbn [byte_eqb Byte.eqb fst kindOf typeOf kindOfTy].
    cbv iota. unfold decodeSeq. cbn [fst typeOf]. rewrite E. reflexivity.
Qed.

Lemma assign_zero_typed x e : typeOf x = e -> assign x (zero e) = zero e.
Proof. intros <-. apply assign_zero. Qed.

Lemma zeroElem_array e l j (d d' : @Decoder R) v :
  zeroElem true e j (VArray e l) d = (Ok v, d') ->
  d' = d /\
  v = VArray e (update l (Z.to_nat j)
                  (assign (nth (Z.to_nat j) l (VIntf None)) (zero e))).
Proof.
  unfold zeroElem, Index. cbn [fst snd]. intros H.
  destruct ((0 <=? j) && (j <? Z.of_nat (length l))); [|discriminate H].
  cbv in H. inversion H. auto.
Qed.
Lemma nth_error_update_same l j x :
  (j < length l)%nat -> nth_error (update l j x) j = Some x.
Proof.
  revert j; induction l as [|y l IH]; intros [|j] H; simpl in *;
    try lia; auto. apply IH. lia.
Qed.

Lemma nth_error_nth' (l : list value) i d0 :
  (i < length l)%nat -> nth_error l i = Some (nth i l d0).
Proof.
  revert i; induction l as [|y l IH]; intros [|i] H; simpl in *;
    try lia; auto. apply IH. lia.
Qed.

(** The zeroing loop of a fixed array: every slot from [L] on ends up with
    the zero value, the slots before [L] are not touched. *)
Lemma forM_zeroElem_array e l L (d d' : @Decoder R) v :
  Forall (fun x => typeOf x = e) l ->
  0 <= L <= Z.of_nat (length l) ->
  forM (Z.to_nat (Z.of_nat (length l) - L)) L (zeroElem true e) (VArray e l) d
    = (Ok v, d') ->
  exists l1, v = VArray e l1 /\ length l1 = length l /\
    (forall i, (Z.to_nat L <= i < length l)%nat ->
       nth_error l1 i = Some (zero e)) /\
    (forall i, (i < Z.to_nat L)%nat -> nth_error l1 i = nth_error l i).
Proof.
  intros Hty HL H.
  apply (forM_inv (fun k s => exists l1, s = VArray e l1 /\
            length l1 = length l /\
            (forall i, (Z.to_nat L <= i < Z.to_nat k)%nat ->
               nth_error l1 i = Some (zero e)) /\
            (forall i, (i < Z.to_nat L \/ Z.to_nat k <= i)%nat ->
               nth_error l1 i = nth_error l i))) in H.
  - destruct H as (l1 & -> & Hlen & Hz & Hu). exists l1.
    split; [reflexivity|]. split; [exact Hlen|]. split.
    + intros i Hi. apply Hz. lia.
    + intros i Hi. apply Hu. lia.
  - exists l. split; [reflexivity|]. split; [reflexivity|]. split.
    + intros i Hi. lia.
    + intros i _. reflexivity.
  - intros j0 s0 d0 s1 d1 Hj (l0 & -> & Hlen & Hz & Hu) Hb.
    apply zeroElem_array in Hb. destruct Hb as [_ ->].
    eexists. split; [reflexivity|]. split; [now rewrite length_update|].
    assert (Hj0 : (Z.to_nat j0 < length l0)%nat) by lia.
    assert (Hold : nth (Z.to_nat j0) l0 (VIntf None)
                   = nth (Z.to_nat j0) l (VIntf None)).
    { assert (E : nth_error l0 (Z.to_nat j0) = nth_error l (Z.to_nat j0))
        by (apply Hu; lia).
      rewrite (nth_error_nth' l0 _ (VIntf None)) in E by lia.
      rewrite (nth_error_nth' l _ (VIntf None)) in E by lia.
      now inversion E. }
    assert (Hz0 : assign (nth (Z.to_nat j0) l0 (VIntf None)) (zero e) = zero e).
    { rewrite Hold. apply assign_zero_typed.
      rewrite Forall_forall in Hty. apply Hty. apply nth_In. lia. }
    rewrite Hz0. split.
    + intros i Hi. destruct (Nat.eq_dec i (Z.to_nat j0)) as [-> | Hne].
      * now apply nth_error_update_same.
      * rewrite nth_error_update_other by exact Hne. apply Hz. lia.
    + intros i Hi. rewrite nth_error_update_other by lia. apply Hu. lia.
Qed.

Lemma forM_decodeElem_array dv cs t e n (l : list value)
      (d d' : @Decoder R) v' :
  forM n 0 (decodeElem Read dv cs t) (VArray e l) d = (Ok v', d') ->
  exists l', v' = VArray e l' /\ length l' = length l /\
    forall i, (n <= i)%nat -> nth_error l' i = nth_error l i.
Proof.
  intros H.
  apply (forM_inv (fun _ s => exists l', s = VArray e l' /\
            length l' = length l /\
            forall i, (n <= i)%nat -> nth_error l' i = nth_error l i)) in H.
  - exact H.
  - exists l. auto.
  - intros j0 s0 d0 s1 d1 Hj (l0 & -> & Hlen & Hnth) Hb.
    apply decodeElem_shape in Hb. destruct Hb as (x & ->).
    cbn [setIndex]. eexists. split; [reflexivity|]. split.
    + now rewrite length_update.
    + intros i Hi. rewrite nth_error_update_other by lia. now apply Hnth.
Qed.

(** X2. What does hold of the fixed-array branch: a sequence longer than
    the array is refused with a type fault, before any element is read; and
    after a successful decode of a sequence of [L >= 1] elements into a
    settable array, the array has kept its size and its slots from [L] on
    hold the zero value of the element type. *)
Lemma array_decode fuel bd e l (d d1 : @Decoder R) L :
  byte_eqb bd xc0 = false ->
  readContainerLen Read bd false ContainerList d = (Ok L, d1) ->
  (Z.of_nat (length l) < L ->
     forall cs,
       decodeValue' (S fuel) bd (-1) false (VArray e l, cs) d
         = (Panic (ErrArrayLen (Z.of_nat (length l)) L), d1) /\
       faultOf (ErrArrayLen (Z.of_nat (length l)) L) = Some TypeFault) /\
  (0 < L -> Forall (fun x => typeOf x = e) l ->
     forall w rv' rvr d',
       decodeValue' (S fuel) bd (-1) false (VArray e l, true) d
         = (Ok (w, rv', rvr), d') ->
       exists l', rv' = VArray e l' /\ length l' = length l /\
         forall i, (Z.to_nat L <= i < length l)%nat ->
           nth_error l' i = Some (zero e)).
Proof.
  intros Hbd Hlen.
  assert (Hunf : forall cs,
    decodeKind' (decodeValue' fuel) bd (-1) (VArray e l, cs) d
    = if L =? 0 then (Ok (VArray e l), d1)
      else decodeList Read (decodeValue' fuel) L (VArray e l, cs) d1).
  { intros cs. unfold decodeKind. rewrite Hbd.
    cbn [fst kindOf typeOf kindOfTy]. cbv iota. unfold decodeSeq.
    cbn [fst kindOf typeOf kindOfTy Kind_eqb orb].
    change (isByteSliceTyp (TArray (length l) e)) with false.
    change (-1 <? 0) with true. cbv iota.
    rewrite (bind_eq_Ok _ _ _ _ _ Hlen).
    destruct (L =? 0); reflexivity. }
  split.
  - intros Hshort cs. split; [|reflexivity].
    rewrite decodeValue_typed by reflexivity. rewrite Hunf.
    replace (L =? 0) with false by (symmetry; apply Z.eqb_neq; lia).
    unfold decodeList, sizeList. cbn [fst snd Len].
    replace (Z.of_nat (length l) <? L) with true
      by (symmetry; apply Z.ltb_lt; lia).
    reflexivity.
  - intros HL Hty w rv' rvr d' H.
    rewrite decodeValue_typed in H by reflexivity. rewrite Hunf in H.
    replace (L =? 0) with false in H by (symmetry; apply Z.eqb_neq; lia).
    destruct (decodeList Read (decodeValue' fuel) L (VArray e l, true) d1)
      as [[x|p|] d2] eqn:Hk; try discriminate H.
    inversion H; subst; clear H.
    unfold decodeList in Hk. apply bind_Ok in Hk.
    destruct Hk as (v1 & d3 & E & Hk).
    unfold sizeList in E. cbn [fst snd Len] in E.
    destruct (Z.of_nat (length l) <? L) eqn:E1; [discriminate E|].
    apply Z.ltb_ge in E1.
    assert (Hv1 : exists l1, v1 = VArray e l1 /\ length l1 = length l /\
      forall i, (Z.to_nat L <= i < length l)%nat ->
        nth_error l1 i = Some (zero e)).
    { destruct (L <? Z.of_nat (length l)) eqn:E2.
      - apply forM_zeroElem_array in E; [|exact Hty|lia].
        destruct E as (l1 & -> & Hl1 & Hz & _). exists l1. auto.
      - apply Z.ltb_ge in E2. apply ret_Ok in E. destruct E as [<- _].
        exists l. split; [reflexivity|]. split; [reflexivity|].
        intros i Hi. lia. }
    destruct Hv1 as (l1 & -> & Hl1 & Hz).
    apply forM_decodeElem_array in Hk. destruct Hk as (l' & -> & Hl' & Hn).
    exists l'. split; [reflexivity|]. split; [congruence|].
    intros i Hi. rewrite Hn by lia. now apply Hz.
Qed.


(** *** Integers on the wire *)

Lemma fold_BigEndian_range (bs : list byte) :
  forall acc k, 0 <= k -> 0 <= acc < 2 ^ k ->
    0 <= fold_left (fun acc b => Z.lor (Z.shiftl acc 8) (b2z b)) bs acc
      < 2 ^ (k + 8 * Z.of_nat (length bs)).
Proof.
  induction bs as [|b bs IH]; intros acc k Hk Hacc.
  - simpl. now rewrite Z.add_0_r.
  - cbn [fold_left]. pose proof (b2z_range b) as Hb.
    rewrite lor_shiftl_byte by exact Hb.
    replace (k + 8 * Z.of_nat (length (b :: bs)))
      with ((k + 8) + 8 * Z.of_nat (length bs))
      by (cbn [length]; lia).
    apply IH; [lia|].
    rewrite Z.pow_add_r by lia. change (2 ^ 8) with 256. lia.
Qed.

Lemma BigEndian_range (bs : list byte) :
  0 <= BigEndian bs < 2 ^ (8 * Z.of_nat (length bs)).
Proof.
  unfold BigEndian.
  apply (fold_BigEndian_range bs 0 0); [lia | now cbv].
Qed.

Lemma pow2_double (w : Z) : 0 < w -> 2 ^ w = 2 * 2 ^ (w - 1).
Proof.
  intros H. replace w with (1 + (w - 1)) at 1 by lia.
  rewrite Z.pow_add_r by lia. reflexivity.
Qed.

Lemma wrapS_range (w x : Z) :
  0 < w -> - 2 ^ (w - 1) <= wrapS w x < 2 ^ (w - 1).
Proof.
  intros H. unfold wrapS.
  assert (0 < 2 ^ (w - 1)) by (apply Z.pow_pos_nonneg; lia).
  pose proof (Z.mod_pos_bound (x + 2 ^ (w - 1)) (2 ^ w)) as Hm.
  rewrite (pow2_double w H) in *. lia.
Qed.

Lemma wrapS_small (w x : Z) :
  0 < w -> - 2 ^ (w - 1) <= x < 2 ^ (w - 1) -> wrapS w x = x.
Proof.
  intros H Hx. unfold wrapS. rewrite (pow2_double w H).
  rewrite Z.mod_small; lia.
Qed.

Lemma wrapS_wrapS (a b x : Z) :
  0 < a <= b -> wrapS b (wrapS a x) = wrapS a x.
Proof.
  intros H. apply wrapS_small; [lia|].
  pose proof (wrapS_range a x (proj1 H)) as Hr.
  assert (2 ^ (a - 1) <= 2 ^ (b - 1)) by (apply Z.pow_le_mono_r; lia).
  lia.
Qed.

Lemma wrapU_small (w x : Z) : 0 <= x < 2 ^ w -> wrapU w x = x.
Proof. intros H. unfold wrapU. now apply Z.mod_small. Qed.

Lemma bits_octets (w : intw) : 8 * Z.of_nat (octets w) = bits w.
Proof. destruct w; reflexivity. Qed.

Lemma readContainerLen_bounds :
  forall (bd : byte) (readDesc : bool) (ct : ContainerType)
         (d d' : @Decoder R) (L : Z),
    readContainerLen Read bd readDesc ct d = (Ok L, d') ->
    0 <= L < 2 ^ 32.
Proof.
  intros bd rd ct d d' L H. unfold readContainerLen in H.
  apply bind_Ok in H. destruct H as (bd1 & d1 & _ & H).
  apply bind_Ok in H. destruct H as (x & d2 & E & H).
  destruct x as [[[c b0] b1] b2].
  destruct (byte_eqb bd1 b1).
  - apply bind_Ok in H. destruct H as (u & d3 & Eu & H).
    apply ret_Ok in H. destruct H as [<- _].
    unfold readUint16 in Eu. apply bind_Ok in Eu.
    destruct Eu as (bs & d4 & Eb & Eu). apply ret_Ok in Eu.
    destruct Eu as [<- _]. apply readb_length in Eb.
    pose proof (BigEndian_range bs) as Hr. rewrite Eb in Hr.
    change (2 ^ (8 * Z.of_nat (length (scratch 2)))) with 65536 in Hr.
    rewrite int_small by lia. lia.
  - destruct (byte_eqb bd1 b2).
    + apply bind_Ok in H. destruct H as (u & d3 & Eu & H).
      apply ret_Ok in H. destruct H as [<- _].
      unfold readUint32 in Eu. apply bind_Ok in Eu.
      destruct Eu as (bs & d4 & Eb & Eu). apply ret_Ok in Eu.
      destruct Eu as [<- _]. apply readb_length in Eb.
      pose proof (BigEndian_range bs) as Hr. rewrite Eb in Hr.
      change (2 ^ (8 * Z.of_nat (length (scratch 4)))) with 4294967296 in Hr.
      rewrite int_small by lia. lia.
    + destruct (Z.land (b2z b0) (b2z bd1) =? b2z b0); [|discriminate H].
      apply ret_Ok in H. destruct H as [<- _].
      pose proof (lxor_byte_range b0 bd1) as Hr.
      rewrite int_small by lia. lia.
Qed.

(** X3. A container length that [readContainerLen] returns is never
    negative and fits 32 bits, whatever the tag, the category and the
    reader. *)
Theorem readContainerLen_range :
  forall (bd : byte) (readDesc : bool) (ct : ContainerType)
         (d d' : @Decoder R) (L : Z),
    readContainerLen Read bd readDesc ct d = (Ok L, d') ->
    0 <= L < 2 ^ 32.
Proof. exact readContainerLen_bounds. Qed.

(** *** Sized integers into integer destinations *)

(** Decide the comparisons of two known tag bytes. *)
Ltac byte_tests :=
  repeat match goal with
  | |- context [byte_eqb ?a ?b] =>
      let v := eval vm_compute in (byte_eqb a b) in
      change (byte_eqb a b) with v
  end;
  cbv iota.

Lemma readb_octets (w : intw) (d d' : @Decoder R) bs :
  readb Read (Z.of_nat (octets w)) (scratch (octets w)) d = (Ok bs, d') ->
  0 <= BigEndian bs < 2 ^ bits w.
Proof.
  intros H. apply readb_length in H. pose proof (BigEndian_range bs) as Hr.
  rewrite H in Hr. unfold scratch in Hr. rewrite repeat_length in Hr.
  now rewrite bits_octets in Hr.
Qed.

Lemma BigEndian_1 (bs : list byte) :
  length bs = 1%nat -> b2z (hd x00 bs) = BigEndian bs.
Proof.
  destruct bs as [|b [|]]; try discriminate. intros _.
  cbv [BigEndian fold_left hd]. pose proof (b2z_range b).
  rewrite lor_shiftl_byte by lia. lia.
Qed.

(** The four reads of a sized integer, as one read of [octets w] bytes. *)
Lemma readUint_octets (w : intw) (d d' : @Decoder R) bs :
  readb Read (Z.of_nat (octets w)) (scratch (octets w)) d = (Ok bs, d') ->
  match w with
  | W8 => readUint8 Read d
  | W16 => readUint16 Read d
  | W32 => readUint32 Read d
  | W64 | W0 => readUint64 Read d
  end = (Ok (BigEndian bs), d').
Proof.
  intros H.
  destruct w; unfold readUint8, readUint16, readUint32, readUint64;
    try (change (Z.of_nat (octets W0)) with 8 in H;
         change (octets W0) with 8%nat in H);
    try (change (Z.of_nat (octets W8)) with 1 in H;
         change (octets W8) with 1%nat in H);
    try (change (Z.of_nat (octets W16)) with 2 in H;
         change (octets W16) with 2%nat in H);
    try (change (Z.of_nat (octets W32)) with 4 in H;
         change (octets W32) with 4%nat in H);
    try (change (Z.of_nat (octets W64)) with 8 in H;
         change (octets W64) with 8%nat in H);
    rewrite (bind_eq_Ok _ _ _ _ _ H); try reflexivity.
  unfold ret. rewrite BigEndian_1; [reflexivity|].
  now apply readb_length in H.
Qed.

(** X4. A sized signed integer (tags 0xd0 to 0xd3) decoded into a signed
    integer destination of any width: the bytes that follow the tag are read
    big-endian as a two's-complement number of the wire width, and the
    destination receives that number reduced to its own width.  When the
    destination is at least as wide as the wire integer the number is stored
    exactly; a narrower destination is never refused. *)
Theorem sized_int_into_int :
  forall (fuel : nat) (bd : byte) (ww w : intw) (z clen : Z)
         (d d' : @Decoder R) (bs : list byte),
    sintTag bd = Some ww ->
    readb Read (Z.of_nat (octets ww)) (scratch (octets ww)) d = (Ok bs, d') ->
    let v := wrapS (bits ww) (BigEndian bs) in
    decodeValue' (S fuel) bd clen false (VInt w z, true) d
      = (Ok (false, VInt w (wrapS (bits w) v),
             Some (VInt w (wrapS (bits w) v), true)), d') /\
    (bits ww <= bits w -> wrapS (bits w) v = v) /\
    - 2 ^ (bits w - 1) <= wrapS (bits w) v < 2 ^ (bits w - 1).
Proof.
  intros fuel bd ww w z clen d d' bs Htag Hr v.
  assert (Hw : 0 < bits w) by (destruct w; reflexivity).
  assert (Hww : 0 < bits ww) by (destruct ww; reflexivity).
  split; [|split].
  - rewrite decodeValue_typed by reflexivity.
    pose proof (readUint_octets ww d d' bs Hr) as Hu.
    assert (E64 : int64 v = v)
      by (apply wrapS_wrapS; destruct ww; cbn [bits]; lia).
    subst v.
    destruct bd; vm_compute in Htag; try discriminate Htag;
      inversion Htag; subst ww; clear Htag;
      unfold decodeKind, decodeScalar; byte_tests;
      cbn [fst snd kindOf typeOf kindOfTy]; cbv iota;
      rewrite (bind_eq_Ok _ _ _ _ _ Hu);
      unfold lift, SetInt; cbn [fst snd];
      unfold int8, int16, int32; cbn [bits] in E64 |- *;
      try rewrite E64; reflexivity.
  - intros Hle. apply wrapS_wrapS. lia.
  - now apply wrapS_range.
Qed.

(** X5. A sized unsigned integer (tags 0xcc to 0xcf) decoded into an
    unsigned integer destination of any width: the destination receives the
    big-endian number that follows the tag, reduced modulo two to the power
    of its width; it is stored exactly when the destination is at least as
    wide. *)
Theorem sized_uint_into_uint :
  forall (fuel : nat) (bd : byte) (ww w : intw) (z clen : Z)
         (d d' : @Decoder R) (bs : list byte),
    uintTag bd = Some ww ->
    readb Read (Z.of_nat (octets ww)) (scratch (octets ww)) d = (Ok bs, d') ->
    let v := BigEndian bs in
    decodeValue' (S fuel) bd clen false (VUint w z, true) d
      = (Ok (false, VUint w (wrapU (bits w) v),
             Some (VUint w (wrapU (bits w) v), true)), d') /\
    (bits ww <= bits w -> wrapU (bits w) v = v) /\
    0 <= wrapU (bits w) v < 2 ^ bits w.
Proof.
  intros fuel bd ww w z clen d d' bs Htag Hr v.
  assert (Hw : 0 < bits w) by (destruct w; reflexivity).
  pose proof (readb_octets ww d d' bs Hr) as Hv. fold v in Hv.
  assert (H64 : bits ww <= 64) by (destruct ww; cbn [bits]; lia).
  assert (E64 : uint64 v = v).
  { apply wrapU_small. split; [lia|].
    apply Z.lt_le_trans with (2 ^ bits ww); [lia|].
    apply Z.pow_le_mono_r; lia. }
  split; [|split].
  - rewrite decodeValue_typed by reflexivity.
    pose proof (readUint_octets ww d d' bs Hr) as Hu. fold v in Hu.
    destruct bd; vm_compute in Htag; try discriminate Htag;
      inversion Htag; subst ww; clear Htag;
      unfold decodeKind, decodeScalar; byte_tests;
      cbn [fst snd kindOf typeOf kindOfTy]; cbv iota;
      rewrite (bind_eq_Ok _ _ _ _ _ Hu);
      unfold lift, SetUint; cbn [fst snd];
      try rewrite E64; reflexivity.
  - intros Hle. apply wrapU_small. split; [lia|].
    apply Z.lt_le_trans with (2 ^ bits ww); [lia|].
    apply Z.pow_le_mono_r; lia.
  - unfold wrapU. apply Z.mod_pos_bound. apply Z.pow_pos_nonneg; lia.
Qed.

(** X6. The scalar branch never converts between kinds.  Into a settable
    scalar destination a boolean tag is stored only by a bool, an unsigned
    sized integer only by an unsigned integer, a signed sized integer only by
    a signed integer and a float only by a float; any other pairing is a
    run-time panic of package reflect, raised after the bytes of the wire
    value have been read. *)
Theorem scalar_kind_mismatch :
  forall (fuel : nat) (bd : byte) (clen : Z) (rv : value) (d : @Decoder R),
    isScalarKind rv = true ->
    (bd = xc2 \/ bd = xc3 -> kindOf rv <> Bool ->
       decodeValue' (S fuel) bd clen false (rv, true) d
         = (Panic (ErrReflect WrongKind), d)) /\
    (forall ww bs d',
       uintTag bd = Some ww ->
       readb Read (Z.of_nat (octets ww)) (scratch (octets ww)) d = (Ok bs, d') ->
       kindOf rv <> Uint ->
       decodeValue' (S fuel) bd clen false (rv, true) d
         = (Panic (ErrReflect WrongKind), d')) /\
    (forall ww bs d',
       sintTag bd = Some ww ->
       readb Read (Z.of_nat (octets ww)) (scratch (octets ww)) d = (Ok bs, d') ->
       kindOf rv <> Int ->
       decodeValue' (S fuel) bd clen false (rv, true) d
         = (Panic (ErrReflect WrongKind), d')) /\
    (forall bs d',
       bd = xca /\ readb Read 4 (scratch 4) d = (Ok bs, d') \/
       bd = xcb /\ readb Read 8 (scratch 8) d = (Ok bs, d') ->
       kindOf rv <> Float32 -> kindOf rv <> Float64 ->
       decodeValue' (S fuel) bd clen false (rv, true) d
         = (Panic (ErrReflect WrongKind), d')).
Proof.
  intros fuel bd clen rv d Hs.
  assert (Hty : Kind_eqb (kindOf rv) Interface && IsNil rv = false)
    by (destruct rv; try discriminate Hs; reflexivity).
  split; [|split; [|split]].
  - intros [-> | ->] Hk; rewrite decodeValue_typed by exact Hty;
      destruct rv; try discriminate Hs; try (now elim Hk); reflexivity.
  - intros ww bs d' Htag Hr Hk. rewrite decodeValue_typed by exact Hty.
    pose proof (readUint_octets ww d d' bs Hr) as Hu.
    destruct bd; vm_compute in Htag; try discriminate Htag;
      inversion Htag; subst ww; clear Htag;
      unfold decodeKind, decodeScalar; byte_tests;
      destruct rv; try discriminate Hs; try (now elim Hk);
      cbn [fst snd kindOf typeOf kindOfTy]; cbv iota;
      rewrite (bind_eq_Ok _ _ _ _ _ Hu); reflexivity.
  - intros ww bs d' Htag Hr Hk. rewrite decodeValue_typed by exact Hty.
    pose proof (readUint_octets ww d d' bs Hr) as Hu.
    destruct bd; vm_compute in Htag; try discriminate Htag;
      inversion Htag; subst ww; clear Htag;
      unfold decodeKind, decodeScalar; byte_tests;
      destruct rv; try discriminate Hs; try (now elim Hk);
      cbn [fst snd kindOf typeOf kindOfTy]; cbv iota;
      rewrite (bind_eq_Ok _ _ _ _ _ Hu); reflexivity.
  - intros bs d' [[-> Hr] | [-> Hr]] Hk1 Hk2;
      rewrite decodeValue_typed by exact Hty;
      unfold decodeKind, decodeScalar; byte_tests;
      destruct rv; try discriminate Hs;
      try (now elim Hk1); try (now elim Hk2);
      cbn [fst snd kindOf typeOf kindOfTy]; cbv iota;
      unfold readUint32, readUint64;
      unfold bind at 1; unfold bind at 1; rewrite Hr; reflexivity.
Qed.

(** *** Scalars into an unset open/dynamic slot *)

(** X7. What an unset open/dynamic slot receives for a scalar.  A fixnum
    tag, positive or negative, makes it an 8-bit signed integer and reads
    nothing more; a sized integer makes it an integer of exactly the wire
    width and signedness.  The tags 0xc1, 0xc4 to 0xc9 and 0xd4 to 0xd9 are
    refused with a format fault before anything else is read, whether or not
    the slot can be set. *)
Theorem unset_interface_scalars :
  forall (fuel : nat) (clen : Z) (d : @Decoder R),
    (forall bd, inRange 0x00 0x7f bd || inRange 0xe0 0xff bd = true ->
       decodeValue' (S fuel) bd clen false (VIntf None, true) d
         = (Ok (true, VIntf (Some (VInt W8 (int8 (b2z bd)))),
                Some (VIntf (Some (VInt W8 (int8 (b2z bd)))), true)), d)) /\
    (forall bd ww bs d',
       sintTag bd = Some ww ->
       readb Read (Z.of_nat (octets ww)) (scratch (octets ww)) d = (Ok bs, d') ->
       let x := VIntf (Some (VInt ww (wrapS (bits ww) (BigEndian bs)))) in
       decodeValue' (S fuel) bd clen false (VIntf None, true) d
         = (Ok (true, x, Some (x, true)), d')) /\
    (forall bd ww bs d',
       uintTag bd = Some ww ->
       readb Read (Z.of_nat (octets ww)) (scratch (octets ww)) d = (Ok bs, d') ->
       let x := VIntf (Some (VUint ww (BigEndian bs))) in
       decodeValue' (S fuel) bd clen false (VIntf None, true) d
         = (Ok (true, x, Some (x, true)), d')) /\
    (forall bd cs, unassignedTag bd = true ->
       decodeValue' (S fuel) bd clen false (VIntf None, cs) d
         = (Panic (ErrNilDeciphered bd), d) /\
       faultOf (ErrNilDeciphered bd) = Some FormatFault).
Proof.
  intros fuel clen d. split; [|split; [|split]].
  - intros bd H. rewrite decodeValue_nil_unfold.
    destruct bd; vm_compute in H; try discriminate H; reflexivity.
  - intros bd ww bs d' Htag Hr x. subst x. rewrite decodeValue_nil_unfold.
    pose proof (readUint_octets ww d d' bs Hr) as Hu.
    destruct bd; vm_compute in Htag; try discriminate Htag;
      inversion Htag; subst ww; clear Htag;
      unfold nilIntfDecode, readDescByte; unfold bind at 1;
      unfold ret at 1; byte_tests;
      rewrite (bind_eq_Ok _ _ _ _ _ Hu); reflexivity.
  - intros bd ww bs d' Htag Hr x. subst x. rewrite decodeValue_nil_unfold.
    pose proof (readUint_octets ww d d' bs Hr) as Hu.
    destruct bd; vm_compute in Htag; try discriminate Htag;
      inversion Htag; subst ww; clear Htag;
      unfold nilIntfDecode, readDescByte; unfold bind at 1;
      unfold ret at 1; byte_tests;
      rewrite (bind_eq_Ok _ _ _ _ _ Hu); reflexivity.
  - intros bd cs H. split; [|reflexivity]. rewrite decodeValue_nil_unfold.
    destruct bd; vm_compute in H; try discriminate H; reflexivity.
Qed.

(** *** Containers of length zero *)

(** X8. A container of wire length zero leaves its destination exactly as
    it was, in every length form and whether or not the destination can be
    set: a string keeps its text, a slice its elements and its length, a nil
    slice or map stays nil, an array, a map or a record keeps its content. *)
Theorem zero_length_leaves_destination :
  forall (fuel : nat) (ct : ContainerType) (bd : byte) (rv : value)
         (cs : bool) (d d1 : @Decoder R),
    isContainerKind rv = true ->
    takes ct rv = true ->
    readContainerLen Read bd false ct d = (Ok 0, d1) ->
    decodeValue' (S fuel) bd (-1) false (rv, cs) d
      = (Ok (false, rv, Some (rv, cs)), d1).
Proof.
  intros fuel ct bd rv cs d d1 Hk Ht Hlen.
  assert (Hbd : byte_eqb bd xc0 = false).
  { destruct (byte_eqb bd xc0) eqn:E; [|reflexivity].
    apply byte_eqb_true in E. subst bd.
    destruct ct; cbv in Hlen; discriminate Hlen. }
  rewrite decodeValue_typed
    by (destruct rv; try discriminate Hk; reflexivity).
  rewrite (decodeKind_read_len _ ct bd 0 rv cs d d1 Ht Hk (Z.le_refl 0) Hbd Hlen).
  unfold decodeKind. rewrite Hbd.
  destruct rv; try discriminate Hk; reflexivity.
Qed.

(** *** Raw bytes into byte slices *)

(** A successful [readb] does not depend on what the buffer held. *)
Lemma readb_indep numbytes bs1 bs2 (d d' : @Decoder R) x :
  Z.of_nat (length bs1) = numbytes -> length bs2 = length bs1 ->
  readb Read numbytes bs1 d = (Ok x, d') ->
  readb Read numbytes bs2 d = (Ok x, d').
Proof.
  intros Hn Hl. unfold readb. rewrite Hl.
  destruct (rRead Read (r d) (length bs1)) as [[data e] r1] eqn:E1.
  pose proof (rRead_length _ _ _ _ _ E1) as L1.
  destruct e; [discriminate|].
  destruct (Z.of_nat (length data) =? numbytes) eqn:En; cbn [negb].
  - apply Z.eqb_eq in En. intros H. inversion H; subst x d'. clear H.
    unfold overwrite. rewrite !skipn_all2 by lia. reflexivity.
  - rewrite !length_skipn, Hl.
    destruct (rRead Read r1 (length bs1 - length data)) as [[data2 e2] r2]
      eqn:E2.
    pose proof (rRead_length _ _ _ _ _ E2) as L2.
    destruct e2; [discriminate|].
    destruct (Z.of_nat (length data2) =? numbytes - Z.of_nat (length data))
      eqn:En2; cbn [negb]; [|discriminate].
    apply Z.eqb_eq in En2. intros H. inversion H; subst x d'. clear H.
    unfold overwrite.
    rewrite !skipn_all2 by (rewrite length_skipn; lia). reflexivity.
Qed.

Lemma raw_len_not_nil bd (d d1 : @Decoder R) L :
  readContainerLen Read bd false ContainerRawBytes d = (Ok L, d1) ->
  byte_eqb bd xc0 = false.
Proof.
  intros H. destruct (byte_eqb bd xc0) eqn:E; [|reflexivity].
  apply byte_eqb_true in E. subst bd. cbv in H. discriminate H.
Qed.

Lemma list_len_not_nil bd (d d1 : @Decoder R) L :
  readContainerLen Read bd false ContainerList d = (Ok L, d1) ->
  byte_eqb bd xc0 = false.
Proof.
  intros H. destruct (byte_eqb bd xc0) eqn:E; [|reflexivity].
  apply byte_eqb_true in E. subst bd. cbv in H. discriminate H.
Qed.

(** X9. Raw bytes of wire length [L > 0] into a byte slice.  A slice that
    holds fewer than [L] bytes (a nil slice too) is replaced by a new slice
    of exactly [L] bytes, length and capacity, whatever capacity it had; a
    slice that holds [L] bytes or more keeps its length and its backing
    array, whose first [L] bytes are overwritten and whose other bytes are
    left alone, and this needs no settable destination. *)
Theorem byte_slice_decode :
  forall (fuel : nat) (bd : byte) (s : option (list value * nat)) (cs : bool)
         (d d1 d2 : @Decoder R) (L : Z) (bs : list byte),
    readContainerLen Read bd false ContainerRawBytes d = (Ok L, d1) ->
    0 < L ->
    readb Read L (repeat x00 (Z.to_nat L)) d1 = (Ok bs, d2) ->
    let rv := VSlice (TUint W8) s in
    (Len rv < L ->
       let fresh := VSlice (TUint W8) (Some (map valueOfByte bs, Z.to_nat L)) in
       decodeValue' (S fuel) bd (-1) false (rv, true) d
         = (Ok (false, fresh, Some (fresh, true)), d2) /\
       Len fresh = L /\ Cap fresh = L) /\
    (L <= Len rv ->
       forall b n, s = Some (b, n) -> (n <= length b)%nat ->
         let kept := VSlice (TUint W8)
                       (Some (map valueOfByte bs ++ skipn (Z.to_nat L) b, n)) in
         decodeValue' (S fuel) bd (-1) false (rv, cs) d
           = (Ok (false, kept, Some (kept, cs)), d2) /\
         Len kept = Len rv /\ Cap kept = Cap rv).
Proof.
  intros fuel bd s cs d d1 d2 L bs Hlen HL Hr rv.
  pose proof (raw_len_not_nil _ _ _ _ Hlen) as Hbd.
  pose proof (readb_length _ _ _ _ _ Hr) as Hbs. rewrite repeat_length in Hbs.
  assert (Hunf : forall c,
    decodeKind' (decodeValue' fuel) bd (-1) (rv, c) d
    = decodeRawBytes Read L (rv, c) d1).
  { intros c. unfold decodeKind. rewrite Hbd. subst rv.
    cbn [fst kindOf typeOf kindOfTy]. cbv iota. unfold decodeSeq.
    cbn [fst kindOf typeOf kindOfTy Kind_eqb orb isByteSliceTyp].
    change (-1 <? 0) with true. cbv iota.
    rewrite (bind_eq_Ok _ _ _ _ _ Hlen).
    replace (L =? 0) with false by (symmetry; apply Z.eqb_neq; lia).
    reflexivity. }
  split.
  - intros Hshort fresh. split; [|split].
    + rewrite decodeValue_typed by reflexivity. rewrite Hunf.
      unfold decodeRawBytes. subst rv.
      cbn [fst snd kindOf typeOf kindOfTy Kind_eqb isByteSliceTyp].
      cbv iota.
      assert (E : (Z.of_nat (length (Bytes (VSlice (TUint W8) s))) <? L) = true).
      { apply Z.ltb_lt. unfold Bytes. cbn [Len] in Hshort.
        destruct s as [[b n]|]; [|simpl; lia].
        rewrite length_map, length_firstn. lia. }
      rewrite E. unfold bind at 1. unfold bind at 1.
      unfold lift, rSet. cbn [fst snd assign]. unfold ret at 1.
      unfold bind at 1. rewrite Hr. unfold ret. unfold storeBytes.
      rewrite map_repeat.
      rewrite skipn_all2 by (rewrite repeat_length; lia).
      rewrite app_nil_r, repeat_length. reflexivity.
    + subst fresh. cbn [Len]. lia.
    + subst fresh. cbn [Cap]. rewrite length_map. lia.
  - intros Hlong b n -> Hwf kept. subst rv. cbn [Len] in Hlong.
    split; [|split].
    + rewrite decodeValue_typed by reflexivity. rewrite Hunf.
      unfold decodeRawBytes.
      cbn [fst snd kindOf typeOf kindOfTy Kind_eqb isByteSliceTyp].
      cbv iota.
      assert (Hlb : length (Bytes (VSlice (TUint W8) (Some (b, n)))) = n).
      { unfold Bytes. rewrite length_map, length_firstn. lia. }
      rewrite Hlb.
      replace (Z.of_nat n <? L) with false by (symmetry; apply Z.ltb_ge; lia).
      assert (Hgo : forall bs0, length bs0 = Z.to_nat L ->
        bind (readb Read L bs0)
          (fun bs1 =>
             if false
             then lift (SetString
                     (storeBytes (VSlice (TUint W8) (Some (b, n))) bs1, cs) bs1)
             else ret (storeBytes (VSlice (TUint W8) (Some (b, n))) bs1)) d1
        = (Ok kept, d2)).
      { intros bs0 Hl0.
        rewrite (bind_eq_Ok _ _ _ _ _
                   (readb_indep L (repeat x00 (Z.to_nat L)) bs0 d1 d2 bs
                      ltac:(rewrite repeat_length; lia)
                      ltac:(rewrite repeat_length; exact Hl0) Hr)).
        unfold ret, storeBytes. subst kept. rewrite Hbs. reflexivity. }
      destruct (L <? Z.of_nat n) eqn:E2.
      * unfold bind at 1. unfold ret at 1.
        rewrite Hgo; [reflexivity|].
        rewrite length_firstn, Hlb. apply Z.ltb_lt in E2. lia.
      * unfold bind at 1. unfold ret at 1.
        rewrite Hgo; [reflexivity|].
        rewrite Hlb. apply Z.ltb_ge in E2. lia.
    + reflexivity.
    + subst kept. cbn [Cap]. rewrite length_app, length_map, length_skipn.
      lia.
Qed.

(** *** Sequences into slices the decoder makes *)

(** X10. A sequence of wire length [L > 0] into a nil slice (not a byte
    slice).  The slice must be settable: an unsettable one is a run-time
    panic before any element is read.  After a successful decode the slice
    has exactly [L] elements and capacity [L]. *)
Theorem nil_slice_decode :
  forall (fuel : nat) (bd : byte) (e : ty) (d d1 : @Decoder R) (L : Z),
    isByteSliceTyp (TSlice e) = false ->
    readContainerLen Read bd false ContainerList d = (Ok L, d1) ->
    0 < L ->
    decodeValue' (S fuel) bd (-1) false (VSlice e None, false) d
      = (Panic (ErrReflect NotSettable), d1) /\
    forall w rv' rvr d',
      decodeValue' (S fuel) bd (-1) false (VSlice e None, true) d
        = (Ok (w, rv', rvr), d') ->
      exists b', rv' = VSlice e (Some (b', Z.to_nat L)) /\
        length b' = Z.to_nat L /\ Len rv' = L /\ Cap rv' = L.
Proof.
  intros fuel bd e d d1 L Hty Hlen HL.
  pose proof (list_len_not_nil _ _ _ _ Hlen) as Hbd.
  assert (Hunf : forall c,
    decodeKind' (decodeValue' fuel) bd (-1) (VSlice e None, c) d
    = decodeList Read (decodeValue' fuel) L (VSlice e None, c) d1).
  { intros c. unfold decodeKind. rewrite Hbd.
    cbn [fst kindOf typeOf kindOfTy]. cbv iota. unfold decodeSeq.
    cbn [fst kindOf typeOf kindOfTy Kind_eqb orb]. rewrite Hty.
    change (-1 <? 0) with true. cbv iota.
    rewrite (bind_eq_Ok _ _ _ _ _ Hlen).
    replace (L =? 0) with false by (symmetry; apply Z.eqb_neq; lia).
    reflexivity. }
  split.
  - rewrite decodeValue_typed by reflexivity. rewrite Hunf. reflexivity.
  - intros w rv' rvr d' H.
    rewrite decodeValue_typed in H by reflexivity. rewrite Hunf in H.
    destruct (decodeList Read (decodeValue' fuel) L (VSlice e None, true) d1)
      as [[x|p|] d2] eqn:Hk; try discriminate H.
    inversion H; subst; clear H.
    unfold decodeList in Hk. apply bind_Ok in Hk.
    destruct Hk as (v1 & d3 & E & Hk).
    unfold sizeList in E. cbn [fst snd] in E.
    apply lift_Ok in E. destruct E as [E ->].
    unfold rSet in E. cbn [fst snd assign] in E.
    inversion E; subst v1; clear E. unfold makeSlice in Hk.
    apply forM_decodeElem_slice in Hk. destruct Hk as (b' & -> & Hl & _).
    rewrite repeat_length in Hl.
    exists b'. split; [reflexivity|]. split; [exact Hl|].
    cbn [Len Cap]. lia.
Qed.

Lemma isListTag_not_raw bd : isListTag bd = true -> isRawTag bd = false.
Proof. destruct bd; vm_compute; congruence. Qed.

Lemma unset_interface_sequence_shape fuel bd (d d1 : @Decoder R) L o :
  isListTag bd = true ->
  readContainerLen Read bd false ContainerList d = (Ok L, d1) ->
  dam d = DecoderContainer o ->
  SliceType o = None ->
  forall w rv' rvr d',
    decodeValue' (S (S fuel)) bd (-1) false (VIntf None, true) d
      = (Ok (w, rv', rvr), d') ->
    exists b',
      rv' = VIntf (Some (VSlice TInterface (Some (b', Z.to_nat L)))) /\
      length b' = Z.to_nat L /\ rvr = Some (rv', true).
Proof.
  intros Htag Hlen Ho Hst w rv' rvr d' H.
  pose proof (readContainerLen_bounds _ _ _ _ _ _ Hlen) as HL.
  pose proof (list_len_not_nil _ _ _ _ Hlen) as Hbd.
  rewrite (decodeValue_nil_read_len _ ContainerList bd L true d d1 Htag
             (proj1 HL) Hlen) in H.
  rewrite decodeValue_nil_unfold in H.
  rewrite (nilIntfDecode_cat ContainerList) in H by exact Htag.
  rewrite nilIntfContainer_known in H by lia.
  rewrite (readContainerLen_dam _ _ _ _ _ Hlen), Ho in H.
  unfold DecoderContainer in H. rewrite Hst in H.
  unfold MakeSlice, intfSliceTyp in H.
  cbn [option_map fst rSet snd] in H. cbv iota in H.
  change (assign (VIntf None) (makeSlice TInterface L))
    with (VIntf (Some (makeSlice TInterface L))) in H.
  cbn [nhandled nelem nslot nbd nlen] in H.
  unfold decodeKind at 1 in H. rewrite Hbd in H.
  cbn [fst kindOf typeOf kindOfTy] in H. cbv iota in H.
  unfold decodePtr in H. cbn [fst] in H.
  destruct (bind _ _ d1) as [[x|p|] d2] eqn:Hk; try discriminate H.
  inversion H; subst; clear H.
  apply bind_Ok in Hk. destruct Hk as ([[w0 x0] r0] & d3 & Hk & Hx).
  apply ret_Ok in Hx. destruct Hx as [<- _].
  rewrite decodeValue_typed in Hk by reflexivity.
  destruct (decodeKind' (decodeValue' fuel) bd L
              (makeSlice TInterface L, false) d1) as [[y|p|] d4] eqn:Hy;
    try discriminate Hk.
  inversion Hk; subst; clear Hk.
  unfold makeSlice in Hy. unfold decodeKind in Hy. rewrite Hbd in Hy.
  cbn [fst kindOf typeOf kindOfTy] in Hy. cbv iota in Hy.
  unfold decodeSeq in Hy.
  cbn [fst kindOf typeOf kindOfTy Kind_eqb orb isByteSliceTyp] in Hy.
  replace (L <? 0) with false in Hy by (symmetry; apply Z.ltb_ge; lia).
  unfold bind at 1 in Hy. unfold ret at 1 in Hy.
  destruct (L =? 0) eqn:EL.
  - apply ret_Ok in Hy. destruct Hy as [<- _].
    eexists. split; [reflexivity|]. split; [apply repeat_length|reflexivity].
  - unfold decodeList in Hy. apply bind_Ok in Hy.
    destruct Hy as (v1 & d5 & E & Hy).
    unfold sizeList in E. cbn [fst snd Len] in E.
    cbv iota beta in E.
    replace (Z.of_nat (Z.to_nat L) <? L) with false in E
      by (symmetry; apply Z.ltb_ge; lia).
    apply ret_Ok in E. destruct E as [<- _].
    apply forM_decodeElem_slice in Hy. destruct Hy as (b' & -> & Hl & _).
    rewrite repeat_length in Hl. exists b'.
    split; [reflexivity|]. split; [exact Hl|reflexivity].
Qed.

(** X11. A sequence met in an unset open/dynamic slot, under a
    [SimpleDecoderContainerResolver] without a [SliceType]: after a
    successful decode the slot holds a [[]interface{}] of exactly the wire
    length, elements and capacity; for the wire length zero that is an empty
    slice, not a nil one. *)
Theorem unset_interface_sequence :
  forall (fuel : nat) (bd : byte) (d d1 : @Decoder R) (L : Z)
         (o : SimpleDecoderContainerResolver),
    isListTag bd = true ->
    readContainerLen Read bd false ContainerList d = (Ok L, d1) ->
    dam d = DecoderContainer o ->
    SliceType o = None ->
    forall w rv' rvr d',
      decodeValue' (S (S fuel)) bd (-1) false (VIntf None, true) d
        = (Ok (w, rv', rvr), d') ->
      exists b',
        rv' = VIntf (Some (VSlice TInterface (Some (b', Z.to_nat L)))) /\
        length b' = Z.to_nat L /\
        Len (VSlice TInterface (Some (b', Z.to_nat L))) = L /\
        Cap (VSlice TInterface (Some (b', Z.to_nat L))) = L.
Proof.
  intros fuel bd d d1 L o Htag Hlen Ho Hst w rv' rvr d' H.
  pose proof (readContainerLen_bounds _ _ _ _ _ _ Hlen) as HL.
  destruct (unset_interface_sequence_shape fuel bd d d1 L o Htag Hlen Ho Hst
              w rv' rvr d' H) as (b' & -> & Hl & _).
  exists b'. split; [reflexivity|]. split; [exact Hl|].
  cbn [Len Cap]. lia.
Qed.

(** *** Raw bytes in the elements of an open/dynamic container *)

Lemma nilIntfDecode_readDesc b clen sc rv0 (d d1 : @Decoder R) bd :
  readb Read 1 (scratch 1) d = (Ok [bd], d1) ->
  nilIntfDecode Read b clen true sc rv0 d
  = nilIntfDecode Read bd clen false sc rv0 d1.
Proof.
  intros H. unfold nilIntfDecode, readDescByte.
  unfold bind at 1. unfold bind at 1. rewrite H. reflexivity.
Qed.

(** The raw-bytes tag of an element or value that is an unset open/dynamic
    slot: the length is read, the slot is left for the resolver. *)
Lemma nilIntfDecode_raw_elem b rvj (d d1 d2 : @Decoder R) bd L :
  readb Read 1 (scratch 1) d = (Ok [bd], d1) ->
  isRawTag bd = true ->
  readContainerLen Read bd false ContainerRawBytes d1 = (Ok L, d2) ->
  nilIntfDecode Read b (-1) true false rvj d
  = (Ok (mkNilres (fst rvj) false bd ContainerRawBytes L false), d2).
Proof.
  intros Hr Hraw Hlen. rewrite (nilIntfDecode_readDesc _ _ _ _ _ _ _ Hr).
  rewrite nilIntfDecode_raw by exact Hraw.
  unfold nilIntfContainer. change (-1 <? 0) with true. cbv iota.
  rewrite (bind_eq_Ok _ _ _ _ _ Hlen). reflexivity.
Qed.

(** The decode into the container the resolver made for raw bytes: a string
    behind a pointer, or a byte slice of the wire length. *)
Lemma decode_resolved_raw fuel bd L (d2 d3 : @Decoder R) bs (str : bool) :
  isRawTag bd = true ->
  (L = 0 /\ bs = [] /\ d3 = d2 \/
   0 < L /\ readb Read L (repeat x00 (Z.to_nat L)) d2 = (Ok bs, d3)) ->
  exists slot,
    decodeValueT_ (decodeValue' (S (S fuel))) bd L false
      (if str then VPtr TString (Some (VString []))
       else makeSlice (TUint W8) L, false) false true false d2
    = (Ok (slot,
           Some (if str then VString bs
                 else VSlice (TUint W8)
                        (Some (map valueOfByte bs, Z.to_nat L)))), d3).
Proof.
  intros Hraw Hbody. pose proof (isRawTag_not_nil _ Hraw) as Hbd.
  unfold decodeValueT_. unfold bind at 1. destruct str.
  - rewrite decodeValue_typed by reflexivity.
    unfold decodeKind at 1. rewrite Hbd.
    cbn [fst snd]. change (kindOf (VPtr TString (Some (VString []))))
      with Ptr. cbv iota.
    unfold decodePtr. cbn [fst snd]. unfold bind, ret.
    rewrite decodeValue_typed by reflexivity.
    unfold decodeKind at 1. rewrite Hbd.
    cbn [fst snd]. change (kindOf (VString [])) with String. cbv iota.
    rewrite (decodeSeq_string _ _ _ _ _ _ _ _ Hbody).
    destruct (L =? 0) eqn:EL.
    + apply Z.eqb_eq in EL. subst L.
      destruct Hbody as [(_ & -> & ->) | (HL & _)]; [|lia].
      eexists. reflexivity.
    + eexists. reflexivity.
  - rewrite decodeValue_typed by reflexivity.
    unfold decodeKind at 1. rewrite Hbd. cbn [fst snd].
    change (kindOf (makeSlice (TUint W8) L)) with Slice. cbv iota.
    rewrite (decodeSeq_fresh_bytes _ _ _ _ _ _ _ Hbody).
    unfold bind, ret. eexists. reflexivity.
Qed.

(** X12. A raw-bytes element met in an unset slot of a [[]interface{}] or of
    an array of [interface{}], under a [SimpleDecoderContainerResolver].  In
    a slice the element becomes a string when [BytesStringSliceElement] is
    set and a byte slice of the wire length when it is not, whatever the two
    other flags are.  In an array it becomes a byte slice whatever the three
    flags are. *)
Theorem raw_bytes_element :
  forall (fuel : nat) (elems : list value) (n : nat) (j : Z)
         (d d1 d2 d3 : @Decoder R) (bd : byte) (L : Z) (bs : list byte)
         (o : SimpleDecoderContainerResolver),
    0 <= j < Z.of_nat n ->
    nth (Z.to_nat j) elems (VIntf None) = VIntf None ->
    readb Read 1 (scratch 1) d = (Ok [bd], d1) ->
    isRawTag bd = true ->
    readContainerLen Read bd false ContainerRawBytes d1 = (Ok L, d2) ->
    (L = 0 /\ bs = [] /\ d3 = d2 \/
     0 < L /\ readb Read L (repeat x00 (Z.to_nat L)) d2 = (Ok bs, d3)) ->
    dam d = DecoderContainer o ->
    let bytes := VSlice (TUint W8) (Some (map valueOfByte bs, Z.to_nat L)) in
    (forall cs,
       decodeElem Read (decodeValue' (S (S fuel))) cs TInterface j
         (VSlice TInterface (Some (elems, n))) d
       = (Ok (VSlice TInterface
                (Some (update elems (Z.to_nat j)
                         (VIntf (Some (if BytesStringSliceElement o
                                       then VString bs else bytes))), n))),
          d3)) /\
    (n = length elems ->
       decodeElem Read (decodeValue' (S (S fuel))) true TInterface j
         (VArray TInterface elems) d
       = (Ok (VArray TInterface
                (update elems (Z.to_nat j) (VIntf (Some bytes)))), d3)).
Proof.
  intros fuel elems n j d d1 d2 d3 bd L bs o Hj Hnil Hr Hraw Hlen Hbody
    Ho bytes.
  assert (Hdam : dam d2 = DecoderContainer o).
  { rewrite (readContainerLen_dam _ _ _ _ _ Hlen).
    rewrite (readb_dam _ _ _ _ _ Hr). exact Ho. }
  assert (Hin : (0 <=? j) && (j <? Z.of_nat n) = true).
  { apply andb_true_iff. split; [apply Z.leb_le | apply Z.ltb_lt]; lia. }
  split.
  - intros cs. unfold decodeElem. unfold bind at 1.
    unfold lift at 1, Index. cbn [fst snd]. rewrite Hin, Hnil.
    cbn [isIntfTyp IsNil fst andb]. cbv iota.
    rewrite (bind_eq_Ok _ _ _ _ _
               (nilIntfDecode_raw_elem x00 (VIntf None, true) _ _ _ _ _
                  Hr Hraw Hlen)).
    cbn [nhandled negb nlen nct nbd nslot fst snd]. cbv iota.
    unfold bind at 1. unfold getDam at 1. rewrite Hdam.
    unfold bind at 1. unfold lift at 1. unfold DecoderContainer.
    change (kindOf (VSlice TInterface (Some (elems, n)))) with Slice.
    cbn [Kind_eqb andb orb].
    destruct (decode_resolved_raw fuel bd L d2 d3 bs
                (BytesStringSliceElement o) Hraw Hbody) as (slot & Hd).
    destruct (BytesStringSliceElement o); cbn [andb orb]; cbv iota.
    + unfold bind at 1. rewrite Hd. reflexivity.
    + unfold MakeSlice, byteSliceTyp. cbv iota.
      unfold bind at 1. rewrite Hd. reflexivity.
  - intros ->. unfold decodeElem. unfold bind at 1.
    unfold lift at 1, Index. cbn [fst snd]. rewrite Hin, Hnil.
    cbn [isIntfTyp IsNil fst andb]. cbv iota.
    rewrite (bind_eq_Ok _ _ _ _ _
               (nilIntfDecode_raw_elem x00 (VIntf None, true) _ _ _ _ _
                  Hr Hraw Hlen)).
    cbn [nhandled negb nlen nct nbd nslot fst snd]. cbv iota.
    unfold bind at 1. unfold getDam at 1. rewrite Hdam.
    unfold bind at 1. unfold lift at 1. unfold DecoderContainer.
    change (kindOf (VArray TInterface elems)) with Array.
    cbn [Kind_eqb andb orb].
    destruct (decode_resolved_raw fuel bd L d2 d3 bs false Hraw Hbody)
      as (slot & Hd).
    unfold MakeSlice, byteSliceTyp. cbv iota.
    unfold bind at 1. rewrite Hd. reflexivity.
Qed.

(** *** Pairs a map does not take *)

Lemma decodeScalar_unsettable bd x (d d' : @Decoder R) v :
  decodeScalar Read float32to64 float64to32 bd (x, false) d <> (Ok v, d').
Proof.
  intros H. unfold decodeScalar in H. minv H;
    unfold SetBool, SetInt, SetUint, SetFloat in *; cbn [snd] in *;
    discriminate.
Qed.

Lemma decodeKind_scalar_unsettable dv bd clen x (d d' : @Decoder R) v :
  isScalarKind x = true ->
  decodeKind' dv bd clen (x, false) d <> (Ok v, d').
Proof.
  intros Hs H. unfold decodeKind in H.
  destruct (byte_eqb bd xc0); [discriminate H|].
  destruct x; try discriminate Hs; cbn [fst kindOf typeOf kindOfTy] in H;
    cbv iota in H; exact (decodeScalar_unsettable _ _ _ _ _ H).
Qed.

Lemma decodeValue_scalar_unsettable fuel bd clen rd x (d d' : @Decoder R) res :
  holdsScalar x = true ->
  decodeValue' (S (S fuel)) bd clen rd (x, false) d <> (Ok res, d').
Proof.
  intros Hs H.
  change (decodeValue' (S (S fuel))) with
    (decodeValue_ Read float32to64 float64to32 (decodeValue' (S fuel))) in H.
  unfold decodeValue_ in H.
  apply bind_Ok in H. destruct H as (bd1 & d1 & _ & H).
  assert (Hty : Kind_eqb (kindOf x) Interface && IsNil x = false)
    by (destruct x as [| | | | | | | | | |[c|]| |]; try discriminate Hs;
        reflexivity).
  cbn [fst snd] in H. rewrite Hty in H.
  apply bind_Ok in H. destruct H as (y & d2 & H & _).
  destruct x as [| | | | | | | | | |[c|]| |]; try discriminate Hs;
    try exact (decodeKind_scalar_unsettable _ _ _ _ _ _ _ Hs H).
  cbn [holdsScalar] in Hs. unfold decodeKind in H.
  destruct (byte_eqb bd1 xc0); [discriminate H|].
  cbn [fst kindOf typeOf kindOfTy] in H. cbv iota in H.
  unfold decodePtr in H. cbn [fst] in H.
  apply bind_Ok in H. destruct H as ([[w0 x0] r0] & d3 & H & _).
  rewrite decodeValue_typed in H
    by (destruct c; try discriminate Hs; reflexivity).
  destruct (decodeKind' (decodeValue' fuel) bd1 clen (c, false) d1)
    as [[z|p|] d4] eqn:Hk; try discriminate H.
  exact (decodeKind_scalar_unsettable _ _ _ _ _ _ _ Hs Hk).
Qed.

(** X13. A pair whose key the map already holds.  When the value stored
    under the key is a scalar, or an open/dynamic value that holds a scalar,
    the round of the pair loop never succeeds: the value is decoded into the
    result of [MapIndex], which cannot be set.  With the nil tag or a boolean
    tag as the wire value, or a positive fixnum for an integer, the outcome
    is the run-time panic of package reflect, right after the tag. *)
Theorem map_existing_scalar_entry :
  forall (fuel : nat) (j : Z) (kt vt : ty) (m : list (value * value))
         (d d0 : @Decoder R) (slot k x : value),
    decodeValueT_ (decodeValue' (S (S fuel))) x00 (-1) true (zero kt, true)
      true true false d = (Ok (slot, Some k), d0) ->
    hashable (assign (zero kt) (coerceKey kt k)) = true ->
    mapLookup m (assign (zero kt) (coerceKey kt k)) = Some x ->
    holdsScalar x = true ->
    (forall rv' d',
       decodeEntry Read (decodeValue' (S (S fuel))) j (VMap kt vt (Some m)) d
         <> (Ok rv', d')) /\
    (forall bd d1,
       readb Read 1 (scratch 1) d0 = (Ok [bd], d1) ->
       isScalarKind x = true ->
       bd = xc0 \/ bd = xc2 \/ bd = xc3 \/
       inRange 0x00 0x7f bd = true /\ (kindOf x = Int \/ kindOf x = Uint) ->
       decodeEntry Read (decodeValue' (S (S fuel))) j (VMap kt vt (Some m)) d
         = (Panic (ErrReflect NotSettable), d1)).
Proof.
  intros fuel j kt vt m d d0 slot k x Hk Hh Hm Hs.
  assert (Hnil : isIntfTyp vt && IsNil x = false).
  { destruct x as [| | | | | | | | | |[c|]| |]; try discriminate Hs;
      cbn [IsNil]; apply andb_false_r. }
  assert (Hunf : decodeEntry Read (decodeValue' (S (S fuel))) j
                   (VMap kt vt (Some m)) d
    = bind (bind (decodeValueT_ (decodeValue' (S (S fuel))) x00 (-1) true
                    (x, false) true true false)
              (fun p => let '(_, rvn) := p in ret rvn))
        (fun rvv =>
           ret (VMap kt vt
                  (Some (match rvv with
                         | Some y => mapStore m
                                       (assign (zero kt) (coerceKey kt k))
                                       (assign (zero vt) y)
                         | None => mapDelete m
                                     (assign (zero kt) (coerceKey kt k))
                         end)))) d0).
  { unfold decodeEntry. rewrite (bind_eq_Ok _ _ _ _ _ Hk). cbv iota beta.
    rewrite Hh, Hm. cbn [negb fst]. rewrite Hnil. reflexivity. }
  split.
  - intros rv' d' H. rewrite Hunf in H.
    apply bind_Ok in H. destruct H as (rvv & d2 & H & _).
    apply bind_Ok in H. destruct H as ([s1 rvn] & d3 & H & _).
    unfold decodeValueT_ in H.
    apply bind_Ok in H. destruct H as (res & d4 & H & _).
    exact (decodeValue_scalar_unsettable _ _ _ _ _ _ _ _ Hs H).
  - intros bd d1 Hr Hsc Hbd. rewrite Hunf.
    unfold decodeValueT_. unfold bind at 1. unfold bind at 1.
    unfold bind at 1.
    rewrite (decodeValue_readDesc _ _ _ _ _ _ _ Hr).
    rewrite decodeValue_typed
      by (destruct x; try discriminate Hsc; reflexivity).
    destruct Hbd as [-> | [-> | [-> | [Hbd Hkx]]]];
      try (destruct x; try discriminate Hsc; reflexivity).
    destruct bd; vm_compute in Hbd; try discriminate Hbd;
      destruct x; try discriminate Hsc;
      try (destruct Hkx as [Hkx | Hkx]; discriminate Hkx); reflexivity.
Qed.

(** *** The size of a decoded map *)

Lemma length_mapStore m k v : (length (mapStore m k v) <= S (length m))%nat.
Proof.
  induction m as [|[k' v'] m IH]; simpl; [lia|].
  destruct (valEq k k'); simpl; lia.
Qed.

Lemma length_mapDelete m k : (length (mapDelete m k) <= length m)%nat.
Proof.
  induction m as [|[k' v'] m IH]; simpl; [lia|].
  destruct (valEq k k'); simpl; lia.
Qed.

Lemma forM_decodeEntry_size dv kt vt n (m : list (value * value))
      (d d' : @Decoder R) v' :
  forM n 0 (decodeEntry Read dv) (VMap kt vt (Some m)) d = (Ok v', d') ->
  exists m', v' = VMap kt vt (Some m') /\ (length m' <= length m + n)%nat.
Proof.
  intros H.
  apply (forM_inv (fun k s => exists m', s = VMap kt vt (Some m') /\
            (length m' <= length m + Z.to_nat k)%nat)) in H.
  - destruct H as (m' & -> & Hl). exists m'. split; [reflexivity|lia].
  - exists m. split; [reflexivity|]. simpl. lia.
  - intros j0 s0 d0 s1 d1 Hj (m0 & -> & Hl) Hb.
    apply decodeEntry_key in Hb.
    destruct Hb as (slot & rvk & d2 & _ & m' & -> & Hm).
    exists m'. split; [reflexivity|].
    destruct Hm as [-> | (x & ->)].
    + pose proof (length_mapDelete m0
                    (assign (zero kt) (coerceKey kt rvk))). lia.
    + pose proof (length_mapStore m0
                    (assign (zero kt) (coerceKey kt rvk)) x). lia.
Qed.

(** X14. A map of wire length [L > 0] into a map destination.  A nil map
    that cannot be set is a run-time panic before any pair is read.  After a
    successful decode the destination is a map that is not nil, with at most
    [L] entries more than it had. *)
Theorem map_decode_size :
  forall (fuel : nat) (bd : byte) (kt vt : ty)
         (mo : option (list (value * value))) (cs : bool)
         (d d1 : @Decoder R) (L : Z),
    byte_eqb bd xc0 = false ->
    readContainerLen Read bd false ContainerMap d = (Ok L, d1) ->
    0 < L ->
    (mo = None -> cs = false ->
       decodeValue' (S fuel) bd (-1) false (VMap kt vt mo, cs) d
         = (Panic (ErrReflect NotSettable), d1)) /\
    forall w rv' rvr d',
      decodeValue' (S fuel) bd (-1) false (VMap kt vt mo, cs) d
        = (Ok (w, rv', rvr), d') ->
      exists m', rv' = VMap kt vt (Some m') /\
        (length m' <= length (entries (VMap kt vt mo)) + Z.to_nat L)%nat.
Proof.
  intros fuel bd kt vt mo cs d d1 L Hbd Hlen HL.
  assert (Hunf :
    decodeKind' (decodeValue' fuel) bd (-1) (VMap kt vt mo, cs) d
    = bind (match mo with
            | None => lift (rSet (VMap kt vt mo, cs)
                              (Some (VMap kt vt (Some []))))
            | Some _ => ret (VMap kt vt mo)
            end)
        (fun v => forM (Z.to_nat L) 0
                    (decodeEntry Read (decodeValue' fuel)) v) d1).
  { unfold decodeKind. rewrite Hbd.
    cbn [fst kindOf typeOf kindOfTy]. cbv iota. unfold decodeMap.
    change (-1 <? 0) with true. cbv iota.
    rewrite (bind_eq_Ok _ _ _ _ _ Hlen).
    replace (L =? 0) with false by (symmetry; apply Z.eqb_neq; lia).
    cbn [fst]. destruct mo; reflexivity. }
  split.
  - intros -> ->. rewrite decodeValue_typed by reflexivity.
    rewrite Hunf. reflexivity.
  - intros w rv' rvr d' H.
    rewrite decodeValue_typed in H by reflexivity. rewrite Hunf in H.
    destruct (bind _ _ d1) as [[x|p|] d2] eqn:Hk; try discriminate H.
    inversion H; subst; clear H.
    apply bind_Ok in Hk. destruct Hk as (v1 & d3 & E & Hk).
    destruct mo as [m|].
    + apply ret_Ok in E. destruct E as [<- _].
      apply forM_decodeEntry_size in Hk. exact Hk.
    + apply lift_Ok in E. destruct E as [E _].
      unfold rSet in E. cbn [fst snd assign] in E.
      destruct cs; [|discriminate E]. inversion E; subst v1; clear E.
      apply forM_decodeEntry_size in Hk. exact Hk.
Qed.

(** *** Records and timestamps *)

Lemma bytes_eqb_eq (a b : list byte) : bytes_eqb a b = true -> a = b.
Proof.
  revert b; induction a as [|x a IH]; intros [|y b] H; try discriminate H;
    [reflexivity|].
  cbn [bytes_eqb] in H. apply andb_true_iff in H. destruct H as [H1 H2].
  apply byte_eqb_true in H1. apply IH in H2. congruence.
Qed.

Lemma getForEncName_setField fs name x other :
  bytes_eqb other name = false ->
  getForEncName (setField fs name x) other = getForEncName fs other.
Proof.
  intros Hne. induction fs as [|[n v] fs IH]; [reflexivity|].
  cbn [setField getForEncName].
  destruct (bytes_eqb n name) eqn:E1; cbn [getForEncName].
  - apply bytes_eqb_eq in E1. subst n.
    destruct (bytes_eqb name other) eqn:E2; [|reflexivity].
    apply bytes_eqb_eq in E2. subst other.
    assert (bytes_eqb name name = true)
      by (clear; induction name as [|c l IHl]; [reflexivity|];
          cbn [bytes_eqb]; now rewrite byte_eqb_refl).
    congruence.
  - destruct (bytes_eqb n other); [reflexivity | exact IH].
Qed.

Lemma map_fst_setField fs name x :
  map fst (setField fs name x) = map fst fs.
Proof.
  induction fs as [|[n v] fs IH]; [reflexivity|].
  cbn [setField]. destruct (bytes_eqb n name); cbn [map fst]; congruence.
Qed.

(** X15. One round of the field loop of a record.  The wire name is decoded
    as a string; a name the record has no field for is a field fault, raised
    before the value is looked at; otherwise the round changes the field of
    that name and no other field. *)
Theorem record_field_round :
  forall (dv : decoder) (cs : bool) (j : Z)
         (fs : list (list byte * value)) (d d1 : @Decoder R)
         (w : bool) (name : list byte) (r0 : option hval),
    dv x00 (-1) true (VString [], true) d = (Ok (w, VString name, r0), d1) ->
    (getForEncName fs name = None ->
       decodeField dv cs j (VStruct fs) d
         = (Panic (ErrInvalidEncField name), d1) /\
       faultOf (ErrInvalidEncField name) = Some FieldFault) /\
    (forall rv' d',
       decodeField dv cs j (VStruct fs) d = (Ok rv', d') ->
       exists x,
         rv' = VStruct (setField fs name x) /\
         map fst (setField fs name x) = map fst fs /\
         forall other, bytes_eqb other name = false ->
           getForEncName (setField fs name x) other
           = getForEncName fs other).
Proof.
  intros dv cs j fs d d1 w name r0 Hk. split.
  - intros Hnone. split; [|reflexivity].
    unfold decodeField. rewrite (bind_eq_Ok _ _ _ _ _ Hk). cbv iota beta.
    now rewrite Hnone.
  - intros rv' d' H. unfold decodeField in H.
    rewrite (bind_eq_Ok _ _ _ _ _ Hk) in H. cbv iota beta in H.
    destruct (getForEncName fs name) as [f|]; [|discriminate H].
    apply bind_Ok in H. destruct H as ([x o] & d2 & _ & H).
    apply ret_Ok in H. destruct H as [<- _].
    exists x. split; [reflexivity|]. split.
    + apply map_fst_setField.
    + intros other Hne. now apply getForEncName_setField.
Qed.

(** X16. A timestamp is decoded as a sequence of at most two 64-bit
    integers, seconds and nanoseconds.  A sequence of more than two elements
    is a type fault, raised before any element is read.  A sequence of wire
    length zero sets the destination to the Unix epoch, whatever it held. *)
Theorem timestamp_decode :
  forall (fuel : nat) (bd : byte) (t : option (Z * Z))
         (d d1 : @Decoder R) (L : Z),
    readContainerLen Read bd false ContainerList d = (Ok L, d1) ->
    (2 < L ->
       forall cs,
         decodeValue' (S (S fuel)) bd (-1) false (VTime t, cs) d
           = (Panic (ErrArrayLen 2 L), d1) /\
         faultOf (ErrArrayLen 2 L) = Some TypeFault) /\
    (L = 0 ->
       decodeValue' (S (S fuel)) bd (-1) false (VTime t, true) d
         = (Ok (false, VTime (Some (0, 0)), Some (VTime (Some (0, 0)), true)),
            d1)).
Proof.
  intros fuel bd t d d1 L Hlen.
  pose proof (list_len_not_nil _ _ _ _ Hlen) as Hbd.
  assert (Hunf : forall cs,
    decodeKind' (decodeValue' (S fuel)) bd (-1) (VTime t, cs) d
    = match (if L =? 0
             then (Ok (VArray (TInt W64) [VInt W64 0; VInt W64 0]), d1)
             else decodeList Read (decodeValue' fuel) L
                    (VArray (TInt W64) [VInt W64 0; VInt W64 0], true) d1)
      with
      | (Ok (VArray _ [VInt _ sec; VInt _ nsec]), d2) =>
          lift (rSet (VTime t, cs) (Some (VTime (Some (timeUnix sec nsec)))))
            d2
      | (Ok _, d2) => (Panic (ErrReflect WrongKind), d2)
      | (Panic p, d2) => (Panic p, d2)
      | (OutOfFuel, d2) => (OutOfFuel, d2)
      end).
  { intros cs. unfold decodeKind at 1. rewrite Hbd.
    cbn [fst kindOf typeOf kindOfTy]. cbv iota. unfold decodeStruct.
    cbn [fst typeOf isTimeTyp]. cbv iota. unfold bind at 1.
    rewrite decodeValue_typed by reflexivity.
    unfold decodeKind. rewrite Hbd.
    cbn [fst kindOf typeOf kindOfTy]. cbv iota. unfold decodeSeq.
    cbn [fst kindOf typeOf kindOfTy Kind_eqb orb length isByteSliceTyp].
    change (-1 <? 0) with true. cbv iota.
    rewrite (bind_eq_Ok _ _ _ _ _ Hlen).
    destruct (L =? 0); [reflexivity|].
    destruct (decodeList Read (decodeValue' fuel) L
                (VArray (TInt W64) [VInt W64 0; VInt W64 0], true) d1)
      as [[x|p|] d2]; try reflexivity.
    destruct x as [| | | | | | |e0 [|[| w1 z1 | | | | | | | | | | |]
                   [|[| w2 z2 | | | | | | | | | | |] [|]]]| | | | |];
      reflexivity. }
  split.
  - intros Hlong cs. split; [|reflexivity].
    rewrite decodeValue_typed by reflexivity. rewrite Hunf.
    replace (L =? 0) with false by (symmetry; apply Z.eqb_neq; lia).
    unfold decodeList, sizeList. cbn [fst snd Len length].
    replace (Z.of_nat 2 <? L) with true by (symmetry; apply Z.ltb_lt; lia).
    reflexivity.
  - intros ->. rewrite decodeValue_typed by reflexivity. rewrite Hunf.
    reflexivity.
Qed.

(** *** Helpers for the decodes from a byte buffer *)

(** A string destination, once the wire length is known to be positive:
    the outcome is the outcome of the one [readb] of the payload. *)
Lemma string_decode_gen fuel bd s (d d1 : @Decoder R) L :
  readContainerLen Read bd false ContainerRawBytes d = (Ok L, d1) ->
  0 < L ->
  decodeValue' (S fuel) bd (-1) false (VString s, true) d
  = match readb Read L (repeat x00 (Z.to_nat L)) d1 with
    | (Ok bs, d2) => (Ok (false, VString bs, Some (VString bs, true)), d2)
    | (Panic e, d2) => (Panic e, d2)
    | (OutOfFuel, d2) => (OutOfFuel, d2)
    end.
Proof.
  intros Hlen HL. pose proof (raw_len_not_nil _ _ _ _ Hlen) as Hbd.
  rewrite decodeValue_typed by reflexivity.
  unfold decodeKind. rewrite Hbd. cbn [fst kindOf typeOf kindOfTy].
  cbv iota. unfold decodeSeq.
  cbn [fst kindOf typeOf kindOfTy Kind_eqb orb].
  change (-1 <? 0) with true. cbv iota.
  rewrite (bind_eq_Ok _ _ _ _ _ Hlen).
  replace (L =? 0) with false by (symmetry; apply Z.eqb_neq; lia).
  cbv iota. unfold decodeRawBytes.
  cbn [fst snd kindOf typeOf kindOfTy Kind_eqb isByteSliceTyp length].
  change (Z.of_nat 0) with 0.
  replace (0 <? L) with true by (symmetry; apply Z.ltb_lt; lia).
  cbv iota. unfold bind at 1. unfold ret at 1. unfold bind at 1.
  destruct (readb Read L (repeat x00 (Z.to_nat L)) d1) as [[bs|e|] d2];
    reflexivity.
Qed.

(** [DecodeValue] on a pointer to a destination that is not an unset
    open/dynamic slot. *)
Lemma DecodeValue_typed fuel e x (d : @Decoder R) :
  Kind_eqb (kindOf x) Interface && IsNil x = false ->
  DecodeValue Read float32to64 float64to32 (S fuel) (VPtr e (Some x)) d
  = match decodeValue' (S fuel) x00 (-1) true (x, true) d with
    | (Ok (_, x', _), d') => (Decoded (VPtr e (Some x')), d')
    | (Panic p, d') => (Failed (ErrPanicked p), d')
    | (OutOfFuel, d') => (Unfinished, d')
    end.
Proof.
  intros Hty. unfold DecodeValue, decodeValueT, decodeValueT_.
  unfold bind at 1.
  destruct (decodeValue' (S fuel) x00 (-1) true (x, true) d)
    as [[[[w x'] rv]|p|] d'] eqn:E; try reflexivity.
  simpl decodeValue in E. unfold decodeValue_ in E.
  apply bind_Ok in E. destruct E as (bd & d1 & _ & E).
  cbn [fst snd] in E. rewrite Hty in E.
  apply bind_Ok in E. destruct E as (y & d2 & _ & E).
  apply ret_Ok in E. destruct E as [E _]. inversion E; subst; clear E.
  reflexivity.
Qed.

(** *** Pointers *)

(** X17. Pointers are transparent at any depth.  Decoding a tag other than
    nil into a value behind one or more non-nil pointers is decoding it into
    the value itself, which can always be set, whether or not the outermost
    pointer can; the pointers stay as they are around the decoded value, and
    a panic of the inner decode is the panic of the whole. *)
Theorem pointers_are_transparent :
  forall (ts : list ty) (fuel : nat) (bd : byte) (clen : Z) (x : value)
         (cs : bool) (d : @Decoder R),
    ts <> [] ->
    byte_eqb bd xc0 = false ->
    decodeValue' (length ts + fuel) bd clen false (pointersTo ts x, cs) d
    = match decodeValue' fuel bd clen false (x, true) d with
      | (Ok (_, x', _), d') =>
          (Ok (false, pointersTo ts x', Some (pointersTo ts x', cs)), d')
      | (Panic p, d') => (Panic p, d')
      | (OutOfFuel, d') => (OutOfFuel, d')
      end.
Proof.
  intros ts fuel bd clen x cs d Hne Hbd. revert cs Hne.
  induction ts as [|t ts IH]; intros cs Hne; [now elim Hne|].
  cbn [length pointersTo Nat.add].
  rewrite decodeValue_typed by reflexivity.
  unfold decodeKind. rewrite Hbd. cbn [fst kindOf typeOf kindOfTy].
  cbv iota. unfold decodePtr. cbn [fst]. unfold bind, ret.
  destruct ts as [|t' ts'].
  - cbn [length pointersTo Nat.add].
    destruct (decodeValue' fuel bd clen false (x, true) d)
      as [[[[w x'] o]|p|] d']; reflexivity.
  - rewrite (IH true) by discriminate.
    destruct (decodeValue' fuel bd clen false (x, true) d)
      as [[[[w x'] o]|p|] d']; reflexivity.
Qed.

(** *** Maps the resolver makes, and raw bytes as map values *)

Lemma map_len_not_nil_tag bd : isMapTag bd = true -> byte_eqb bd xc0 = false.
Proof. destruct bd; vm_compute; congruence. Qed.

Lemma unset_interface_map_shape fuel bd (d d1 : @Decoder R) L o :
  isMapTag bd = true ->
  readContainerLen Read bd false ContainerMap d = (Ok L, d1) ->
  dam d = DecoderContainer o ->
  MapType o = None ->
  forall w rv' rvr d',
    decodeValue' (S (S fuel)) bd (-1) false (VIntf None, true) d
      = (Ok (w, rv', rvr), d') ->
    exists m',
      rv' = VIntf (Some (VMap TInterface TInterface (Some m'))) /\
      (length m' <= Z.to_nat L)%nat /\ rvr = Some (rv', true).
Proof.
  intros Htag Hlen Ho Hmt w rv' rvr d' H.
  pose proof (readContainerLen_bounds _ _ _ _ _ _ Hlen) as HL.
  pose proof (map_len_not_nil_tag _ Htag) as Hbd.
  rewrite (decodeValue_nil_read_len _ ContainerMap bd L true d d1 Htag
             (proj1 HL) Hlen) in H.
  rewrite decodeValue_nil_unfold in H.
  rewrite (nilIntfDecode_cat ContainerMap) in H by exact Htag.
  rewrite nilIntfContainer_known in H by lia.
  rewrite (readContainerLen_dam _ _ _ _ _ Hlen), Ho in H.
  unfold DecoderContainer in H. rewrite Hmt in H.
  unfold MakeMap, mapIntfIntfTyp in H.
  cbn [option_map fst rSet snd assign] in H. cbv iota in H.
  cbn [nhandled nelem nslot nbd nlen] in H.
  unfold decodeKind at 1 in H. rewrite Hbd in H.
  cbn [fst kindOf typeOf kindOfTy] in H. cbv iota in H.
  unfold decodePtr in H. cbn [fst] in H.
  destruct (bind _ _ d1) as [[x|p|] d2] eqn:Hk; try discriminate H.
  inversion H; subst; clear H.
  apply bind_Ok in Hk. destruct Hk as ([[w0 x0] r0] & d3 & Hk & Hx).
  apply ret_Ok in Hx. destruct Hx as [<- _].
  rewrite decodeValue_typed in Hk by reflexivity.
  destruct (decodeKind' (decodeValue' fuel) bd L
              (VMap TInterface TInterface (Some []), false) d1)
    as [[y|p|] d4] eqn:Hy; try discriminate Hk.
  inversion Hk; subst; clear Hk.
  unfold decodeKind in Hy. rewrite Hbd in Hy.
  cbn [fst kindOf typeOf kindOfTy] in Hy. cbv iota in Hy.
  unfold decodeMap in Hy. cbn [fst] in Hy.
  replace (L <? 0) with false in Hy by (symmetry; apply Z.ltb_ge; lia).
  unfold bind at 1 in Hy. unfold ret at 1 in Hy.
  destruct (L =? 0) eqn:EL.
  - apply ret_Ok in Hy. destruct Hy as [<- _].
    exists []. split; [reflexivity|]. split; [simpl; lia|reflexivity].
  - unfold bind at 1 in Hy. unfold ret at 1 in Hy.
    apply forM_decodeEntry_size in Hy. destruct Hy as (m' & -> & Hl).
    exists m'. split; [reflexivity|]. split; [simpl in Hl; lia|reflexivity].
Qed.

(** X18. A map met in an unset open/dynamic slot, under a
    [SimpleDecoderContainerResolver] without a [MapType]: after a successful
    decode the slot holds a [map[interface{}]interface{}] that is not nil,
    also for the wire length zero, with at most as many entries as the wire
    length. *)
Theorem unset_interface_map :
  forall (fuel : nat) (bd : byte) (d d1 : @Decoder R) (L : Z)
         (o : SimpleDecoderContainerResolver),
    isMapTag bd = true ->
    readContainerLen Read bd false ContainerMap d = (Ok L, d1) ->
    dam d = DecoderContainer o ->
    MapType o = None ->
    forall w rv' rvr d',
      decodeValue' (S (S fuel)) bd (-1) false (VIntf None, true) d
        = (Ok (w, rv', rvr), d') ->
      exists m',
        rv' = VIntf (Some (VMap TInterface TInterface (Some m'))) /\
        (length m' <= Z.to_nat L)%nat.
Proof.
  intros fuel bd d d1 L o Htag Hlen Ho Hmt w rv' rvr d' H.
  destruct (unset_interface_map_shape fuel bd d d1 L o Htag Hlen Ho Hmt
              w rv' rvr d' H) as (m' & -> & Hl & _).
  exists m'. split; [reflexivity|exact Hl].
Qed.

(** X19. A raw-bytes value of a pair whose key the map does not hold yet,
    in a map with open/dynamic values under a
    [SimpleDecoderContainerResolver]: the value stored under the key is a
    string when [BytesStringMapValue] is set and a byte slice of the wire
    length when it is not, whatever the two other flags are. *)
Theorem raw_bytes_map_value :
  forall (fuel : nat) (j : Z) (kt : ty) (m : list (value * value))
         (d d0 d1 d2 d3 : @Decoder R) (slot k : value) (bd : byte) (L : Z)
         (bs : list byte) (o : SimpleDecoderContainerResolver),
    decodeValueT_ (decodeValue' (S (S fuel))) x00 (-1) true (zero kt, true)
      true true false d = (Ok (slot, Some k), d0) ->
    hashable (assign (zero kt) (coerceKey kt k)) = true ->
    mapLookup m (assign (zero kt) (coerceKey kt k)) = None ->
    readb Read 1 (scratch 1) d0 = (Ok [bd], d1) ->
    isRawTag bd = true ->
    readContainerLen Read bd false ContainerRawBytes d1 = (Ok L, d2) ->
    (L = 0 /\ bs = [] /\ d3 = d2 \/
     0 < L /\ readb Read L (repeat x00 (Z.to_nat L)) d2 = (Ok bs, d3)) ->
    dam d0 = DecoderContainer o ->
    decodeEntry Read (decodeValue' (S (S fuel))) j
      (VMap kt TInterface (Some m)) d
    = (Ok (VMap kt TInterface
             (Some (mapStore m (assign (zero kt) (coerceKey kt k))
                      (VIntf (Some
                         (if BytesStringMapValue o then VString bs
                          else VSlice (TUint W8)
                                 (Some (map valueOfByte bs, Z.to_nat L)))))))),
       d3).
Proof.
  intros fuel j kt m d d0 d1 d2 d3 slot k bd L bs o Hk Hh Hm Hr Hraw Hlen
    Hbody Ho.
  assert (Hdam : dam d2 = DecoderContainer o).
  { rewrite (readContainerLen_dam _ _ _ _ _ Hlen).
    rewrite (readb_dam _ _ _ _ _ Hr). exact Ho. }
  unfold decodeEntry. rewrite (bind_eq_Ok _ _ _ _ _ Hk). cbv iota beta.
  rewrite Hh, Hm. cbn [negb fst snd zero isIntfTyp IsNil andb]. cbv iota.
  unfold bind at 1. unfold bind at 1.
  rewrite (nilIntfDecode_raw_elem x00 (VIntf None, true) _ _ _ _ _
             Hr Hraw Hlen).
  cbn [nhandled negb nlen nct nbd nslot fst snd]. cbv iota.
  unfold bind at 1. unfold getDam at 1. rewrite Hdam.
  unfold bind at 1. unfold lift at 1. unfold DecoderContainer.
  change (kindOf (VMap kt TInterface (Some m))) with Map.
  cbn [Kind_eqb andb orb].
  destruct (decode_resolved_raw fuel bd L d2 d3 bs
              (BytesStringMapValue o) Hraw Hbody) as (slot' & Hd).
  destruct (BytesStringMapValue o); cbn [andb orb]; cbv iota.
  - unfold bind at 1. rewrite Hd. reflexivity.
  - unfold MakeSlice, byteSliceTyp. cbv iota.
    unfold bind at 1. rewrite Hd. reflexivity.
Qed.

(** *** Sequences and maps as keys *)

(** The key of a pair, decoded into a fresh open/dynamic slot, when the wire
    value is a sequence or a map: the open/dynamic value that holds the
    container. *)
Lemma container_key_shape fuel bd (d d1 : @Decoder R) o :
  readb Read 1 (scratch 1) d = (Ok [bd], d1) ->
  isListTag bd = true \/ isMapTag bd = true ->
  dam d = DecoderContainer o ->
  SliceType o = None -> MapType o = None ->
  forall slot rvk d0,
    decodeValueT_ (decodeValue' (S (S fuel))) x00 (-1) true (VIntf None, true)
      true true false d = (Ok (slot, rvk), d0) ->
    exists c, rvk = Some (VIntf (Some c)) /\ hashable c = false.
Proof.
  intros Hr Htag Ho Hst Hmt slot rvk d0 H.
  assert (Hdam : dam d1 = DecoderContainer o)
    by (rewrite (readb_dam _ _ _ _ _ Hr); exact Ho).
  unfold decodeValueT_ in H. apply bind_Ok in H.
  destruct H as ([[w rv'] rvr] & d2 & Hk & H).
  rewrite (decodeValue_readDesc _ _ _ _ _ _ _ Hr) in Hk.
  assert (Hshape : exists c, rv' = VIntf (Some c) /\ hashable c = false /\
                     rvr = Some (rv', true) /\ w = true).
  { pose proof Hk as Hk0. rewrite decodeValue_nil_unfold in Hk0.
    destruct Htag as [Htag | Htag].
    - rewrite (nilIntfDecode_cat ContainerList) in Hk0 by exact Htag.
      unfold nilIntfContainer in Hk0. change (-1 <? 0) with true in Hk0.
      cbv iota in Hk0. unfold bind at 1 in Hk0.
      destruct (readContainerLen Read bd false ContainerList d1)
        as [[L|p|] d3] eqn:Hlen; try discriminate Hk0.
      destruct (unset_interface_sequence_shape fuel bd d1 d3 L o Htag Hlen
                  Hdam Hst w rv' rvr d2 Hk) as (b' & -> & _ & ->).
      eexists. split; [reflexivity|]. split; [reflexivity|].
      split; [reflexivity|].
      clear Hk. unfold bind at 1 in Hk0. unfold getDam at 1 in Hk0.
      destruct (bind _ _ d3) as [[n|p|] d4]; try discriminate Hk0.
      destruct (nhandled n); [|destruct (nelem n)].
      + inversion Hk0. reflexivity.
      + destruct (Elem (nslot n)).
        * destruct (decodeKind' _ _ _ _ d4) as [[x|p|] d5];
            inversion Hk0; reflexivity.
        * destruct (byte_eqb (nbd n) xc0); inversion Hk0; reflexivity.
      + destruct (decodeKind' _ _ _ _ d4) as [[x|p|] d5];
          inversion Hk0; reflexivity.
    - rewrite (nilIntfDecode_cat ContainerMap) in Hk0 by exact Htag.
      unfold nilIntfContainer in Hk0. change (-1 <? 0) with true in Hk0.
      cbv iota in Hk0. unfold bind at 1 in Hk0.
      destruct (readContainerLen Read bd false ContainerMap d1)
        as [[L|p|] d3] eqn:Hlen; try discriminate Hk0.
      destruct (unset_interface_map_shape fuel bd d1 d3 L o Htag Hlen
                  Hdam Hmt w rv' rvr d2 Hk) as (m' & -> & _ & ->).
      eexists. split; [reflexivity|]. split; [reflexivity|].
      split; [reflexivity|].
      clear Hk. unfold bind at 1 in Hk0. unfold getDam at 1 in Hk0.
      destruct (bind _ _ d3) as [[n|p|] d4]; try discriminate Hk0.
      destruct (nhandled n); [|destruct (nelem n)].
      + inversion Hk0. reflexivity.
      + destruct (Elem (nslot n)).
        * destruct (decodeKind' _ _ _ _ d4) as [[x|p|] d5];
            inversion Hk0; reflexivity.
        * destruct (byte_eqb (nbd n) xc0); inversion Hk0; reflexivity.
      + destruct (decodeKind' _ _ _ _ d4) as [[x|p|] d5];
          inversion Hk0; reflexivity. }
  destruct Hshape as (c & -> & Hc & -> & ->).
  cbn [andb orb negb] in H. cbv iota in H.
  change (Kind_eqb (kindOf (VIntf (Some c))) Ptr) with false in H.
  cbn [andb] in H. cbv iota in H.
  apply bind_Ok in H. destruct H as (s' & d4 & _ & H).
  apply ret_Ok in H. destruct H as [H _]. inversion H; subst.
  exists c. split; [reflexivity | exact Hc].
Qed.

(** X20. A sequence or a map as the key of a pair, in a map with
    open/dynamic keys under a [SimpleDecoderContainerResolver] with neither
    [SliceType] nor [MapType]: the round of the pair loop never succeeds.
    When the key itself decodes, the outcome is the run-time panic of an
    unhashable key, raised right after the key, before the value is looked
    at. *)
Theorem map_container_key_refused :
  forall (fuel : nat) (j : Z) (vt : ty) (m : list (value * value))
         (d d1 : @Decoder R) (bd : byte)
         (o : SimpleDecoderContainerResolver),
    readb Read 1 (scratch 1) d = (Ok [bd], d1) ->
    isListTag bd = true \/ isMapTag bd = true ->
    dam d = DecoderContainer o ->
    SliceType o = None -> MapType o = None ->
    (forall rv' d',
       decodeEntry Read (decodeValue' (S (S fuel))) j
         (VMap intfTyp vt (Some m)) d <> (Ok rv', d')) /\
    (forall slot rvk d0,
       decodeValueT_ (decodeValue' (S (S fuel))) x00 (-1) true
         (VIntf None, true) true true false d = (Ok (slot, rvk), d0) ->
       decodeEntry Read (decodeValue' (S (S fuel))) j
         (VMap intfTyp vt (Some m)) d
       = (Panic (ErrReflect Unhashable), d0)).
Proof.
  intros fuel j vt m d d1 bd o Hr Htag Ho Hst Hmt.
  assert (Hpanic : forall slot rvk d0,
    decodeValueT_ (decodeValue' (S (S fuel))) x00 (-1) true
      (VIntf None, true) true true false d = (Ok (slot, rvk), d0) ->
    decodeEntry Read (decodeValue' (S (S fuel))) j
      (VMap intfTyp vt (Some m)) d
    = (Panic (ErrReflect Unhashable), d0)).
  { intros slot rvk d0 Hk.
    destruct (container_key_shape fuel bd d d1 o Hr Htag Ho Hst Hmt
                slot rvk d0 Hk) as (c & -> & Hc).
    unfold decodeEntry. cbn [zero intfTyp].
    rewrite (bind_eq_Ok _ _ _ _ _ Hk). cbv iota beta.
    change (hashable (assign (VIntf None)
                        (coerceKey intfTyp (VIntf (Some c)))))
      with (hashable c).
    rewrite Hc. reflexivity. }
  split; [|exact Hpanic].
  intros rv' d' H. pose proof H as H0. unfold decodeEntry in H0.
  apply bind_Ok in H0. destruct H0 as ([slot rvk] & d0 & Hk & _).
  cbn [zero intfTyp] in Hk. rewrite (Hpanic slot rvk d0 Hk) in H.
  discriminate H.
Qed.

End Properties.

(** ** Properties of decoding from a byte buffer *)

Ltac small_Z L :=
  destruct L as [|L|L]; try lia;
  repeat (destruct L as [L|L|]; try lia).

Lemma readContainerLen_forms ct cutoff mask tag16 tag32 L body dam0 :
  getContainerByteDesc ct = Ok (cutoff, mask, tag16, tag32) ->
  0 <= L < cutoff ->
  let done := (Ok L, mkDecoder body dam0) in
  readContainerLen bufRead (hd x00 (lenInline mask L)) false ct
    (mkDecoder (tl (lenInline mask L) ++ body) dam0) = done /\
  readContainerLen bufRead tag16 false ct
    (mkDecoder (tl (len16 tag16 L) ++ body) dam0) = done /\
  readContainerLen bufRead tag32 false ct
    (mkDecoder (tl (len32 tag32 L) ++ body) dam0) = done /\
  isTagOf ct (hd x00 (lenInline mask L)) = true /\
  isTagOf ct tag16 = true /\ isTagOf ct tag32 = true.
Proof.
  intros Hd HL.
  destruct ct; inversion Hd; subst; clear Hd; small_Z L;
    repeat split; reflexivity.
Qed.


Section BufferProperties.
Variables float32to64 float64to32 : Z -> Z.

Lemma readb_buf1 (b : byte) (rest : list byte) (dam0 : Resolver) :
  readb bufRead 1 (scratch 1) (mkDecoder (b :: rest) dam0)
  = (Ok [b], mkDecoder rest dam0).
Proof. reflexivity. Qed.

(** C3. For every container category and every length [L] below the inline
    cutoff, the inline form, the 16-bit form and the 32-bit form of [L],
    each followed by the same body, decode to the same result (value or
    panic, and rest of the buffer) in every destination that takes the
    category: strings and byte slices for raw bytes, slices, arrays and
    timestamps for sequences, maps and records for maps, an unset
    open/dynamic slot under the default resolver for all three, also behind
    pointers and set interfaces.  So does [Unmarshal]. *)
Theorem C3_encoding_width_independence :
  forall (fuel : nat) (ct : ContainerType) (cutoff : Z)
         (inlineMask tag16 tag32 : byte) (L : Z) (body : list byte)
         (dam0 : Resolver) (rv : value) (cs : bool) (t : ty),
    getContainerByteDesc ct = Ok (cutoff, inlineMask, tag16, tag32) ->
    0 <= L < cutoff ->
    takesAt ct rv = true ->
    (wrappers rv <= fuel)%nat ->
    (bottom rv = VIntf None -> exists o, dam0 = DecoderContainer o) ->
    let run hdr :=
      decodeValue bufRead float32to64 float64to32 (S fuel) x00 (-1) true
        (rv, cs) (mkDecoder (hdr ++ body) dam0) in
    let unmarshal hdr :=
      Unmarshal float32to64 float64to32 (S fuel) (hdr ++ body)
        (VPtr t (Some rv)) (Some dam0) in
    run (lenInline inlineMask L) = run (len16 tag16 L) /\
    run (lenInline inlineMask L) = run (len32 tag32 L) /\
    unmarshal (lenInline inlineMask L) = unmarshal (len16 tag16 L) /\
    unmarshal (lenInline inlineMask L) = unmarshal (len32 tag32 L).
Proof.
  intros fuel ct cutoff mask tag16 tag32 L body dam0 rv cs t Hd HL Ht Hw Hres
    run unmarshal.
  destruct (readContainerLen_forms ct cutoff mask tag16 tag32 L body dam0 Hd HL)
    as (HlI & Hl16 & Hl32 & HtI & Ht16 & Ht32).
  assert (Hrun : forall c,
    let go hdr := decodeValue bufRead float32to64 float64to32 (S fuel) x00
                    (-1) true (rv, c) (mkDecoder (hdr ++ body) dam0) in
    go (lenInline mask L) = go (len16 tag16 L) /\
    go (lenInline mask L) = go (len32 tag32 L)).
  { intros c go. subst go. cbv beta.
    unfold lenInline, len16, len32 in *. cbn [hd tl app] in *.
    rewrite !(decodeValue_readDesc _ _ _ _ _ _ _ _ _ _ (readb_buf1 _ _ _)).
    split.
    - apply (decodeValue_forms bufRead float32to64 float64to32 ct L _ _ _ _
               (mkDecoder body dam0) (proj1 HL) HtI Ht16 HlI Hl16 fuel rv c
               Ht Hw Hres).
    - apply (decodeValue_forms bufRead float32to64 float64to32 ct L _ _ _ _
               (mkDecoder body dam0) (proj1 HL) HtI Ht32 HlI Hl32 fuel rv c
               Ht Hw Hres). }
  split; [exact (proj1 (Hrun cs))|]. split; [exact (proj2 (Hrun cs))|].
  subst unmarshal. cbv beta.
  unfold Unmarshal, Decode, DecodeValue, decodeValueT, decodeValueT_, NewDecoder.
  unfold bind. destruct (Hrun true) as [H16 H32]. cbv beta zeta in H16, H32.
  rewrite <- H16, <- H32. split; reflexivity.
Qed.
End BufferProperties.

(** ** Concrete decodes *)

(** C1 (the code departs from the claim).  The reserved tag 0xc1 is not
    refused by [readContainerLen] for the map category: it passes the inline
    test against the mask 0x80 and is read as the inline length 65, whatever
    the reader.  So a map destination decodes [0xc1] followed by 65 pairs
    into a map of 65 entries, and [0xc1] alone fails only when the first key
    cannot be read. *)
Theorem C1_reserved_tag_read_as_fixmap :
  (forall (R : Type) (Read : R -> nat -> list byte * option ioerr * R)
          (d : @Decoder R),
     readContainerLen Read xc1 false ContainerMap d = (Ok 65, d)) /\
  (exists m,
     Unmarshal floatId floatId 2 (xc1 :: fixmap65)
       (VPtr (TMap (TInt W0) (TInt W0)) (Some nilIntMap)) None
     = Decoded (VPtr (TMap (TInt W0) (TInt W0))
                  (Some (VMap (TInt W0) (TInt W0) (Some m)))) /\
     length m = 65%nat) /\
  Unmarshal floatId floatId 2 [xc1]
    (VPtr (TMap (TInt W0) (TInt W0)) (Some nilIntMap)) None
  = Failed (ErrPanicked (ErrRead EOF)).
Proof.
  split; [|split].
  - intros R Read d. apply reserved_tag_length_map.
  - eexists. split; vm_compute; reflexivity.
  - vm_compute. reflexivity.
Qed.

(** C7 (the code departs from the claim).  A sequence of length 0 leaves a
    fixed array as it was: the zero-length exit of [decodeValue] comes before
    the loop that resets the trailing slots.  Decoding [0x90] into the array
    [7, 8, 9] yields [7, 8, 9], not [0, 0, 0]. *)
Theorem C7_empty_sequence_leaves_array :
  (forall (R : Type) (Read : R -> nat -> list byte * option ioerr * R)
          (float32to64 float64to32 : Z -> Z) (fuel : nat) (e : ty)
          (l : list value) (cs : bool) (d : @Decoder R),
     decodeValue Read float32to64 float64to32 (S fuel) x90 (-1) false
       (VArray e l, cs) d
     = (Ok (false, VArray e l, Some (VArray e l, cs)), d)) /\
  Unmarshal floatId floatId 2 [x90]
    (VPtr (TArray 3 (TInt W0)) (Some (intArray [7; 8; 9]))) None
  = Decoded (VPtr (TArray 3 (TInt W0)) (Some (intArray [7; 8; 9]))) /\
  Unmarshal floatId floatId 2 [x92; x01; x02]
    (VPtr (TArray 3 (TInt W0)) (Some (intArray [7; 8; 9]))) None
  = Decoded (VPtr (TArray 3 (TInt W0)) (Some (intArray [1; 2; 0]))).
Proof.
  split; [|split].
  - intros. apply empty_sequence_leaves_array.
  - vm_compute. reflexivity.
  - vm_compute. reflexivity.
Qed.

(** Counterexample to C2 as stated: a slice of length 3 that decodes the
    one-element sequence [0x91 0x01] still has length 3 afterwards, not 1;
    and it keeps length 3 after the empty sequence [0x90]. *)
Lemma C2_counterexample :
  Unmarshal floatId floatId 2 [x91; x01]
    (VPtr (TSlice (TInt W0)) (Some (intSlice [7; 8; 9] 3))) None
  = Decoded (VPtr (TSlice (TInt W0)) (Some (intSlice [1; 8; 9] 3))) /\
  Len (intSlice [1; 8; 9] 3) <> 1 /\
  Unmarshal floatId floatId 2 [x90]
    (VPtr (TSlice (TInt W0)) (Some (intSlice [7; 8; 9] 3))) None
  = Decoded (VPtr (TSlice (TInt W0)) (Some (intSlice [7; 8; 9] 3))) /\
  Len (intSlice [7; 8; 9] 3) <> 0.
Proof.
  split; [vm_compute; reflexivity|]. split; [vm_compute; discriminate|].
  split; [vm_compute; reflexivity|]. vm_compute; discriminate.
Qed.

(** Instance of C2: a slice of length 1 and capacity 4 decodes the
    three-element sequence [0x93 1 2 3] in place: the three values land at
    the indices 0, 1 and 2, in that order, and the fourth slot of the
    backing array is left alone. *)
Lemma C2_witness :
  exists b',
    intSlice [1; 2; 3; 10] 3
    = VSlice (TInt W0) (Some (b', Nat.max 1 (Z.to_nat 3))) /\
    (3 <= Z.of_nat (length (ints [7; 8; 9; 10])) ->
       length b' = length (ints [7; 8; 9; 10]) /\
       forall i, (Z.to_nat 3 <= i)%nat ->
         nth_error b' i = nth_error (ints [7; 8; 9; 10]) i) /\
    (Z.of_nat (length (ints [7; 8; 9; 10])) < 3 -> length b' = Z.to_nat 3) /\
    exists b1,
      (3 <= Z.of_nat (length (ints [7; 8; 9; 10])) ->
         b1 = ints [7; 8; 9; 10]) /\
      (Z.of_nat (length (ints [7; 8; 9; 10])) < 3 ->
         b1 = firstn 1 (ints [7; 8; 9; 10])
              ++ repeat (zero (TInt W0)) (Z.to_nat 3 - 1)) /\
      roundsDecoded bufRead (decodeValue bufRead floatId floatId 1)
        (TInt W0) (Nat.max 1 (Z.to_nat 3)) (Z.to_nat 3) 0 b1
        (mkDecoder [x01; x02; x03] defaultDam) b'
        (mkDecoder [] defaultDam).
Proof.
  apply (C2_slice_length_after_decode bufRead floatId floatId 1 x93 (TInt W0)
           (ints [7; 8; 9; 10]) 1 true
           (mkDecoder [x01; x02; x03] defaultDam)
           (mkDecoder [x01; x02; x03] defaultDam)
           (mkDecoder [] defaultDam) 3 false
           (intSlice [1; 2; 3; 10] 3)
           (Some (intSlice [1; 2; 3; 10] 3, true)));
    [reflexivity | simpl; lia | reflexivity | reflexivity].
Defined.

(** Instance of C3: a sequence of two fixnums into an unset open/dynamic
    slot, in the three length forms. *)
Lemma C3_witness :
  let run hdr :=
    decodeValue bufRead floatId floatId 2 x00 (-1) true (VIntf None, true)
      (mkDecoder (hdr ++ [x01; x02]) defaultDam) in
  let unmarshal hdr :=
    Unmarshal floatId floatId 2 (hdr ++ [x01; x02])
      (VPtr TInterface (Some (VIntf None))) (Some defaultDam) in
  run (lenInline x90 2) = run (len16 xdc 2) /\
  run (lenInline x90 2) = run (len32 xdd 2) /\
  unmarshal (lenInline x90 2) = unmarshal (len16 xdc 2) /\
  unmarshal (lenInline x90 2) = unmarshal (len32 xdd 2).
Proof.
  apply (C3_encoding_width_independence floatId floatId 1 ContainerList 16
           x90 xdc xdd 2 [x01; x02] defaultDam (VIntf None) true TInterface);
    [reflexivity | lia | reflexivity | simpl; lia
    | intros _; exists DefaultDecoderContainerResolver; reflexivity].
Defined.

(** Instance of C4: the 16-bit sequence tag followed by [0x01 0x02] is the
    length 258. *)
Lemma C4_witness :
  readContainerLen bufRead xdc false ContainerList
    (mkDecoder [x01; x02; xc0] defaultDam)
  = (Ok 258, mkDecoder [xc0] defaultDam).
Proof.
  destruct (C4_readContainerLen_order bufRead xdc ContainerList 16 x90 xdc xdd
              (mkDecoder [x01; x02; xc0] defaultDam) eq_refl) as [H _].
  destruct (H eq_refl) as [Hok _].
  destruct (Hok [x01; x02] (mkDecoder [xc0] defaultDam) eq_refl)
    as (hi & lo & E & Hlen).
  injection E as <- <-. exact Hlen.
Defined.

(** Instance of C5: the tag 0xff into an int16 stores -1. *)
Lemma C5_witness :
  decodeValue bufRead floatId floatId 1 xff (-1) false (VInt W16 7, true)
    (mkDecoder [] defaultDam)
  = (Ok (false, VInt W16 (-1), Some (VInt W16 (-1), true)),
     mkDecoder [] defaultDam).
Proof.
  exact (proj1 (proj1 (C5_fixnum_fallback bufRead floatId floatId 0 W16 7 (-1)
                         xff (mkDecoder [] defaultDam)) eq_refl)).
Defined.


(** Instance of C8: nil into an int that holds 5 leaves 0 and reads
    nothing. *)
Lemma C8_witness :
  decodeValue bufRead floatId floatId 1 xc0 (-1) false (VInt W0 5, true)
    (mkDecoder [x07] defaultDam)
  = (Ok (false, VInt W0 0, Some (VInt W0 0, true)), mkDecoder [x07] defaultDam).
Proof.
  exact (proj1 (C8_nil_tag bufRead floatId floatId 0 (-1)
                  (mkDecoder [x07] defaultDam)) (VInt W0 5) eq_refl).
Defined.

(** Instance of C9: a reader that hands out one byte per call serves a
    two-byte read in exactly two calls. *)
Lemma C9_witness :
  readb scriptRead 2 (scratch 2)
    (mkDecoder [([x01], None); ([x02], None); ([x03], None)] defaultDam)
  = (Ok [x01; x02], mkDecoder [([x03], None)] defaultDam).
Proof.
  destruct (C9_readb_one_retry scriptRead floatId floatId 2 (scratch 2)
              (mkDecoder [([x01], None); ([x02], None); ([x03], None)]
                 defaultDam)
              [x01] None [([x02], None); ([x03], None)] eq_refl eq_refl)
    as (_ & _ & H & _ & _).
  assert (Hshort : length [x01] <> length (scratch 2)) by (simpl; lia).
  destruct (H eq_refl Hshort [x02] None [([x03], None)] eq_refl)
    as (_ & H2 & _).
  exact (H2 eq_refl eq_refl).
Defined.


(** Scenario A of the specification: a two-entry map into an unset
    open/dynamic destination under the default resolver. *)
Lemma scenario_A :
  Unmarshal floatId floatId 5 [x82; xa1; x61; x01; xa1; x62; x02]
    (VPtr TInterface (Some (VIntf None))) None
  = Decoded
      (VPtr TInterface
         (Some (VIntf (Some (VMap TInterface TInterface
            (Some [(VIntf (Some (VString [x61])), VIntf (Some (VInt W8 1)));
                   (VIntf (Some (VString [x62])), VIntf (Some (VInt W8 2)))
                  ])))))).
Proof. vm_compute. reflexivity. Qed.

(** The sequence [1, 2] in its three length forms, into a nil slice of
    ints. *)
Lemma three_forms_decode :
  let unmarshal hdr :=
    Unmarshal floatId floatId 2 (hdr ++ [x01; x02])
      (VPtr (TSlice (TInt W0)) (Some (VSlice (TInt W0) None))) None in
  unmarshal (lenInline x90 2)
  = Decoded (VPtr (TSlice (TInt W0)) (Some (intSlice [1; 2] 2))) /\
  unmarshal (len16 xdc 2) = unmarshal (lenInline x90 2) /\
  unmarshal (len32 xdd 2) = unmarshal (lenInline x90 2).
Proof. repeat split; vm_compute; reflexivity. Qed.

(** A key that is not a byte sequence is kept as decoded: the fixnum key 5
    of a map with open/dynamic keys stays an 8-bit integer. *)
Lemma fixnum_key_kept :
  Unmarshal floatId floatId 3 [x81; x05; xc3]
    (VPtr mapIntfIntfTyp (Some (VMap TInterface TInterface None))) None
  = Decoded
      (VPtr mapIntfIntfTyp
         (Some (VMap TInterface TInterface
            (Some [(VIntf (Some (VInt W8 5)), VIntf (Some (VBool true)))])))).
Proof. vm_compute. reflexivity. Qed.

(** ** Decoding from a byte buffer: reads, strings and records *)

Lemma b2z_z2b (z : Z) : b2z (z2b z) = z mod 256.
Proof.
  unfold b2z, z2b.
  pose proof (Z.mod_pos_bound z 256 ltac:(lia)) as Hm.
  destruct (Byte.of_N (Z.to_N (z mod 256))) as [b|] eqn:E.
  - apply Byte.to_of_N in E. rewrite E. lia.
  - apply Byte.of_N_None_iff in E. lia.
Qed.

(** [readb] on [bytes.Buffer] when the buffer holds the bytes asked for. *)
Lemma readb_buf_enough (n : Z) (bs data rest : list byte) (dam0 : Resolver) :
  Z.of_nat (length bs) = n -> length data = length bs ->
  readb bufRead n bs (mkDecoder (data ++ rest) dam0)
  = (Ok data, mkDecoder rest dam0).
Proof.
  intros Hn Hl. unfold readb, rRead, setr. cbn [r dam].
  assert (Hf : firstn (length bs) (data ++ rest) = data)
    by (rewrite <- Hl; rewrite firstn_app, firstn_all, Nat.sub_diag;
        cbn [firstn]; apply app_nil_r).
  assert (Hs : skipn (length bs) (data ++ rest) = rest)
    by (rewrite <- Hl; rewrite skipn_app, skipn_all, Nat.sub_diag;
        reflexivity).
  assert (E : bufRead (data ++ rest) (length bs)
              = (data, None, rest)).
  { rewrite <- Hf at 2. rewrite <- Hs at 3.
    unfold bufRead. destruct (data ++ rest) eqn:Ed.
    - apply app_eq_nil in Ed. destruct Ed as [-> ->].
      simpl in Hl. rewrite <- Hl. reflexivity.
    - destruct (length bs); reflexivity. }
  rewrite E.
  assert (Hd : firstn (length bs) data = data) by (apply firstn_all2; lia).
  rewrite !Hd.
  replace (Z.of_nat (length data) =? n) with true
    by (symmetry; apply Z.eqb_eq; lia).
  cbn [negb]. unfold overwrite. rewrite skipn_all2 by lia.
  now rewrite app_nil_r.
Qed.

(** [readb] on [bytes.Buffer] when the buffer holds fewer bytes. *)
Lemma readb_buf_short (n : Z) (bs buf : list byte) (dam0 : Resolver) :
  Z.of_nat (length bs) = n -> (length buf < length bs)%nat ->
  readb bufRead n bs (mkDecoder buf dam0)
  = (Panic (ErrRead EOF), mkDecoder [] dam0).
Proof.
  intros Hn Hl. unfold readb, rRead, setr. cbn [r dam].
  destruct buf as [|b buf].
  - destruct (length bs) eqn:E; [simpl in Hl; lia|]. reflexivity.
  - assert (E : bufRead (b :: buf) (length bs) = (b :: buf, None, [])).
    { unfold bufRead. rewrite firstn_all2 by lia.
      rewrite skipn_all2 by lia. destruct (length bs); reflexivity. }
    rewrite E. rewrite firstn_all2 by lia.
    replace (Z.of_nat (length (b :: buf)) =? n) with false
      by (symmetry; apply Z.eqb_neq; lia).
    cbn [negb]. rewrite length_skipn.
    destruct (length bs - length (b :: buf))%nat eqn:E2; [lia|].
    reflexivity.
Qed.

Lemma readb_from_buffer_aux (n : Z) (bs buf : list byte) (dam0 : Resolver) :
  Z.of_nat (length bs) = n ->
  ((length bs <= length buf)%nat ->
     readb bufRead n bs (mkDecoder buf dam0)
     = (Ok (firstn (length bs) buf),
        mkDecoder (skipn (length bs) buf) dam0)) /\
  ((length buf < length bs)%nat ->
     readb bufRead n bs (mkDecoder buf dam0)
     = (Panic (ErrRead EOF), mkDecoder [] dam0)).
Proof.
  intros Hn. split.
  - intros Hl. rewrite <- (firstn_skipn (length bs) buf) at 1.
    apply readb_buf_enough; [exact Hn|].
    rewrite length_firstn. lia.
  - intros Hl. now apply readb_buf_short.
Qed.

(** X21. [readb] on a [bytes.Buffer].  When the buffer holds at least the
    bytes asked for, [readb] returns exactly the next bytes in one read and
    leaves the rest of the buffer; when it holds fewer, [readb] is a read
    fault carrying [io.EOF] and the buffer is drained. *)
Theorem readb_from_buffer :
  forall (n : Z) (bs buf : list byte) (dam0 : Resolver),
    Z.of_nat (length bs) = n ->
    ((length bs <= length buf)%nat ->
       readb bufRead n bs (mkDecoder buf dam0)
       = (Ok (firstn (length bs) buf),
          mkDecoder (skipn (length bs) buf) dam0)) /\
    ((length buf < length bs)%nat ->
       readb bufRead n bs (mkDecoder buf dam0)
       = (Panic (ErrRead EOF), mkDecoder [] dam0) /\
       faultOf (ErrRead EOF) = Some ReadFault).
Proof.
  intros n bs buf dam0 Hn.
  destruct (readb_from_buffer_aux n bs buf dam0 Hn) as [Hok Hshort].
  split; [exact Hok|]. intros Hl. split; [now apply Hshort | reflexivity].
Qed.

Lemma bytes_of_16 (L : Z) :
  0 <= L < 65536 ->
  256 * b2z (z2b (Z.shiftr L 8)) + b2z (z2b L) = L.
Proof.
  intros H. rewrite !b2z_z2b, Z.shiftr_div_pow2 by lia.
  change (2 ^ 8) with 256.
  assert (0 <= L / 256 < 256)
    by (split; [apply Z.div_pos; lia | apply Z.div_lt_upper_bound; lia]).
  rewrite (Z.mod_small (L / 256)) by lia.
  pose proof (Z.div_mod L 256 ltac:(lia)). lia.
Qed.

Lemma bytes_of_32 (L : Z) :
  0 <= L < 4294967296 ->
  16777216 * b2z (z2b (Z.shiftr L 24)) + 65536 * b2z (z2b (Z.shiftr L 16))
  + 256 * b2z (z2b (Z.shiftr L 8)) + b2z (z2b L) = L.
Proof.
  intros H. rewrite !b2z_z2b, !Z.shiftr_div_pow2 by lia.
  change (2 ^ 8) with 256. change (2 ^ 16) with (256 * 256).
  change (2 ^ 24) with (256 * (256 * 256)).
  rewrite <- !Z.div_div by lia.
  set (q1 := L / 256). set (q2 := q1 / 256). set (q3 := q2 / 256).
  pose proof (Z.div_mod L 256 ltac:(lia)) as E0. fold q1 in E0.
  pose proof (Z.div_mod q1 256 ltac:(lia)) as E1. fold q2 in E1.
  pose proof (Z.div_mod q2 256 ltac:(lia)) as E2. fold q3 in E2.
  pose proof (Z.mod_pos_bound L 256 ltac:(lia)).
  pose proof (Z.mod_pos_bound q1 256 ltac:(lia)).
  pose proof (Z.mod_pos_bound q2 256 ltac:(lia)).
  assert (0 <= q3 < 256) by lia.
  rewrite (Z.mod_small q3) by lia. lia.
Qed.

(** The 16-bit and the 32-bit form of a container length, read back from a
    buffer, for every length the form can carry. *)
Lemma readContainerLen_buf16 ct cutoff mask tag16 tag32 L body dam0 :
  getContainerByteDesc ct = Ok (cutoff, mask, tag16, tag32) ->
  0 <= L < 65536 ->
  readContainerLen bufRead tag16 false ct
    (mkDecoder (tl (len16 tag16 L) ++ body) dam0)
  = (Ok L, mkDecoder body dam0).
Proof.
  intros Hd HL. unfold readContainerLen, readDescByte.
  unfold bind at 1. unfold ret at 1. unfold bind at 1. unfold lift at 1.
  rewrite Hd. rewrite byte_eqb_refl. unfold readUint16.
  unfold len16. cbn [tl].
  change ([z2b (Z.shiftr L 8); z2b L] ++ body)
    with ([z2b (Z.shiftr L 8); z2b L] ++ body).
  unfold bind at 1. unfold bind at 1.
  rewrite (readb_buf_enough 2 (scratch 2) [z2b (Z.shiftr L 8); z2b L] body
             dam0 eq_refl eq_refl).
  unfold ret. rewrite BigEndian_2, bytes_of_16 by exact HL.
  rewrite int_small by lia. reflexivity.
Qed.

Lemma readContainerLen_buf32 ct cutoff mask tag16 tag32 L body dam0 :
  getContainerByteDesc ct = Ok (cutoff, mask, tag16, tag32) ->
  0 <= L < 4294967296 ->
  readContainerLen bufRead tag32 false ct
    (mkDecoder (tl (len32 tag32 L) ++ body) dam0)
  = (Ok L, mkDecoder body dam0).
Proof.
  intros Hd HL. unfold readContainerLen, readDescByte.
  unfold bind at 1. unfold ret at 1. unfold bind at 1. unfold lift at 1.
  rewrite Hd.
  assert (Hne : byte_eqb tag32 tag16 = false)
    by (destruct ct; inversion Hd; reflexivity).
  rewrite Hne, byte_eqb_refl. unfold readUint32.
  unfold len32. cbn [tl].
  unfold bind at 1. unfold bind at 1.
  rewrite (readb_buf_enough 4 (scratch 4)
             [z2b (Z.shiftr L 24); z2b (Z.shiftr L 16);
              z2b (Z.shiftr L 8); z2b L] body dam0 eq_refl eq_refl).
  unfold ret. rewrite BigEndian_4, bytes_of_32 by exact HL.
  rewrite int_small by lia. reflexivity.
Qed.

Lemma NewDecoder_buf (dam0 : option Resolver) :
  exists dam1, forall data : list byte,
    NewDecoder data dam0 = mkDecoder data dam1.
Proof. destruct dam0 as [f|]; eexists; intros data; reflexivity. Qed.

Section BufferDecodes.
Variables float32to64 float64to32 : Z -> Z.

(** X22. A string destination decoded from a byte buffer.  For every wire
    length [L > 0] and each of the length forms that can carry it (inline
    below 32, 16-bit below 65536, 32-bit below 2^32), the header followed by
    [body] decodes to the string of the first [L] bytes of [body] when
    [body] holds that many, leaving the bytes after them in the buffer, and
    is a read fault carrying [io.EOF] when it holds fewer: a string is never
    left partly filled.  The bytes are taken as they come, with no check of
    their encoding. *)
Theorem string_from_buffer :
  forall (fuel : nat) (s body : list byte) (L : Z) (dam0 : option Resolver),
    0 < L ->
    let run hdr :=
      Decode bufRead float32to64 float64to32 (S fuel)
        (VPtr TString (Some (VString s))) (NewDecoder (hdr ++ body) dam0) in
    let expected :=
      if L <=? Z.of_nat (length body)
      then (Decoded (VPtr TString
                       (Some (VString (firstn (Z.to_nat L) body)))),
            NewDecoder (skipn (Z.to_nat L) body) dam0)
      else (Failed (ErrPanicked (ErrRead EOF)), NewDecoder [] dam0) in
    (L < 32 -> run (lenInline xa0 L) = expected) /\
    (L < 65536 -> run (len16 xda L) = expected) /\
    (L < 4294967296 -> run (len32 xdb L) = expected).
Proof.
  intros fuel s body L dam0 HL run expected.
  destruct (NewDecoder_buf dam0) as (dam1 & Hnew).
  assert (Hgo : forall tag hdrtl,
    readContainerLen bufRead tag false ContainerRawBytes
      (mkDecoder (hdrtl ++ body) dam1) = (Ok L, mkDecoder body dam1) ->
    Decode bufRead float32to64 float64to32 (S fuel)
      (VPtr TString (Some (VString s)))
      (NewDecoder ((tag :: hdrtl) ++ body) dam0) = expected).
  { intros tag hdrtl Hlen. unfold Decode.
    rewrite DecodeValue_typed by reflexivity. rewrite Hnew.
    cbn [app].
    rewrite (decodeValue_readDesc bufRead float32to64 float64to32 _ _ _ _ _ _
               _ (readb_buf1 tag (hdrtl ++ body) dam1)).
    rewrite (string_decode_gen bufRead float32to64 float64to32 _ _ _ _ _ _
               Hlen HL).
    subst expected. rewrite !Hnew.
    assert (Hsc : Z.of_nat (length (repeat x00 (Z.to_nat L))) = L)
      by (rewrite repeat_length; lia).
    destruct (readb_from_buffer_aux L (repeat x00 (Z.to_nat L)) body dam1 Hsc)
      as [Hok Hshort].
    rewrite repeat_length in Hok, Hshort.
    destruct (L <=? Z.of_nat (length body)) eqn:E.
    - apply Z.leb_le in E. rewrite Hok by lia. reflexivity.
    - apply Z.leb_gt in E. rewrite Hshort by lia. reflexivity. }
  split; [|split].
  - intros Hlt.
    destruct (readContainerLen_forms ContainerRawBytes 32 xa0 xda xdb L body
                dam1 eq_refl ltac:(lia)) as (HlI & _).
    apply (Hgo _ []). exact HlI.
  - intros Hlt. apply (Hgo xda (tl (len16 xda L))).
    apply (readContainerLen_buf16 ContainerRawBytes 32 xa0 xda xdb);
      [reflexivity | lia].
  - intros Hlt. apply (Hgo xdb (tl (len32 xdb L))).
    apply (readContainerLen_buf32 ContainerRawBytes 32 xa0 xda xdb);
      [reflexivity | lia].
Qed.

(** X23. A record decoded from a byte buffer whose first pair names a field
    the record does not have: for every record, every count of pairs from 1
    to 15 and every name of 1 to 31 bytes that is not a field of the record,
    the decode is a field fault that carries the name; it is raised once the
    name has been read, and the bytes after the name are still in the
    buffer. *)
Theorem record_unknown_field :
  forall (fuel : nat) (t : ty) (fs : list (list byte * value)) (n : Z)
         (name rest : list byte) (dam0 : option Resolver),
    1 <= n < 16 ->
    0 < Z.of_nat (length name) < 32 ->
    getForEncName fs name = None ->
    Decode bufRead float32to64 float64to32 (S (S fuel))
      (VPtr t (Some (VStruct fs)))
      (NewDecoder (lenInline x80 n
                   ++ lenInline xa0 (Z.of_nat (length name)) ++ name ++ rest)
         dam0)
    = (Failed (ErrPanicked (ErrInvalidEncField name)), NewDecoder rest dam0) /\
    faultOf (ErrInvalidEncField name) = Some FieldFault.
Proof.
  intros fuel t fs n name rest dam0 Hn Hname Hnone. split; [|reflexivity].
  destruct (NewDecoder_buf dam0) as (dam1 & Hnew).
  set (L := Z.of_nat (length name)) in *.
  destruct (readContainerLen_forms ContainerMap 16 x80 xde xdf n
              (lenInline xa0 L ++ name ++ rest) dam1 eq_refl ltac:(lia))
    as (HlM & _ & _ & HtM & _).
  destruct (readContainerLen_forms ContainerRawBytes 32 xa0 xda xdb L
              (name ++ rest) dam1 eq_refl ltac:(lia)) as (HlR & _).
  unfold lenInline in *. cbn [hd tl app] in *.
  pose proof (isTagOf_not_nil _ _ HtM) as Hbd.
  unfold Decode. rewrite DecodeValue_typed by reflexivity. rewrite !Hnew.
  rewrite (decodeValue_readDesc bufRead float32to64 float64to32 _ _ _ _ _ _ _
             (readb_buf1 _ _ dam1)).
  rewrite decodeValue_typed by reflexivity.
  unfold decodeKind. rewrite Hbd. cbn [fst kindOf typeOf kindOfTy].
  cbv iota. unfold decodeStruct. cbn [fst snd typeOf isTimeTyp]. cbv iota.
  change (-1 <? 0) with true. cbv iota.
  rewrite (bind_eq_Ok _ _ _ _ _ HlM).
  replace (n =? 0) with false by (symmetry; apply Z.eqb_neq; lia).
  destruct (Z.to_nat n) as [|k] eqn:Ek; [lia|].
  cbn [forM]. unfold bind at 1. unfold decodeField at 1.
  unfold bind at 1.
  rewrite (decodeValue_readDesc bufRead float32to64 float64to32 _ _ _ _ _ _ _
             (readb_buf1 _ _ dam1)).
  rewrite (string_decode_gen bufRead float32to64 float64to32 _ _ _ _ _ _
             HlR (proj1 Hname)).
  rewrite (readb_buf_enough L (repeat x00 (Z.to_nat L)) name rest dam1)
    by (rewrite repeat_length; lia).
  rewrite Hnone. reflexivity.
Qed.

(** X24. The two failures of [Unmarshal] that do not depend on the encoded
    value.  A destination that is not a non-nil pointer is refused with the
    usage error, whatever the input and without a single read.  An empty
    input is a read fault carrying [io.EOF], for every pointer destination,
    every resolver and whatever the destination holds. *)
Theorem Unmarshal_usage_and_empty_input :
  (forall (fuel : nat) (data : list byte) (v : value)
          (dam0 : option Resolver),
     kindOf v <> Ptr \/ IsNil v = true ->
     Decode bufRead float32to64 float64to32 fuel v (NewDecoder data dam0)
       = (Failed ErrNotPointer, NewDecoder data dam0) /\
     Unmarshal float32to64 float64to32 fuel data v dam0
       = Failed ErrNotPointer) /\
  (forall (fuel : nat) (e : ty) (x : value) (dam0 : option Resolver),
     Unmarshal float32to64 float64to32 (S fuel) [] (VPtr e (Some x)) dam0
       = Failed (ErrPanicked (ErrRead EOF))).
Proof.
  split.
  - intros fuel data v dam0 Hv. unfold Unmarshal, Decode, DecodeValue.
    destruct v as [| | | | | | | | |e [x|]| | |];
      try (split; reflexivity).
    destruct Hv as [Hv | Hv]; [now elim Hv | discriminate Hv].
  - intros fuel e x dam0. unfold Unmarshal, Decode.
    destruct (NewDecoder_buf dam0) as (dam1 & Hnew). rewrite Hnew.
    unfold DecodeValue, decodeValueT, decodeValueT_. unfold bind at 1.
    simpl decodeValue. unfold decodeValue_, readDescByte.
    unfold bind at 1. unfold bind at 1. reflexivity.
Qed.

End BufferDecodes.

(** ** A decode looks at no byte beyond the value it decodes *)

Section Framing.
Variables float32to64 float64to32 : Z -> Z.

Lemma framed_ret {A} (a : A) : framed (ret a).
Proof. intros rest d a' d' H. unfold ret in *. now inversion H. Qed.

Lemma framed_err {A} (e : perr) : framed (@err _ A e).
Proof. intros rest d a' d' H. discriminate H. Qed.

Lemma framed_diverge {A} : framed (@diverge _ A).
Proof. intros rest d a' d' H. discriminate H. Qed.

Lemma framed_lift {A} (x : result A) : framed (lift x).
Proof. intros rest d a' d' H. unfold lift in *. now inversion H. Qed.

Lemma framed_getDam : framed getDam.
Proof. intros rest d a' d' H. unfold getDam in *. now inversion H. Qed.

Lemma framed_bind {A B} (m : @M (list byte) A) (k : A -> @M (list byte) B) :
  framed m -> (forall a, framed (k a)) -> framed (bind m k).
Proof.
  intros Hm Hk rest d b d' H.
  apply bind_Ok in H. destruct H as (a & d1 & E & H).
  unfold bind. rewrite (Hm _ _ _ _ E). now apply Hk.
Qed.

(** The same when the continuation is framed only on what [m] returns. *)
Lemma framed_bind_post {A B} (Q : A -> Prop) (m : @M (list byte) A)
      (k : A -> @M (list byte) B) :
  framed m -> (forall d a d', m d = (Ok a, d') -> Q a) ->
  (forall a, Q a -> framed (k a)) -> framed (bind m k).
Proof.
  intros Hm HQ Hk rest d b d' H.
  apply bind_Ok in H. destruct H as (a & d1 & E & H).
  unfold bind. rewrite (Hm _ _ _ _ E). apply Hk; [|exact H].
  eapply HQ. exact E.
Qed.

Lemma framed_forM {St} (body : Z -> St -> @M (list byte) St) :
  (forall j s, framed (body j s)) ->
  forall n j s, framed (forM n j body s).
Proof.
  intros Hb. induction n as [|n IH]; intros j s; cbn [forM].
  - apply framed_ret.
  - apply framed_bind; [apply Hb|]. intros a. apply IH.
Qed.

(** [readb] is called with a buffer of [numbytes] bytes; with a negative
    [numbytes] it never succeeds. *)
Lemma framed_readb (n : Z) (bs : list byte) :
  Z.of_nat (length bs) = n \/ n < 0 -> framed (readb bufRead n bs).
Proof.
  intros Hc rest [buf dam0] a d' H. unfold extend. cbn [r dam].
  destruct Hc as [Hn | Hneg].
  - destruct (readb_from_buffer_aux n bs buf dam0 Hn) as [Hok Hshort].
    destruct (le_lt_dec (length bs) (length buf)) as [Hle | Hlt].
    + rewrite (Hok Hle) in H. inversion H; subst a d'; clear H.
      cbn [r dam].
      rewrite <- (firstn_skipn (length bs) buf) at 1. rewrite <- app_assoc.
      apply readb_buf_enough; [exact Hn|]. rewrite length_firstn. lia.
    + rewrite (Hshort Hlt) in H. discriminate H.
  - exfalso. unfold readb in H.
    destruct (rRead bufRead (r {| r := buf; dam := dam0 |}) (length bs))
      as [[data e] r1].
    destruct e; [discriminate H|].
    destruct (Z.of_nat (length data) =? n) eqn:E; cbn [negb] in H.
    + apply Z.eqb_eq in E. lia.
    + destruct (rRead bufRead r1 (length (skipn (length data) bs)))
        as [[data2 e2] r2].
      destruct e2; [discriminate H|].
      destruct (Z.of_nat (length data2) =? n - Z.of_nat (length data)) eqn:E2;
        cbn [negb] in H; [|discriminate H].
      apply Z.eqb_eq in E2. lia.
Qed.

Ltac frame_with tac :=
  cbv zeta;
  repeat first
    [ apply framed_ret | apply framed_err | apply framed_lift
    | apply framed_getDam | apply framed_diverge
    | apply framed_readb; left; reflexivity
    | tac
    | match goal with
      | |- framed (bind _ _) => apply framed_bind; [|intros ?; cbv zeta]
      | |- framed (forM _ _ _ _) => apply framed_forM; intros ? ?
      | H : dframed _ |- framed (_ _ _ _ _) => apply H
      | |- framed (if ?c then _ else _) => destruct c
      | |- framed (match ?x with _ => _ end) => destruct x
      end ].

Ltac frame := frame_with fail.

Lemma framed_readDescByte bd rd : framed (readDescByte bufRead bd rd).
Proof. unfold readDescByte. frame. Qed.

Lemma framed_readUint8 : framed (readUint8 bufRead).
Proof. unfold readUint8. frame. Qed.
Lemma framed_readUint16 : framed (readUint16 bufRead).
Proof. unfold readUint16. frame. Qed.
Lemma framed_readUint32 : framed (readUint32 bufRead).
Proof. unfold readUint32. frame. Qed.
Lemma framed_readUint64 : framed (readUint64 bufRead).
Proof. unfold readUint64. frame. Qed.

Ltac frame_reads :=
  first [ apply framed_readDescByte | apply framed_readUint8
        | apply framed_readUint16 | apply framed_readUint32
        | apply framed_readUint64 ].

Lemma framed_readContainerLen bd rd ct :
  framed (readContainerLen bufRead bd rd ct).
Proof. unfold readContainerLen. frame_with frame_reads. Qed.

Lemma framed_nilIntfContainer ct bd clen sc rv0 elem :
  framed (nilIntfContainer bufRead ct bd clen sc rv0 elem).
Proof.
  unfold nilIntfContainer. frame_with ltac:(apply framed_readContainerLen).
Qed.

Lemma framed_nilIntfDecode bd clen rd sc rv0 :
  framed (nilIntfDecode bufRead bd clen rd sc rv0).
Proof.
  unfold nilIntfDecode.
  frame_with ltac:(first [frame_reads | apply framed_nilIntfContainer]).
Qed.

Lemma framed_decodeScalar bd rv :
  framed (decodeScalar bufRead float32to64 float64to32 bd rv).
Proof. unfold decodeScalar. frame_with frame_reads. Qed.

Lemma framed_decodeRawBytes L rv : framed (decodeRawBytes bufRead L rv).
Proof.
  unfold decodeRawBytes. cbv zeta.
  apply (framed_bind_post
           (fun p : list byte * value =>
              Z.of_nat (length (fst p)) = L \/ L < 0)).
  - frame.
  - intros d a d' H.
    destruct (Z.of_nat
                (length (if isByteSliceTyp (typeOf (fst rv))
                         then Bytes (fst rv) else [])) <? L) eqn:E1.
    + apply Z.ltb_lt in E1. left.
      destruct (isByteSliceTyp (typeOf (fst rv))).
      * apply bind_Ok in H. destruct H as (v' & d1 & _ & H).
        apply ret_Ok in H. destruct H as [<- _]. cbn [fst].
        rewrite repeat_length. lia.
      * apply ret_Ok in H. destruct H as [<- _]. cbn [fst].
        rewrite repeat_length. lia.
    + apply Z.ltb_ge in E1.
      destruct (L <? Z.of_nat
                  (length (if isByteSliceTyp (typeOf (fst rv))
                           then Bytes (fst rv) else []))) eqn:E2.
      * apply Z.ltb_lt in E2. apply ret_Ok in H. destruct H as [<- _].
        cbn [fst]. rewrite length_firstn.
        destruct (Z.lt_ge_cases L 0); [right; lia | left; lia].
      * apply Z.ltb_ge in E2. apply ret_Ok in H. destruct H as [<- _].
        cbn [fst]. left. lia.
  - intros [bs v] HQ. cbn [fst] in HQ.
    frame_with ltac:(apply framed_readb; exact HQ).
Qed.

Lemma framed_zeroElem cs t j rv : framed (@zeroElem (list byte) cs t j rv).
Proof. unfold zeroElem. frame. Qed.

Lemma framed_sizeList L rv : framed (@sizeList (list byte) L rv).
Proof. unfold sizeList. frame_with ltac:(apply framed_zeroElem). Qed.

Section Frame.
Variable dv : @decoder (list byte).
Hypothesis Hdv : dframed dv.

Lemma framed_decodeValueT_ bd cl rd rve c1 c2 c3 :
  framed (decodeValueT_ dv bd cl rd rve c1 c2 c3).
Proof. unfold decodeValueT_. frame. Qed.

Lemma framed_decodePtr bd cl rv : framed (decodePtr dv bd cl rv).
Proof. unfold decodePtr. frame. Qed.

Lemma framed_decodeElem cs t j rv : framed (decodeElem bufRead dv cs t j rv).
Proof.
  unfold decodeElem.
  frame_with ltac:(first [ apply framed_decodeValueT_
                         | apply framed_nilIntfDecode ]).
Qed.

Lemma framed_decodeSeq bd cl rv : framed (decodeSeq bufRead dv bd cl rv).
Proof.
  unfold decodeSeq, decodeList.
  frame_with ltac:(first [ apply framed_decodeElem | apply framed_sizeList
                         | apply framed_decodeRawBytes
                         | apply framed_readContainerLen ]).
Qed.

Lemma framed_decodeField cs j rv : framed (decodeField dv cs j rv).
Proof. unfold decodeField. frame_with ltac:(apply framed_decodeValueT_). Qed.

Lemma framed_decodeStruct bd cl rv :
  framed (decodeStruct bufRead dv bd cl rv).
Proof.
  unfold decodeStruct.
  frame_with ltac:(first [ apply framed_decodeField
                         | apply framed_readContainerLen ]).
Qed.

Lemma framed_decodeEntry j rv : framed (decodeEntry bufRead dv j rv).
Proof.
  unfold decodeEntry.
  frame_with ltac:(first [ apply framed_decodeValueT_
                         | apply framed_nilIntfDecode ]).
Qed.

Lemma framed_decodeMap bd cl rv : framed (decodeMap bufRead dv bd cl rv).
Proof.
  unfold decodeMap.
  frame_with ltac:(first [ apply framed_decodeEntry
                         | apply framed_readContainerLen ]).
Qed.

Lemma framed_decodeKind bd cl rv :
  framed (decodeKind bufRead float32to64 float64to32 dv bd cl rv).
Proof.
  unfold decodeKind.
  frame_with ltac:(first [ apply framed_decodePtr | apply framed_decodeSeq
                         | apply framed_decodeStruct | apply framed_decodeMap
                         | apply framed_decodeScalar ]).
Qed.

Lemma framed_decodeValue_ :
  dframed (decodeValue_ bufRead float32to64 float64to32 dv).
Proof.
  intros bd cl rd rv. unfold decodeValue_.
  frame_with ltac:(first [ apply framed_decodeKind | frame_reads
                         | apply framed_nilIntfDecode ]).
Qed.

End Frame.

Lemma framed_decodeValue fuel :
  dframed (decodeValue bufRead float32to64 float64to32 fuel).
Proof.
  induction fuel as [|fuel IH].
  - intros bd cl rd rv. apply framed_diverge.
  - change (decodeValue bufRead float32to64 float64to32 (S fuel))
      with (decodeValue_ bufRead float32to64 float64to32
              (decodeValue bufRead float32to64 float64to32 fuel)).
    now apply framed_decodeValue_.
Qed.

(** X25. A decode that succeeds has looked at no byte beyond the encoded
    value.  If [Decode] on a buffer succeeds, then with any bytes appended
    to the buffer it succeeds with the same result and leaves, after what it
    left before, exactly the appended bytes: values written one after the
    other can be decoded one after the other.  [Unmarshal] of an encoded
    value followed by anything is [Unmarshal] of the encoded value. *)
Theorem Decode_leaves_trailing_bytes :
  forall (fuel : nat) (v res : value) (data rest : list byte)
         (dam0 : option Resolver) (d' : @Decoder (list byte)),
    Decode bufRead float32to64 float64to32 fuel v (NewDecoder data dam0)
      = (Decoded res, d') ->
    Decode bufRead float32to64 float64to32 fuel v
      (NewDecoder (data ++ rest) dam0)
      = (Decoded res, mkDecoder (r d' ++ rest) (dam d')) /\
    Unmarshal float32to64 float64to32 fuel (data ++ rest) v dam0
      = Decoded res.
Proof.
  intros fuel v res data rest dam0 d' H.
  assert (Hgo : Decode bufRead float32to64 float64to32 fuel v
                  (NewDecoder (data ++ rest) dam0)
                = (Decoded res, mkDecoder (r d' ++ rest) (dam d'))).
  { destruct (NewDecoder_buf dam0) as (dam1 & Hnew). rewrite Hnew in *.
    unfold Decode, DecodeValue in *.
    destruct v as [| | | | | | | | |e [x|]| | |]; try discriminate H.
    unfold decodeValueT in *.
    destruct (decodeValueT_ (decodeValue bufRead float32to64 float64to32 fuel)
                x00 (-1) true (x, true) true true true (mkDecoder data dam1))
      as [[[x' o]|p|] d1] eqn:E; try discriminate H.
    inversion H; subst res d'; clear H.
    pose proof (framed_decodeValueT_ _ (framed_decodeValue fuel)
                  x00 (-1) true (x, true) true true true rest _ _ _ E) as E'.
    unfold extend in E'. cbn [r dam] in E'. rewrite E'. reflexivity. }
  split; [exact Hgo|]. unfold Unmarshal. now rewrite Hgo.
Qed.

End Framing.

(** ** Instances of the properties above *)

(** The 16-bit sequence tag followed by [0x01 0x02] announces 258
    elements. *)
Lemma readContainerLen_range_witness :
  readContainerLen bufRead xdc false ContainerList (onBuffer [x01; x02])
    = (Ok 258, onBuffer []) /\
  0 <= 258 < 2 ^ 32.
Proof.
  split; [reflexivity|].
  apply (readContainerLen_range bufRead xdc false ContainerList
           (onBuffer [x01; x02]) (onBuffer []) 258).
  reflexivity.
Defined.

(** The 16-bit integer 258 into an int8 leaves 2. *)
Lemma sized_int_into_int_witness :
  decodeValue bufRead floatId floatId 1 xd1 (-1) false (VInt W8 7, true)
    (onBuffer [x01; x02; x00])
  = (Ok (false, VInt W8 2, Some (VInt W8 2, true)), onBuffer [x00]).
Proof.
  exact (proj1 (sized_int_into_int bufRead floatId floatId 0 xd1 W16 W8 7 (-1)
                  (onBuffer [x01; x02; x00]) (onBuffer [x00]) [x01; x02]
                  eq_refl eq_refl)).
Defined.

(** The unsigned 16-bit integer 258 into a uint64. *)
Lemma sized_uint_into_uint_witness :
  decodeValue bufRead floatId floatId 1 xcd (-1) false (VUint W64 9, true)
    (onBuffer [x01; x02; x00])
  = (Ok (false, VUint W64 258, Some (VUint W64 258, true)), onBuffer [x00]).
Proof.
  exact (proj1 (sized_uint_into_uint bufRead floatId floatId 0 xcd W16 W64 9
                  (-1) (onBuffer [x01; x02; x00]) (onBuffer [x00]) [x01; x02]
                  eq_refl eq_refl)).
Defined.

(** The unsigned 8-bit integer 7 into an int. *)
Lemma scalar_kind_mismatch_witness :
  decodeValue bufRead floatId floatId 1 xcc (-1) false (VInt W0 5, true)
    (onBuffer [x07])
  = (Panic (ErrReflect WrongKind), onBuffer []).
Proof.
  destruct (scalar_kind_mismatch bufRead floatId floatId 0 xcc (-1)
              (VInt W0 5) (onBuffer [x07]) eq_refl) as (_ & H & _).
  apply (H W8 [x07] (onBuffer []) eq_refl eq_refl).
  intros E. cbv in E. discriminate E.
Defined.

(** The empty string into a string that holds "ab". *)
Lemma zero_length_leaves_destination_witness :
  decodeValue bufRead floatId floatId 1 xa0 (-1) false
    (VString [x61; x62], true) (onBuffer [x07])
  = (Ok (false, VString [x61; x62], Some (VString [x61; x62], true)),
     onBuffer [x07]).
Proof.
  apply (zero_length_leaves_destination bufRead floatId floatId 0
           ContainerRawBytes xa0 (VString [x61; x62]) true
           (onBuffer [x07]) (onBuffer [x07])); reflexivity.
Defined.

(** Two raw bytes into a byte slice of three bytes that cannot be set. *)
Lemma byte_slice_decode_witness :
  decodeValue bufRead floatId floatId 1 xa2 (-1) false
    (VSlice (TUint W8) (Some ([VUint W8 1; VUint W8 2; VUint W8 3], 3%nat)),
     false)
    (onBuffer [x61; x62; x00])
  = (Ok (false,
         VSlice (TUint W8)
           (Some ([VUint W8 97; VUint W8 98; VUint W8 3], 3%nat)),
         Some (VSlice (TUint W8)
                 (Some ([VUint W8 97; VUint W8 98; VUint W8 3], 3%nat)),
               false)),
     onBuffer [x00]).
Proof.
  destruct (byte_slice_decode bufRead floatId floatId 0 xa2
              (Some ([VUint W8 1; VUint W8 2; VUint W8 3], 3%nat)) false
              (onBuffer [x61; x62; x00]) (onBuffer [x61; x62; x00])
              (onBuffer [x00]) 2 [x61; x62] eq_refl eq_refl eq_refl)
    as [_ H].
  assert (Hlong : 2 <= Len (VSlice (TUint W8)
                    (Some ([VUint W8 1; VUint W8 2; VUint W8 3], 3%nat))))
    by (simpl; lia).
  assert (Hwf : (3 <= length [VUint W8 1; VUint W8 2; VUint W8 3])%nat)
    by (simpl; lia).
  exact (proj1 (H Hlong _ _ eq_refl Hwf)).
Defined.

(** The sequence [1, 2] into a nil slice of ints. *)
Lemma nil_slice_decode_witness :
  exists b',
    intSlice [1; 2] 2 = VSlice (TInt W0) (Some (b', Z.to_nat 2)) /\
    length b' = Z.to_nat 2 /\
    Len (intSlice [1; 2] 2) = 2 /\ Cap (intSlice [1; 2] 2) = 2.
Proof.
  apply (proj2 (nil_slice_decode bufRead floatId floatId 1 x92 (TInt W0)
                  (onBuffer [x01; x02]) (onBuffer [x01; x02]) 2
                  eq_refl eq_refl eq_refl)
           false (intSlice [1; 2] 2) (Some (intSlice [1; 2] 2, true))
           (onBuffer [])).
  reflexivity.
Defined.

(** The sequence [1, true] into an unset open/dynamic slot. *)
Lemma unset_interface_sequence_witness :
  exists b',
    VIntf (Some (VSlice TInterface
                   (Some ([VIntf (Some (VInt W8 1));
                           VIntf (Some (VBool true))], 2%nat))))
    = VIntf (Some (VSlice TInterface (Some (b', Z.to_nat 2)))) /\
    length b' = Z.to_nat 2 /\
    Len (VSlice TInterface (Some (b', Z.to_nat 2))) = 2 /\
    Cap (VSlice TInterface (Some (b', Z.to_nat 2))) = 2.
Proof.
  apply (unset_interface_sequence bufRead floatId floatId 0 x92
           (onBuffer [x01; xc3]) (onBuffer [x01; xc3]) 2
           DefaultDecoderContainerResolver eq_refl eq_refl eq_refl eq_refl
           true
           (VIntf (Some (VSlice TInterface
                           (Some ([VIntf (Some (VInt W8 1));
                                   VIntf (Some (VBool true))], 2%nat)))))
           (Some (VIntf (Some (VSlice TInterface
                                 (Some ([VIntf (Some (VInt W8 1));
                                         VIntf (Some (VBool true))],
                                        2%nat)))), true))
           (onBuffer [])).
  reflexivity.
Defined.

(** The raw byte "a" as the first element of a [[]interface{}], under a
    resolver whose slice-element flag is off. *)
Lemma raw_bytes_element_witness :
  decodeElem bufRead (decodeValue bufRead floatId floatId 2) true TInterface 0
    (VSlice TInterface (Some ([VIntf None; VIntf None], 2%nat)))
    (mkDecoder [xa1; x61] (DecoderContainer bytesElement))
  = (Ok (VSlice TInterface
           (Some ([VIntf (Some (VSlice (TUint W8)
                                  (Some ([VUint W8 97], 1%nat))));
                   VIntf None], 2%nat))),
     mkDecoder [] (DecoderContainer bytesElement)).
Proof.
  assert (Hj : 0 <= 0 < Z.of_nat 2) by (simpl; lia).
  assert (Hbody :
    1 = 0 /\ [x61] = [] /\
      mkDecoder [] (DecoderContainer bytesElement)
      = mkDecoder [x61] (DecoderContainer bytesElement) \/
    0 < 1 /\
      readb bufRead 1 (repeat x00 (Z.to_nat 1))
        (mkDecoder [x61] (DecoderContainer bytesElement))
      = (Ok [x61], mkDecoder [] (DecoderContainer bytesElement)))
    by (right; split; [lia | reflexivity]).
  exact (proj1 (raw_bytes_element bufRead floatId floatId 0
                  [VIntf None; VIntf None] 2 0
                  (mkDecoder [xa1; x61] (DecoderContainer bytesElement))
                  (mkDecoder [x61] (DecoderContainer bytesElement))
                  (mkDecoder [x61] (DecoderContainer bytesElement))
                  (mkDecoder [] (DecoderContainer bytesElement))
                  xa1 1 [x61] bytesElement
                  Hj eq_refl eq_refl eq_refl eq_refl Hbody eq_refl) true).
Defined.

(** The pair [1: 2] into the map [{1: 5}]. *)
Lemma map_existing_scalar_entry_witness :
  decodeEntry bufRead (decodeValue bufRead floatId floatId 2) 0
    (VMap (TInt W0) (TInt W0) (Some [(VInt W0 1, VInt W0 5)]))
    (onBuffer [x01; x02])
  = (Panic (ErrReflect NotSettable), onBuffer []).
Proof.
  destruct (map_existing_scalar_entry bufRead floatId floatId 0 0
              (TInt W0) (TInt W0) [(VInt W0 1, VInt W0 5)]
              (onBuffer [x01; x02]) (onBuffer [x02])
              (VInt W0 1) (VInt W0 1) (VInt W0 5)
              eq_refl eq_refl eq_refl eq_refl) as [_ H].
  apply (H x02 (onBuffer []) eq_refl eq_refl).
  right. right. right. split; [reflexivity | left; reflexivity].
Defined.

(** The map [{1: 2}] into a nil map of ints. *)
Lemma map_decode_size_witness :
  exists m',
    VMap (TInt W0) (TInt W0) (Some [(VInt W0 1, VInt W0 2)])
    = VMap (TInt W0) (TInt W0) (Some m') /\
    (length m' <= length (entries nilIntMap) + Z.to_nat 1)%nat.
Proof.
  apply (proj2 (map_decode_size bufRead floatId floatId 1 x81 (TInt W0)
                  (TInt W0) None true (onBuffer [x01; x02])
                  (onBuffer [x01; x02]) 1 eq_refl eq_refl eq_refl)
           false
           (VMap (TInt W0) (TInt W0) (Some [(VInt W0 1, VInt W0 2)]))
           (Some (VMap (TInt W0) (TInt W0) (Some [(VInt W0 1, VInt W0 2)]),
                  true))
           (onBuffer [])).
  reflexivity.
Defined.

(** The wire name "b" in a record whose only field is "a". *)
Lemma record_field_round_witness :
  decodeField (decodeValue bufRead floatId floatId 1) true 0
    (VStruct [([x61], VInt W0 0)]) (onBuffer [xa1; x62; x01])
  = (Panic (ErrInvalidEncField [x62]), onBuffer [x01]).
Proof.
  exact (proj1 (proj1 (record_field_round
                         (decodeValue bufRead floatId floatId 1) true 0
                         [([x61], VInt W0 0)] (onBuffer [xa1; x62; x01])
                         (onBuffer [x01]) false [x62]
                         (Some (VString [x62], true)) eq_refl) eq_refl)).
Defined.

(** A sequence of three elements into a timestamp. *)
Lemma timestamp_decode_witness :
  decodeValue bufRead floatId floatId 2 x93 (-1) false (VTime None, true)
    (onBuffer [x01; x02; x03])
  = (Panic (ErrArrayLen 2 3), onBuffer [x01; x02; x03]).
Proof.
  assert (Hlong : 2 < 3) by lia.
  exact (proj1 (proj1 (timestamp_decode bufRead floatId floatId 0 x93 None
                         (onBuffer [x01; x02; x03])
                         (onBuffer [x01; x02; x03]) 3 eq_refl)
                  Hlong true)).
Defined.

(** The fixnum 5 into an int behind two pointers. *)
Lemma pointers_are_transparent_witness :
  decodeValue bufRead floatId floatId 3 x05 (-1) false
    (pointersTo [TPtr (TInt W0); TInt W0] (VInt W0 0), false) (onBuffer [])
  = (Ok (false, pointersTo [TPtr (TInt W0); TInt W0] (VInt W0 5),
         Some (pointersTo [TPtr (TInt W0); TInt W0] (VInt W0 5), false)),
     onBuffer []).
Proof.
  assert (Hne : [TPtr (TInt W0); TInt W0] <> []) by discriminate.
  exact (pointers_are_transparent bufRead floatId floatId
           [TPtr (TInt W0); TInt W0] 1 x05 (-1) (VInt W0 0) false
           (onBuffer []) Hne eq_refl).
Defined.

(** The map [{1: 2}] into an unset open/dynamic slot. *)
Lemma unset_interface_map_witness :
  exists m',
    VIntf (Some (VMap TInterface TInterface
                   (Some [(VIntf (Some (VInt W8 1)),
                           VIntf (Some (VInt W8 2)))])))
    = VIntf (Some (VMap TInterface TInterface (Some m'))) /\
    (length m' <= Z.to_nat 1)%nat.
Proof.
  apply (unset_interface_map bufRead floatId floatId 1 x81
           (onBuffer [x01; x02]) (onBuffer [x01; x02]) 1
           DefaultDecoderContainerResolver eq_refl eq_refl eq_refl eq_refl
           true
           (VIntf (Some (VMap TInterface TInterface
                           (Some [(VIntf (Some (VInt W8 1)),
                                   VIntf (Some (VInt W8 2)))]))))
           (Some (VIntf (Some (VMap TInterface TInterface
                                 (Some [(VIntf (Some (VInt W8 1)),
                                         VIntf (Some (VInt W8 2)))]))),
                  true))
           (onBuffer [])).
  reflexivity.
Defined.

(** The pair ["k": raw "v"] into an empty map of strings to open/dynamic
    values, under a resolver whose map-value flag is off. *)
Lemma raw_bytes_map_value_witness :
  decodeEntry bufRead (decodeValue bufRead floatId floatId 2) 0
    (VMap TString TInterface (Some []))
    (mkDecoder [xa1; x6b; xa1; x76] (DecoderContainer bytesMapValue))
  = (Ok (VMap TString TInterface
           (Some [(VString [x6b],
                   VIntf (Some (VSlice (TUint W8)
                                  (Some ([VUint W8 118], 1%nat)))))])),
     mkDecoder [] (DecoderContainer bytesMapValue)).
Proof.
  assert (Hbody :
    1 = 0 /\ [x76] = [] /\
      mkDecoder [] (DecoderContainer bytesMapValue)
      = mkDecoder [x76] (DecoderContainer bytesMapValue) \/
    0 < 1 /\
      readb bufRead 1 (repeat x00 (Z.to_nat 1))
        (mkDecoder [x76] (DecoderContainer bytesMapValue))
      = (Ok [x76], mkDecoder [] (DecoderContainer bytesMapValue)))
    by (right; split; [lia | reflexivity]).
  exact (raw_bytes_map_value bufRead floatId floatId 0 0 TString []
           (mkDecoder [xa1; x6b; xa1; x76] (DecoderContainer bytesMapValue))
           (mkDecoder [xa1; x76] (DecoderContainer bytesMapValue))
           (mkDecoder [x76] (DecoderContainer bytesMapValue))
           (mkDecoder [x76] (DecoderContainer bytesMapValue))
           (mkDecoder [] (DecoderContainer bytesMapValue))
           (VString [x6b]) (VString [x6b]) xa1 1 [x76] bytesMapValue
           eq_refl eq_refl eq_refl eq_refl eq_refl eq_refl Hbody eq_refl).
Defined.

(** The empty sequence as a key of a [map[interface{}]interface{}]. *)
Lemma map_container_key_refused_witness :
  decodeEntry bufRead (decodeValue bufRead floatId floatId 2) 0
    (VMap intfTyp intfTyp (Some [])) (onBuffer [x90; x01])
  = (Panic (ErrReflect Unhashable), onBuffer [x01]).
Proof.
  destruct (map_container_key_refused bufRead floatId floatId 0 0 intfTyp []
              (onBuffer [x90; x01]) (onBuffer [x01]) x90
              DefaultDecoderContainerResolver
              eq_refl (or_introl eq_refl) eq_refl eq_refl eq_refl)
    as [_ H].
  apply (H (VIntf (Some (VSlice TInterface (Some ([], 0%nat)))))
           (Some (VIntf (Some (VSlice TInterface (Some ([], 0%nat))))))
           (onBuffer [x01])).
  reflexivity.
Defined.

(** Two bytes out of a buffer of three. *)
Lemma readb_from_buffer_witness :
  readb bufRead 2 (scratch 2) (onBuffer [x01; x02; x03])
  = (Ok [x01; x02], onBuffer [x03]).
Proof.
  assert (Hl : (length (scratch 2) <= length [x01; x02; x03])%nat)
    by (simpl; lia).
  exact (proj1 (readb_from_buffer 2 (scratch 2) [x01; x02; x03] defaultDam
                  eq_refl) Hl).
Defined.

(** "hi" in the 16-bit form, followed by one more byte, into a string that
    holds "z". *)
Lemma string_from_buffer_witness :
  Decode bufRead floatId floatId 1 (VPtr TString (Some (VString [x7a])))
    (NewDecoder (len16 xda 2 ++ [x68; x69; x21]) None)
  = (Decoded (VPtr TString (Some (VString [x68; x69]))),
     NewDecoder [x21] None).
Proof.
  assert (HL : 0 < 2) by lia.
  assert (Hlt : 2 < 65536) by lia.
  exact (proj1 (proj2 (string_from_buffer floatId floatId 0 [x7a]
                         [x68; x69; x21] 2 None HL)) Hlt).
Defined.

(** The pair ["b": 1] into a record whose only field is "a". *)
Lemma record_unknown_field_witness :
  Decode bufRead floatId floatId 2
    (VPtr (TStruct [([x61], TInt W0)]) (Some (VStruct [([x61], VInt W0 0)])))
    (NewDecoder (lenInline x80 1 ++ lenInline xa0 1 ++ [x62] ++ [x01]) None)
  = (Failed (ErrPanicked (ErrInvalidEncField [x62])), NewDecoder [x01] None).
Proof.
  assert (Hn : 1 <= 1 < 16) by lia.
  assert (Hname : 0 < Z.of_nat (length [x62]) < 32) by (simpl; lia).
  exact (proj1 (record_unknown_field floatId floatId 0
                  (TStruct [([x61], TInt W0)]) [([x61], VInt W0 0)] 1
                  [x62] [x01] None Hn Hname eq_refl)).
Defined.

(** The sequence [1, 2] followed by the byte [0xc3], into a nil slice of
    ints. *)
Lemma Decode_leaves_trailing_bytes_witness :
  Decode bufRead floatId floatId 2
    (VPtr (TSlice (TInt W0)) (Some (VSlice (TInt W0) None)))
    (NewDecoder ([x92; x01; x02] ++ [xc3]) None)
  = (Decoded (VPtr (TSlice (TInt W0)) (Some (intSlice [1; 2] 2))),
     mkDecoder (r (onBuffer []) ++ [xc3]) (dam (onBuffer []))) /\
  Unmarshal floatId floatId 2 ([x92; x01; x02] ++ [xc3])
    (VPtr (TSlice (TInt W0)) (Some (VSlice (TInt W0) None))) None
  = Decoded (VPtr (TSlice (TInt W0)) (Some (intSlice [1; 2] 2))).
Proof.
  apply (Decode_leaves_trailing_bytes floatId floatId 2
           (VPtr (TSlice (TInt W0)) (Some (VSlice (TInt W0) None)))
           (VPtr (TSlice (TInt W0)) (Some (intSlice [1; 2] 2)))
           [x92; x01; x02] [xc3] None (onBuffer [])).
  reflexivity.
Defined.

(** The reserved tag into a string. *)
Lemma reserved_tag_faults_witness :
  exists e,
    decodeValue bufRead floatId floatId 1 xc1 (-1) false (VString [], true)
      (onBuffer [x01])
    = (Panic e, onBuffer [x01]) /\
    faultOf e = Some FormatFault.
Proof.
  apply (reserved_tag_faults bufRead floatId floatId 0 (VString []) true
           (onBuffer [x01])).
  reflexivity.
Defined.

(** The sequence [1, 2] into the array [7, 8, 9]. *)
Lemma array_decode_witness :
  exists l',
    intArray [1; 2; 0] = VArray (TInt W0) l' /\
    length l' = length (ints [7; 8; 9]) /\
    forall i, (Z.to_nat 2 <= i < length (ints [7; 8; 9]%Z))%nat ->
      nth_error l' i = Some (zero (TInt W0)).
Proof.
  assert (HL : 0 < 2) by lia.
  assert (Hty : Forall (fun x => typeOf x = TInt W0) (ints [7; 8; 9]))
    by (repeat constructor).
  apply (proj2 (array_decode bufRead floatId floatId 1 x92 (TInt W0)
                  (ints [7; 8; 9]) (onBuffer [x01; x02])
                  (onBuffer [x01; x02]) 2 eq_refl eq_refl)
           HL Hty false (intArray [1; 2; 0])
           (Some (intArray [1; 2; 0], true)) (onBuffer [])).
  reflexivity.
Defined.
